(** * A shallow embedding of the lsp-proxy engine (lsp-proxy.py)

    The proxy routes JSON-RPC messages between one client and several
    language servers.  This development embeds the parts of [lsp-proxy.py]
    that decide routing, aggregation and framing:
    - Python values decoded from JSON ([json]) and the Python operations the
      code applies to them ([in], subscripting, truthiness, [==]);
    - the per-server book-keeping ([Server]) and the proxy state ([Proxy]);
    - [get_server_generic] and the feature-owner selectors;
    - [get_initialization_options];
    - [Proxy.process] and [Proxy.dispatch];
    - [read_message] and [construct_message] (with [json.dumps] and
      [json.loads]).

    Uncaught Python exceptions are the [Raise] outcome of the [res] monad. *)

From Stdlib Require Import ZArith String Ascii List Bool Lia Sorting.Sorted.
Import ListNotations.
Set Warnings "-register-all".

(* ------------------------------------------------------------------ *)
(** ** Python values *)

(** A Python [str]: its sequence of code points. *)
Definition ustr := list Z.

(** The [str] spelled by an ASCII string literal of the source. *)
Definition u (s : string) : ustr :=
  map (fun a => Z.of_nat (nat_of_ascii a)) (list_ascii_of_string s).

Fixpoint ustr_eqb (a b : ustr) : bool :=
  match a, b with
  | [], [] => true
  | x :: a', y :: b' => Z.eqb x y && ustr_eqb a' b'
  | _, _ => false
  end.

(** Values produced by [json.loads] and built by the proxy: [None], [bool],
    [int], [str], [list] and [dict] with [str] keys (in insertion order).
    Floating-point numbers are not represented. *)
Inductive json : Type :=
| JNull
| JBool (b : bool)
| JInt (z : Z)
| JStr (s : ustr)
| JArr (l : list json)
| JObj (m : list (ustr * json)).

(** Python's [==] on these values.  [True == 1] and [False == 0] hold as in
    Python; lists compare element-wise; dicts compare entry-wise in
    insertion order (the ids, methods and URIs the proxy compares are
    [int]s and [str]s). *)
Fixpoint py_eq (x y : json) {struct x} : bool :=
  match x, y with
  | JNull, JNull => true
  | JBool a, JBool b => Bool.eqb a b
  | JInt a, JInt b => Z.eqb a b
  | JBool a, JInt b => Z.eqb (Z.b2z a) b
  | JInt a, JBool b => Z.eqb a (Z.b2z b)
  | JStr a, JStr b => ustr_eqb a b
  | JArr l1, JArr l2 =>
      (fix go (l1 l2 : list json) : bool :=
         match l1, l2 with
         | [], [] => true
         | a :: r1, b :: r2 => py_eq a b && go r1 r2
         | _, _ => false
         end) l1 l2
  | JObj m1, JObj m2 =>
      (fix go (m1 m2 : list (ustr * json)) : bool :=
         match m1, m2 with
         | [], [] => true
         | (k1, a) :: r1, (k2, b) :: r2 => ustr_eqb k1 k2 && py_eq a b && go r1 r2
         | _, _ => false
         end) m1 m2
  | _, _ => false
  end.

(** Python truthiness. *)
Definition py_truthy (x : json) : bool :=
  match x with
  | JNull => false
  | JBool b => b
  | JInt z => negb (Z.eqb z 0)
  | JStr s => negb (ustr_eqb s [])
  | JArr l => match l with [] => false | _ => true end
  | JObj m => match m with [] => false | _ => true end
  end.

(** [list] and [dict] are unhashable. *)
Definition hashable (x : json) : bool :=
  match x with
  | JArr _ | JObj _ => false
  | _ => true
  end.

(* ------------------------------------------------------------------ *)
(** ** Exceptions *)

Inductive py_exc :=
| KeyError | TypeError | ValueError | IndexError
| IncompleteReadError | LimitOverrunError | RecursionError.

Inductive res (A : Type) : Type :=
| Ok (a : A)
| Raise (e : py_exc).
Arguments Ok {A} a.
Arguments Raise {A} e.

Definition bind {A B} (m : res A) (k : A -> res B) : res B :=
  match m with
  | Ok a => k a
  | Raise e => Raise e
  end.

Notation "x <- m ;; k" := (bind m (fun x => k))
  (at level 61, m at next level, right associativity).

(* ------------------------------------------------------------------ *)
(** ** Python operations on values *)

Fixpoint obj_lookup (k : ustr) (m : list (ustr * json)) : option json :=
  match m with
  | [] => None
  | (k', v) :: r => if ustr_eqb k k' then Some v else obj_lookup k r
  end.

(** [d[k] = v] on a dict: an existing key keeps its place. *)
Fixpoint obj_set (k : ustr) (v : json) (m : list (ustr * json)) : list (ustr * json) :=
  match m with
  | [] => [(k, v)]
  | (k', v') :: r => if ustr_eqb k k' then (k', v) :: r else (k', v') :: obj_set k v r
  end.

Fixpoint ustr_prefixb (p s : ustr) : bool :=
  match p, s with
  | [], _ => true
  | x :: p', y :: s' => Z.eqb x y && ustr_prefixb p' s'
  | _ :: _, [] => false
  end.

Fixpoint ustr_substrb (p s : ustr) : bool :=
  ustr_prefixb p s || match s with [] => false | _ :: s' => ustr_substrb p s' end.

(** [x in c]. *)
Definition py_in (x c : json) : res bool :=
  match c with
  | JObj m =>
      match x with
      | JStr k => Ok (match obj_lookup k m with Some _ => true | None => false end)
      | JArr _ | JObj _ => Raise TypeError
      | _ => Ok false
      end
  | JArr l => Ok (existsb (py_eq x) l)
  | JStr s =>
      match x with
      | JStr p => Ok (ustr_substrb p s)
      | _ => Raise TypeError
      end
  | _ => Raise TypeError
  end.

(** [c[k]] for a [str] literal [k]. *)
Definition py_getitem (c : json) (k : ustr) : res json :=
  match c with
  | JObj m => match obj_lookup k m with Some v => Ok v | None => Raise KeyError end
  | _ => Raise TypeError
  end.

(** [c[k] = v] for a [str] literal [k]; the updated container. *)
Definition py_setitem (c : json) (k : ustr) (v : json) : res json :=
  match c with
  | JObj m => Ok (JObj (obj_set k v m))
  | JArr _ | JStr _ => Raise TypeError
  | _ => Raise TypeError
  end.

(** [safe_get(dct, key)] for a non-empty literal [key]; [None] is [JNull]. *)
Definition safe_get (dct : json) (key : ustr) : res json :=
  if py_truthy dct then
    b <- py_in (JStr key) dct ;;
    if b then py_getitem dct key else Ok JNull
  else Ok JNull.

(** [lst += it] for a list: the elements an iterable [it] yields. *)
Definition py_iter (it : json) : res (list json) :=
  match it with
  | JArr l => Ok l
  | JObj m => Ok (map (fun kv => JStr (fst kv)) m)
  | JStr s => Ok (map (fun c => JStr [c]) s)
  | _ => Raise TypeError
  end.

(* ------------------------------------------------------------------ *)
(** ** Dicts keyed by ids and URIs ([pending_*], [diagnostics],
       [received_code_actions]) *)

Definition pydict := list (json * json).

Definition d_in (k : json) (d : pydict) : res bool :=
  if hashable k then Ok (existsb (fun kv => py_eq k (fst kv)) d) else Raise TypeError.

Fixpoint d_find (k : json) (d : pydict) : option json :=
  match d with
  | [] => None
  | (k', v) :: r => if py_eq k k' then Some v else d_find k r
  end.

Definition d_get (k : json) (d : pydict) : res json :=
  if hashable k then
    match d_find k d with Some v => Ok v | None => Raise KeyError end
  else Raise TypeError.

Fixpoint d_set_raw (k v : json) (d : pydict) : pydict :=
  match d with
  | [] => [(k, v)]
  | (k', v') :: r => if py_eq k k' then (k', v) :: r else (k', v') :: d_set_raw k v r
  end.

Definition d_set (k v : json) (d : pydict) : res pydict :=
  if hashable k then Ok (d_set_raw k v d) else Raise TypeError.

Fixpoint d_del_raw (k : json) (d : pydict) : pydict :=
  match d with
  | [] => []
  | (k', v') :: r => if py_eq k k' then r else (k', v') :: d_del_raw k r
  end.

Definition d_del (k : json) (d : pydict) : res pydict :=
  if hashable k then
    match d_find k d with Some _ => Ok (d_del_raw k d) | None => Raise KeyError end
  else Raise TypeError.

(** [lst.remove(x)]: drop the first element equal to [x]. *)
Fixpoint list_remove (x : json) (l : list json) : res (list json) :=
  match l with
  | [] => Raise ValueError
  | y :: r => if py_eq x y then Ok r else (r' <- list_remove x r ;; Ok (y :: r'))
  end.

(* ------------------------------------------------------------------ *)
(** ** Server and proxy state *)

(** [class Server]: the LSP-level state, and [connected], the value
    [is_connected()] returns when [dispatch] asks it.  The transport is
    outside the proxy's code: a child process that exits, or a socket that
    asyncio closes after a failed write, changes [is_connected()] with no
    statement of the proxy running; such a change between two events is
    [set_connected] on the state.  A change during the awaits of one
    [dispatch] of a client message is not modelled.  The [use_*] flags are
    the configured booleans. *)
Record Server := mkServer {
  pending_client_server_requests : pydict;
  pending_server_client_requests : pydict;
  is_primary : bool;
  initialize_msg : json;
  shutdown_received : bool;
  diagnostics : pydict;
  initialization_options : json;
  use_diagnostics : bool;
  use_formatting : bool;
  use_completion : bool;
  use_signature : bool;
  use_execute_command : bool;
  received_code_actions : pydict;
  supported_code_action_kinds : json;
  supported_commands : json;
  connected : bool
}.

(** [Server.__init__] followed by the configured fields. *)
Definition new_server (primary : bool) (options : json)
    (diag fmt compl sig cmd : bool) : Server :=
  mkServer [] [] primary JNull false [] options diag fmt compl sig cmd [] (JArr []) (JArr []) true.

Definition set_pending_cs (s : Server) (d : pydict) : Server :=
  mkServer d (pending_server_client_requests s) (is_primary s) (initialize_msg s)
    (shutdown_received s) (diagnostics s) (initialization_options s) (use_diagnostics s)
    (use_formatting s) (use_completion s) (use_signature s) (use_execute_command s)
    (received_code_actions s) (supported_code_action_kinds s) (supported_commands s)
    (connected s).

Definition set_pending_sc (s : Server) (d : pydict) : Server :=
  mkServer (pending_client_server_requests s) d (is_primary s) (initialize_msg s)
    (shutdown_received s) (diagnostics s) (initialization_options s) (use_diagnostics s)
    (use_formatting s) (use_completion s) (use_signature s) (use_execute_command s)
    (received_code_actions s) (supported_code_action_kinds s) (supported_commands s)
    (connected s).

Definition set_initialize_msg (s : Server) (m : json) : Server :=
  mkServer (pending_client_server_requests s) (pending_server_client_requests s)
    (is_primary s) m
    (shutdown_received s) (diagnostics s) (initialization_options s) (use_diagnostics s)
    (use_formatting s) (use_completion s) (use_signature s) (use_execute_command s)
    (received_code_actions s) (supported_code_action_kinds s) (supported_commands s)
    (connected s).

Definition set_shutdown_received (s : Server) (b : bool) : Server :=
  mkServer (pending_client_server_requests s) (pending_server_client_requests s)
    (is_primary s) (initialize_msg s)
    b (diagnostics s) (initialization_options s) (use_diagnostics s)
    (use_formatting s) (use_completion s) (use_signature s) (use_execute_command s)
    (received_code_actions s) (supported_code_action_kinds s) (supported_commands s)
    (connected s).

Definition set_diagnostics (s : Server) (d : pydict) : Server :=
  mkServer (pending_client_server_requests s) (pending_server_client_requests s)
    (is_primary s) (initialize_msg s)
    (shutdown_received s) d (initialization_options s) (use_diagnostics s)
    (use_formatting s) (use_completion s) (use_signature s) (use_execute_command s)
    (received_code_actions s) (supported_code_action_kinds s) (supported_commands s)
    (connected s).

Definition set_received_code_actions (s : Server) (d : pydict) : Server :=
  mkServer (pending_client_server_requests s) (pending_server_client_requests s)
    (is_primary s) (initialize_msg s)
    (shutdown_received s) (diagnostics s) (initialization_options s) (use_diagnostics s)
    (use_formatting s) (use_completion s) (use_signature s) (use_execute_command s)
    d (supported_code_action_kinds s) (supported_commands s)
    (connected s).

Definition set_supported_code_action_kinds (s : Server) (k : json) : Server :=
  mkServer (pending_client_server_requests s) (pending_server_client_requests s)
    (is_primary s) (initialize_msg s)
    (shutdown_received s) (diagnostics s) (initialization_options s) (use_diagnostics s)
    (use_formatting s) (use_completion s) (use_signature s) (use_execute_command s)
    (received_code_actions s) k (supported_commands s)
    (connected s).

Definition set_supported_commands (s : Server) (c : json) : Server :=
  mkServer (pending_client_server_requests s) (pending_server_client_requests s)
    (is_primary s) (initialize_msg s)
    (shutdown_received s) (diagnostics s) (initialization_options s) (use_diagnostics s)
    (use_formatting s) (use_completion s) (use_signature s) (use_execute_command s)
    (received_code_actions s) (supported_code_action_kinds s) c
    (connected s).


(** [class Proxy]. *)
Record Proxy := mkProxy {
  servers : list Server;
  initialize_id : json;
  shutdown_id : json;
  code_action_ids : list json
}.

Definition new_proxy (srvs : list Server) : Proxy :=
  mkProxy srvs (JInt (-1)) (JInt (-1)) [].

(** Server objects are compared by identity: a server is its position in
    [self.servers]. *)
Definition enumerate (l : list Server) : list (nat * Server) :=
  combine (seq 0 (length l)) l.

(** [self.servers[i] = s]. *)
Definition replace_server (p : Proxy) (i : nat) (s : Server) : Proxy :=
  mkProxy (firstn i (servers p) ++ s :: skipn (S i) (servers p))
    (initialize_id p) (shutdown_id p) (code_action_ids p).

(* ------------------------------------------------------------------ *)
(** ** Capabilities from the cached initialize response *)

Definition _get_capabilities (s : Server) : res json :=
  if py_truthy (initialize_msg s) then
    result <- safe_get (initialize_msg s) (u "result") ;;
    safe_get result (u "capabilities")
  else Ok JNull.

Definition get_formatting_capabilities (s : Server) : res (json * json) :=
  capabilities <- _get_capabilities s ;;
  if py_truthy capabilities then
    formatting <- safe_get capabilities (u "documentFormattingProvider") ;;
    range_formatting <- safe_get capabilities (u "documentRangeFormattingProvider") ;;
    Ok (formatting, range_formatting)
  else Ok (JNull, JNull).

Definition get_completion_capability (s : Server) : res json :=
  capabilities <- _get_capabilities s ;;
  if py_truthy capabilities then safe_get capabilities (u "completionProvider")
  else Ok JNull.

Definition get_signature_capability (s : Server) : res json :=
  capabilities <- _get_capabilities s ;;
  if py_truthy capabilities then safe_get capabilities (u "signatureHelpProvider")
  else Ok JNull.

Definition get_code_action_capability (s : Server) : res json :=
  capabilities <- _get_capabilities s ;;
  if py_truthy capabilities then safe_get capabilities (u "codeActionProvider")
  else Ok JNull.

Definition get_execute_command_capability (s : Server) (command : json) : res bool :=
  capabilities <- _get_capabilities s ;;
  if py_truthy capabilities then
    provider <- safe_get capabilities (u "executeCommandProvider") ;;
    if py_truthy provider then
      cmds <- py_getitem provider (u "commands") ;;
      py_in command cmds
    else Ok false
  else Ok false.

(* ------------------------------------------------------------------ *)
(** ** Feature-owner selection *)

(** The loop of [get_server_generic]; [first_found] is the loop variable.
    [srv_condition] is evaluated only where Python's [and] evaluates it. *)
Fixpoint get_server_generic_loop {A} (config_condition : A -> bool)
    (srv_condition : A -> res bool) (first_found : option A) (srvs : list A)
    : res (option A) :=
  match srvs with
  | [] => Ok first_found
  | srv :: rest =>
      first_found' <-
        (match first_found with
         | None => c <- srv_condition srv ;; Ok (if c then Some srv else None)
         | Some f => Ok (Some f)
         end) ;;
      if config_condition srv then
        c <- srv_condition srv ;;
        if c then Ok (Some srv)
        else get_server_generic_loop config_condition srv_condition first_found' rest
      else get_server_generic_loop config_condition srv_condition first_found' rest
  end.

Definition get_server_generic {A} (config_condition : A -> bool)
    (srv_condition : A -> res bool) (srvs : list A) : res (option A) :=
  get_server_generic_loop config_condition srv_condition None srvs.

Definition get_formatting_server (p : Proxy) : res (option (nat * Server)) :=
  get_server_generic (fun s => use_formatting (snd s))
    (fun s => fr <- get_formatting_capabilities (snd s) ;;
              Ok (py_truthy (fst fr) || py_truthy (snd fr)))
    (enumerate (servers p)).

Definition get_completion_server (p : Proxy) : res (option (nat * Server)) :=
  get_server_generic (fun s => use_completion (snd s))
    (fun s => c <- get_completion_capability (snd s) ;; Ok (py_truthy c))
    (enumerate (servers p)).

Definition get_signature_server (p : Proxy) : res (option (nat * Server)) :=
  get_server_generic (fun s => use_signature (snd s))
    (fun s => c <- get_signature_capability (snd s) ;; Ok (py_truthy c))
    (enumerate (servers p)).

Definition get_command_server (p : Proxy) (command : json) : res (option (nat * Server)) :=
  get_server_generic (fun s => use_execute_command (snd s))
    (fun s => get_execute_command_capability (snd s) command)
    (enumerate (servers p)).

Definition get_primary (p : Proxy) : res Server :=
  match servers p with
  | [] => Raise IndexError
  | s0 :: _ => Ok (match find is_primary (servers p) with Some s => s | None => s0 end)
  end.

Definition all_initialized (p : Proxy) : bool :=
  forallb (fun s => py_truthy (initialize_msg s)) (servers p).

Definition all_shutdown (p : Proxy) : bool :=
  forallb shutdown_received (servers p).

(* ------------------------------------------------------------------ *)
(** ** Operations that depend on [set] iteration order *)

Section Proxy_ops.

(** [list(set(xs))]: CPython's [set] iteration order for [str] depends on
    the hash seed, so the order is a parameter of the development. *)
Variable py_set_list : list json -> list json.

Definition py_list_set (xs : list json) : res (list json) :=
  if forallb hashable xs then Ok (py_set_list xs) else Raise TypeError.

(** The [for srv in self.servers] loop of [get_initialization_options]:
    the updated servers, [code_action_kinds], [commands] and
    [supports_code_action]. *)
Fixpoint collect_code_actions_commands (srvs : list Server)
    (code_action_kinds commands : list json) (supports_code_action : bool)
    : res (list Server * list json * list json * bool) :=
  match srvs with
  | [] => Ok ([], code_action_kinds, commands, supports_code_action)
  | srv :: rest =>
      r <- py_getitem (initialize_msg srv) (u "result") ;;
      srv_capabilities <- py_getitem r (u "capabilities") ;;
      provider <- safe_get srv_capabilities (u "codeActionProvider") ;;
      st1 <-
        (if py_truthy provider then
           has_kinds <-
             (match provider with
              | JObj _ => py_in (JStr (u "codeActionKinds")) provider
              | _ => Ok false
              end) ;;
           if has_kinds then
             kinds <- py_getitem provider (u "codeActionKinds") ;;
             it <- py_iter kinds ;;
             Ok (set_supported_code_action_kinds srv kinds, code_action_kinds ++ it, true)
           else Ok (srv, code_action_kinds, true)
         else Ok (srv, code_action_kinds, supports_code_action)) ;;
      let '(srv1, code_action_kinds1, supports1) := st1 in
      provider2 <- safe_get srv_capabilities (u "executeCommandProvider") ;;
      st2 <-
        (if py_truthy provider2 then
           has_commands <- py_in (JStr (u "commands")) provider2 ;;
           if has_commands then
             cmds <- py_getitem provider2 (u "commands") ;;
             it <- py_iter cmds ;;
             Ok (set_supported_commands srv1 cmds, commands ++ it)
           else Ok (srv1, commands)
         else Ok (srv1, commands)) ;;
      let '(srv2, commands1) := st2 in
      st3 <- collect_code_actions_commands rest code_action_kinds1 commands1 supports1 ;;
      let '(rest', k, c, sup) := st3 in
      Ok (srv2 :: rest', k, c, sup)
  end.

(** [Proxy.get_initialization_options]: the synthesized initialize response
    and the proxy with the servers' [supported_*] fields updated.  The deep
    copy is the value [initialize_msg] of the primary; the in-place updates
    of [result] and [capabilities] are written back into it. *)
Definition get_initialization_options (p : Proxy) : res (json * Proxy) :=
  primary <- get_primary p ;;
  let msg := initialize_msg primary in
  result <- py_getitem msg (u "result") ;;
  result <- py_setitem result (u "serverInfo") (JObj []) ;;
  server_info <- py_getitem result (u "serverInfo") ;;
  server_info <- py_setitem server_info (u "name") (JStr (u "lsp-proxy")) ;;
  result <- py_setitem result (u "serverInfo") server_info ;;
  server_info <- py_getitem result (u "serverInfo") ;;
  server_info <- py_setitem server_info (u "version") (JStr (u "0.1")) ;;
  result <- py_setitem result (u "serverInfo") server_info ;;
  capabilities <- py_getitem result (u "capabilities") ;;
  fmt_srv <- get_formatting_server p ;;
  capabilities <-
    (match fmt_srv with
     | Some (_, fs) =>
         fr <- get_formatting_capabilities fs ;;
         c <- py_setitem capabilities (u "documentFormattingProvider") (fst fr) ;;
         py_setitem c (u "documentRangeFormattingProvider") (snd fr)
     | None => Ok capabilities
     end) ;;
  completion_srv <- get_completion_server p ;;
  capabilities <-
    (match completion_srv with
     | Some (_, cs) =>
         completion <- get_completion_capability cs ;;
         py_setitem capabilities (u "completionProvider") completion
     | None => Ok capabilities
     end) ;;
  signature_srv <- get_signature_server p ;;
  capabilities <-
    (match signature_srv with
     | Some (_, ss) =>
         signature <- get_signature_capability ss ;;
         py_setitem capabilities (u "signatureHelpProvider") signature
     | None => Ok capabilities
     end) ;;
  st <- collect_code_actions_commands (servers p) [] [] false ;;
  let '(srvs', code_action_kinds, commands, supports_code_action) := st in
  capabilities <-
    (if supports_code_action then
       c <- py_setitem capabilities (u "codeActionProvider") (JObj []) ;;
       kinds <- py_list_set code_action_kinds ;;
       cap <- py_getitem c (u "codeActionProvider") ;;
       cap <- py_setitem cap (u "codeActionKinds") (JArr kinds) ;;
       py_setitem c (u "codeActionProvider") cap
     else Ok capabilities) ;;
  capabilities <-
    (if Nat.ltb 0 (List.length commands) then
       c <- py_setitem capabilities (u "executeCommandProvider") (JObj []) ;;
       cmds <- py_list_set commands ;;
       cap <- py_getitem c (u "executeCommandProvider") ;;
       cap <- py_setitem cap (u "commands") (JArr cmds) ;;
       py_setitem c (u "executeCommandProvider") cap
     else Ok capabilities) ;;
  result <- py_setitem result (u "capabilities") capabilities ;;
  msg <- py_setitem msg (u "result") result ;;
  Ok (msg, mkProxy srvs' (initialize_id p) (shutdown_id p) (code_action_ids p)).


Definition preserved_requests : list ustr :=
  map u ["initialize"; "shutdown";
    "window/showMessageRequest"; "window/showDocument";
    "workspace/workspaceFolders"; "workspace/applyEdit";
    "textDocument/formatting"; "textDocument/rangeFormatting";
    "textDocument/completion"; "completionItem/resolve";
    "textDocument/signatureHelp";
    "textDocument/codeAction";
    "workspace/executeCommand"]%string.

Definition preserved_client_server_notifications : list ustr :=
  map u ["initialized"; "exit";
    "textDocument/didOpen"; "textDocument/didChange"; "textDocument/didSave";
    "textDocument/didClose";
    "workspace/didChangeWorkspaceFolders"; "workspace/didChangeConfiguration"]%string.

Definition preserved_server_client_notifications : list ustr :=
  map u ["textDocument/publishDiagnostics";
    "window/showMessage"; "window/logMessage"]%string.

(** [method in lst] for a list of [str] literals. *)
Definition method_in (method : json) (lst : list ustr) : bool :=
  existsb (fun m => py_eq method (JStr m)) lst.

Definition filter_msg (method : json) (primary : bool) (preserved_methods : list ustr) : bool :=
  if primary then false else negb (method_in method preserved_methods).

Definition get_merged_diagnostics (p : Proxy) (uri : json) : res (list json) :=
  fold_left
    (fun acc srv =>
       diags <- acc ;;
       if use_diagnostics srv then
         b <- d_in uri (diagnostics srv) ;;
         if b then
           v <- d_get uri (diagnostics srv) ;;
           it <- py_iter v ;;
           Ok (diags ++ it)
         else Ok diags
       else Ok diags)
    (servers p) (Ok []).

Definition get_server (p : Proxy) (i : nat) : res Server :=
  match nth_error (servers p) i with Some s => Ok s | None => Raise IndexError end.

(** [srv != owner] for server objects compared by identity. *)
Definition is_owner (i : nat) (owner : option (nat * Server)) : bool :=
  match owner with Some (j, _) => Nat.eqb i j | None => false end.

(** The merge loop of the code-action branch: the items appended to
    [result] and the servers with their entries for [iden] removed. *)
Fixpoint merge_code_actions (iden : json) (srvs : list Server) (result : list json)
    : res (list json * list Server) :=
  match srvs with
  | [] => Ok (result, [])
  | s :: rest =>
      srv_result <- d_get iden (received_code_actions s) ;;
      st <-
        (if py_truthy srv_result then
           it <- py_iter srv_result ;;
           rca <- d_del iden (received_code_actions s) ;;
           Ok (result ++ it, set_received_code_actions s rca)
         else Ok (result, s)) ;;
      let '(result1, s1) := st in
      st2 <- merge_code_actions iden rest result1 ;;
      let '(result2, rest') := st2 in
      Ok (result2, s1 :: rest')
  end.

(** The [if should_send:] tail of [process]: the publishDiagnostics rewrite
    (from a server) and the message written. *)
Definition send_phase (p : Proxy) (i : nat) (msg : json) (from_server : bool)
    (method : json) : res (Proxy * json) :=
  if from_server && py_eq method (JStr (u "textDocument/publishDiagnostics")) then
    params <- py_getitem msg (u "params") ;;
    uri <- py_getitem params (u "uri") ;;
    diags <- py_getitem params (u "diagnostics") ;;
    srv <- get_server p i ;;
    d <- d_set uri diags (diagnostics srv) ;;
    let p := replace_server p i (set_diagnostics srv d) in
    merged <- get_merged_diagnostics p uri ;;
    params <- py_getitem msg (u "params") ;;
    params <- py_setitem params (u "diagnostics") (JArr merged) ;;
    msg <- py_setitem msg (u "params") params ;;
    Ok (p, msg)
  else Ok (p, msg).

(** Substitution of [initializationOptions] / [settings] by the server's
    configured options. *)
Definition substitute_options (srv : Server) (msg : json) (key : ustr) : res json :=
  params <- py_getitem msg (u "params") ;;
  if py_truthy (initialization_options srv) then
    params <- py_setitem params key (initialization_options srv) ;;
    py_setitem msg (u "params") params
  else if negb (is_primary srv) then
    params <- py_setitem params key JNull ;;
    py_setitem msg (u "params") params
  else Ok msg.

Definition set_initialize_id (p : Proxy) (i : json) : Proxy :=
  mkProxy (servers p) i (shutdown_id p) (code_action_ids p).
Definition set_shutdown_id (p : Proxy) (i : json) : Proxy :=
  mkProxy (servers p) (initialize_id p) i (code_action_ids p).
Definition set_code_action_ids (p : Proxy) (l : list json) : Proxy :=
  mkProxy (servers p) (initialize_id p) (shutdown_id p) l.

(** The special cases of [process] for a message from a server. *)
Definition from_server_cases (p : Proxy) (i : nat) (msg iden : json) (should_send : bool)
    : res (Proxy * json * bool) :=
  has_result <- py_in (JStr (u "result")) msg ;;
  if has_result then
    if py_eq iden (initialize_id p) then
      srv <- get_server p i ;;
      let p := replace_server p i (set_initialize_msg srv msg) in
      let should_send := all_initialized p in
      if should_send then
        r <- get_initialization_options p ;;
        let '(msg, p) := r in
        Ok (p, msg, true)
      else Ok (p, msg, false)
    else if py_eq iden (shutdown_id p) then
      srv <- get_server p i ;;
      let p := replace_server p i (set_shutdown_received srv true) in
      Ok (p, msg, all_shutdown p)
    else if existsb (py_eq iden) (code_action_ids p) then
      ids <- list_remove iden (code_action_ids p) ;;
      let p := set_code_action_ids p ids in
      srv <- get_server p i ;;
      r <- py_getitem msg (u "result") ;;
      rca <- d_set iden r (received_code_actions srv) ;;
      let p := replace_server p i (set_received_code_actions srv rca) in
      let should_send := negb (existsb (py_eq iden) ids) in
      if should_send then
        msg <- py_setitem msg (u "result") (JArr []) ;;
        m <- merge_code_actions iden (servers p) [] ;;
        let '(result, srvs) := m in
        msg <- py_setitem msg (u "result") (JArr result) ;;
        Ok (mkProxy srvs (initialize_id p) (shutdown_id p) (code_action_ids p), msg, true)
      else Ok (p, msg, false)
    else Ok (p, msg, should_send)
  else Ok (p, msg, should_send).

(** The special cases of [process] for a message from the client. *)
Definition from_client_cases (p : Proxy) (i : nat) (msg method iden : json) (should_send : bool)
    : res (Proxy * json * bool) :=
  srv <- get_server p i ;;
  if py_eq method (JStr (u "initialize")) then
    _ <- py_getitem msg (u "params") ;;
    let p := set_initialize_id p iden in
    msg <- substitute_options srv msg (u "initializationOptions") ;;
    Ok (p, msg, should_send)
  else if py_eq method (JStr (u "workspace/didChangeConfiguration")) then
    _ <- py_getitem msg (u "params") ;;
    msg <- substitute_options srv msg (u "settings") ;;
    Ok (p, msg, should_send)
  else if py_eq method (JStr (u "shutdown")) then
    Ok (set_shutdown_id p iden, msg, should_send)
  else if method_in method (map u ["textDocument/formatting"; "textDocument/rangeFormatting"]%string) then
    owner <- get_formatting_server p ;;
    Ok (p, msg, should_send && is_owner i owner)
  else if method_in method (map u ["textDocument/completion"; "completionItem/resolve"]%string) then
    owner <- get_completion_server p ;;
    Ok (p, msg, should_send && is_owner i owner)
  else if py_eq method (JStr (u "textDocument/signatureHelp")) then
    owner <- get_signature_server p ;;
    Ok (p, msg, should_send && is_owner i owner)
  else if py_eq method (JStr (u "textDocument/codeAction")) then
    cap <- get_code_action_capability srv ;;
    let should_send := should_send && py_truthy cap in
    if should_send then Ok (set_code_action_ids p (code_action_ids p ++ [iden]), msg, true)
    else Ok (p, msg, false)
  else if py_eq method (JStr (u "workspace/executeCommand")) then
    params <- py_getitem msg (u "params") ;;
    cmd <- py_getitem params (u "command") ;;
    owner <- get_command_server p cmd ;;
    Ok (p, msg, should_send && is_owner i owner)
  else Ok (p, msg, should_send).

(** [Proxy.process] for server [i]: the new proxy state, the value of the
    local [msg] at the end (for a client message this is the shared message
    object, with the substitutions made for this server), and the message
    written to [writer], if any. *)
Definition process (p : Proxy) (i : nat) (msg : json) (from_server : bool)
    (preserved_methods : list ustr) : res (Proxy * json * option json) :=
  srv <- get_server p i ;;
  method <- safe_get msg (u "method") ;;
  iden <- safe_get msg (u "id") ;;
  let pending := if from_server then pending_client_server_requests srv
                 else pending_server_client_requests srv in
  found <- d_in iden pending ;;
  st <-
    (if found then
       m <- d_get iden pending ;;
       pending <- d_del iden pending ;;
       Ok (true, m, if from_server then set_pending_cs srv pending else set_pending_sc srv pending)
     else if negb (filter_msg method (is_primary srv) preserved_methods) then
       if py_truthy method && py_truthy iden then
         let other := if from_server then pending_server_client_requests srv
                      else pending_client_server_requests srv in
         other <- d_set iden method other ;;
         Ok (true, method, if from_server then set_pending_sc srv other else set_pending_cs srv other)
       else Ok (true, method, srv)
     else Ok (false, method, srv)) ;;
  let '(should_send, method, srv) := st in
  let p := replace_server p i srv in
  st2 <- (if from_server then from_server_cases p i msg iden should_send
          else from_client_cases p i msg method iden should_send) ;;
  let '(p, msg, should_send) := st2 in
  if should_send then
    st3 <- send_phase p i msg from_server method ;;
    let '(p, msg) := st3 in
    Ok (p, msg, Some msg)
  else Ok (p, msg, None).

(** Where a written message goes. *)
Inductive peer := Client | ToServer (i : nat).

(** [Proxy.dispatch]: a message from server [Some i] or from the client
    ([None]); the messages written, in order. *)
Definition dispatch (p : Proxy) (msg : json) (origin : option nat)
    : res (Proxy * list (peer * json)) :=
  match origin with
  | Some i =>
      r <- process p i msg true (preserved_requests ++ preserved_server_client_notifications) ;;
      let '(p, _, out) := r in
      Ok (p, match out with Some m => [(Client, m)] | None => [] end)
  | None =>
      st <- fold_left
        (fun acc i =>
           st <- acc ;;
           let '(p, msg, outs) := st in
           match nth_error (servers p) i with
           | Some srv =>
               if connected srv then
                 r <- process p i msg false
                        (preserved_requests ++ preserved_client_server_notifications) ;;
                 let '(p, msg, out) := r in
                 Ok (p, msg, outs ++ match out with Some m => [(ToServer i, m)] | None => [] end)
               else Ok (p, msg, outs)
           | None => Ok (p, msg, outs)
           end)
        (seq 0 (List.length (servers p))) (Ok (p, msg, [])) ;;
      let '(p, _, outs) := st in Ok (p, outs)
  end.

End Proxy_ops.

(* ------------------------------------------------------------------ *)
(** ** Building concrete values *)

Definition js (s : string) : json := JStr (u s).
Definition jo (kvs : list (string * json)) : json :=
  JObj (map (fun kv => (u (fst kv), snd kv)) kvs).

(** One [set] order: first occurrences, in list order. *)
Fixpoint dedup_first (l : list json) : list json :=
  match l with
  | [] => []
  | x :: r => x :: filter (fun y => negb (py_eq x y)) (dedup_first r)
  end.

(** A run of the dispatcher over a sequence of incoming messages. *)
Fixpoint run (set_list : list json -> list json) (p : Proxy)
    (events : list (option nat * json)) : res (Proxy * list (peer * json)) :=
  match events with
  | [] => Ok (p, [])
  | (origin, m) :: rest =>
      r <- dispatch set_list p m origin ;;
      let '(p1, out1) := r in
      r2 <- run set_list p1 rest ;;
      let '(p2, out2) := r2 in
      Ok (p2, out1 ++ out2)
  end.

(* ------------------------------------------------------------------ *)
(** ** Configuration: [load_config] *)

(** The transport of a configured server:
    [StdioServer(cmd, args, is_primary)] or
    [SocketServer(host, port, is_primary)]. *)
Inductive transport :=
| StdioServer (cmd args : json)
| SocketServer (host port : json).

(** [isinstance(x, list)]. *)
Definition is_list (x : json) : bool :=
  match x with JArr _ => true | _ => false end.

(** [isinstance(x, int)]: [bool] is a subclass of [int]. *)
Definition is_int (x : json) : bool :=
  match x with JInt _ | JBool _ => true | _ => false end.

(** [if key in srv_cfg: value = srv_cfg[key]], [value] being [default]
    before. *)
Definition cfg_get (srv_cfg : json) (key : string) (default : json) : res json :=
  b <- py_in (JStr (u key)) srv_cfg ;;
  if b then py_getitem srv_cfg (u key) else Ok default.

(** [cfg_get] on a dict: the value of [key], else [default]. *)
Definition obj_get_or (m : list (ustr * json)) (key : string) (default : json) : json :=
  match obj_lookup (u key) m with Some v => v | None => default end.

(** One iteration of the [for srv_cfg in cfg] loop of [load_config]: the
    transport and the server.  The [use_*] attributes are stored as Python
    read them, by truthiness (every use of them is an [if] or an [and]);
    [connected] is the state after a successful [connect()]. *)
Definition load_server (srv_cfg : json) (is_primary : bool) : res (transport * Server) :=
  has_cmd <- py_in (JStr (u "cmd")) srv_cfg ;;
  tr <-
    (if has_cmd then
       has_args <- py_in (JStr (u "args")) srv_cfg ;;
       args <-
         (if has_args then
            args <- py_getitem srv_cfg (u "args") ;;
            if is_list args then Ok args else Raise ValueError
          else Ok (JArr [])) ;;
       cmd <- py_getitem srv_cfg (u "cmd") ;;
       Ok (StdioServer cmd args)
     else
       has_port <- py_in (JStr (u "port")) srv_cfg ;;
       if has_port then
         port <- py_getitem srv_cfg (u "port") ;;
         if is_int port then
           host <- cfg_get srv_cfg "host" (JStr (u "127.0.0.1")) ;;
           Ok (SocketServer host port)
         else Raise ValueError
       else Raise ValueError) ;;
  options <- cfg_get srv_cfg "initializationOptions" JNull ;;
  diag <- cfg_get srv_cfg "useDiagnostics" (JBool true) ;;
  fmt <- cfg_get srv_cfg "useFormatting" (JBool false) ;;
  compl <- cfg_get srv_cfg "useCompletion" (JBool false) ;;
  sig <- cfg_get srv_cfg "useSignatureHelp" (JBool false) ;;
  cmd <- cfg_get srv_cfg "useExecuteCommand" (JBool false) ;;
  Ok (tr, new_server is_primary options (py_truthy diag) (py_truthy fmt)
            (py_truthy compl) (py_truthy sig) (py_truthy cmd)).

Fixpoint load_config_loop (cfgs : list json) (is_primary : bool)
    : res (list (transport * Server)) :=
  match cfgs with
  | [] => Ok []
  | srv_cfg :: rest =>
      srv <- load_server srv_cfg is_primary ;;
      srvs <- load_config_loop rest false ;;
      Ok (srv :: srvs)
  end.

(** [load_config(cfg)] on the value [json.loads] gave for the file. *)
Definition load_config (cfg : json) : res (list (transport * Server)) :=
  cfgs <- py_iter cfg ;;
  load_config_loop cfgs true.

(** The part of a server fixed by [load_config], with [connected]. *)
Definition server_config (s : Server) :=
  (is_primary s, initialization_options s,
   (use_diagnostics s, use_formatting s, use_completion s, use_signature s,
    use_execute_command s),
   connected s).

(** The part of a server fixed by [load_config]: primary flag,
    [initializationOptions] and the [use_*] flags. *)
Definition server_settings (s : Server) :=
  (is_primary s, initialization_options s,
   (use_diagnostics s, use_formatting s, use_completion s, use_signature s,
    use_execute_command s)).

(* ------------------------------------------------------------------ *)
(** ** Framing: [json.dumps], [json.loads], [construct_message],
       [read_message] *)

(** A [bytes] object: its byte values, each in [0, 255]. *)
Definition bytes := list Z.

Section Framer.
Local Open Scope Z_scope.

Definition is_digit (c : Z) : bool := (48 <=? c) && (c <=? 57).

(** Decimal digits of a non-negative integer, most significant first. *)
Fixpoint digits_loop (fuel : nat) (n : Z) (acc : list Z) : list Z :=
  match fuel with
  | O => acc
  | S f =>
      let acc := (48 + n mod 10) :: acc in
      if n / 10 =? 0 then acc else digits_loop f (n / 10) acc
  end.

Definition decimal (n : Z) : list Z :=
  match n with
  | Zpos p => digits_loop (Pos.size_nat p) n []
  | _ => [48]
  end.

(** [int.__repr__]; CPython refuses more than 4300 digits. *)
Definition int_repr (z : Z) : res ustr :=
  let ds := decimal (Z.abs z) in
  if Nat.ltb 4300 (List.length ds) then Raise ValueError
  else Ok (if z <? 0 then 45 :: ds else ds).

Definition hex_digit (d : Z) : Z := if d <? 10 then 48 + d else 87 + d.

(** ['{0:04x}'.format(c)] for [c < 0x10000]. *)
Definition hex4 (c : Z) : list Z :=
  [hex_digit (Z.shiftr c 12 mod 16); hex_digit (Z.shiftr c 8 mod 16);
   hex_digit (Z.shiftr c 4 mod 16); hex_digit (c mod 16)].

(** One code point escaped by [json.dumps] with [ensure_ascii=True]. *)
Definition escape_char (c : Z) : list Z :=
  if c =? 92 then [92; 92]
  else if c =? 34 then [92; 34]
  else if c =? 8 then [92; 98]
  else if c =? 12 then [92; 102]
  else if c =? 10 then [92; 110]
  else if c =? 13 then [92; 114]
  else if c =? 9 then [92; 116]
  else if (32 <=? c) && (c <=? 126) then [c]
  else if c <? 65536 then 92 :: 117 :: hex4 c
  else
    let n := c - 65536 in
    92 :: 117 :: hex4 (Z.lor 55296 (Z.land (Z.shiftr n 10) 1023))
      ++ 92 :: 117 :: hex4 (Z.lor 56320 (Z.land n 1023)).

Definition encode_str (s : ustr) : list Z := 34 :: concat (map escape_char s) ++ [34].

(** [', '.join(parts)]. *)
Fixpoint join_comma (parts : list (list Z)) : list Z :=
  match parts with
  | [] => []
  | [x] => x
  | x :: r => x ++ 44 :: 32 :: join_comma r
  end.

(** The text [json.dumps] produces (default separators, [ensure_ascii]). *)
Fixpoint encode_json (v : json) : list Z :=
  match v with
  | JNull => [110; 117; 108; 108]
  | JBool true => [116; 114; 117; 101]
  | JBool false => [102; 97; 108; 115; 101]
  | JInt z => (if z <? 0 then [45] else []) ++ decimal (Z.abs z)
  | JStr s => encode_str s
  | JArr l => 91 :: join_comma (map encode_json l) ++ [93]
  | JObj m => 123 :: join_comma (map (fun kv => encode_str (fst kv) ++ 58 :: 32 :: encode_json (snd kv)) m) ++ [125]
  end.

(** Every [int] of a value has at most 4300 digits. *)
Fixpoint ints_ok (v : json) : bool :=
  match v with
  | JInt z => Nat.leb (List.length (decimal (Z.abs z))) 4300
  | JArr l => forallb ints_ok l
  | JObj m => forallb (fun kv => ints_ok (snd kv)) m
  | _ => true
  end.

(** Nesting depth: the number of lists and dicts on the deepest path,
    empty ones included. *)
Fixpoint json_depth (v : json) : nat :=
  match v with
  | JArr l => S (list_max (map json_depth l))
  | JObj m => S (list_max (map (fun kv => json_depth (snd kv)) m))
  | _ => O
  end.

(** The exceptions of the C encoder ([encoder_listencode_obj]) in the
    order it meets them: [_Py_EnterRecursiveCall] raises [RecursionError]
    on entering a list or dict when [depth] levels are used up (the check
    comes before the empty-container case), and [int.__repr__] raises
    [ValueError] on an [int] of more than 4300 digits. *)
Fixpoint dumps_check (depth : nat) (v : json) {struct v} : res unit :=
  match v with
  | JInt z => match int_repr z with Ok _ => Ok tt | Raise e => Raise e end
  | JArr l =>
      match depth with
      | O => Raise RecursionError
      | S d =>
          (fix items (l : list json) : res unit :=
             match l with
             | [] => Ok tt
             | x :: r => match dumps_check d x with Ok _ => items r | Raise e => Raise e end
             end) l
      end
  | JObj m =>
      match depth with
      | O => Raise RecursionError
      | S d =>
          (fix items (m : list (ustr * json)) : res unit :=
             match m with
             | [] => Ok tt
             | kv :: r => match dumps_check d (snd kv) with Ok _ => items r | Raise e => Raise e end
             end) m
      end
  | _ => Ok tt
  end.

(** How many nested lists and dicts [json.dumps] can enter: what is left
    of the interpreter's recursion limit when [construct_message] calls
    it, which depends on the Python version and on the calling stack. *)
Variable dumps_depth : nat.

(** [json.dumps(msg)]: the text of [encode_json], unless the encoder
    raises. *)
Definition json_dumps (v : json) : res ustr :=
  match dumps_check dumps_depth v with
  | Ok _ => Ok (encode_json v)
  | Raise e => Raise e
  end.

(** [str.encode('utf-8')]: a lone surrogate cannot be encoded. *)
Definition utf8_encode_char (c : Z) : res (list Z) :=
  if c <? 128 then Ok [c]
  else if c <? 2048 then Ok [192 + Z.shiftr c 6; 128 + c mod 64]
  else if (55296 <=? c) && (c <=? 57343) then Raise ValueError
  else if c <? 65536 then Ok [224 + Z.shiftr c 12; 128 + Z.shiftr c 6 mod 64; 128 + c mod 64]
  else Ok [240 + Z.shiftr c 18; 128 + Z.shiftr c 12 mod 64; 128 + Z.shiftr c 6 mod 64; 128 + c mod 64].

Fixpoint utf8_encode (s : ustr) : res bytes :=
  match s with
  | [] => Ok []
  | c :: r => b <- utf8_encode_char c ;; rest <- utf8_encode r ;; Ok (b ++ rest)
  end.

Definition crlf2 : bytes := [13; 10; 13; 10].

(** [Proxy.construct_message]. *)
Definition construct_message (msg : json) : res bytes :=
  s <- json_dumps msg ;;
  msg_str <- utf8_encode s ;;
  Ok (u "Content-Length: " ++ decimal (Z.of_nat (List.length msg_str)) ++ crlf2 ++ msg_str).

(** *** [json.loads] (CPython's C scanner) *)

Definition is_ws (c : Z) : bool := (c =? 32) || (c =? 9) || (c =? 10) || (c =? 13).

Fixpoint skip_ws (s : ustr) : ustr :=
  match s with
  | c :: r => if is_ws c then skip_ws r else s
  | [] => []
  end.

Definition hex_val (c : Z) : option Z :=
  if (48 <=? c) && (c <=? 57) then Some (c - 48)
  else if (97 <=? c) && (c <=? 102) then Some (c - 87)
  else if (65 <=? c) && (c <=? 70) then Some (c - 55)
  else None.

Definition hex4_val (s : list Z) : option Z :=
  match s with
  | [a; b; c; d] =>
      match hex_val a, hex_val b, hex_val c, hex_val d with
      | Some a, Some b, Some c, Some d => Some (((a * 16 + b) * 16 + c) * 16 + d)
      | _, _, _, _ => None
      end
  | _ => None
  end.

Definition is_high (c : Z) : bool := (55296 <=? c) && (c <=? 56319).
Definition is_low (c : Z) : bool := (56320 <=? c) && (c <=? 57343).
Definition join_surrogates (h l : Z) : Z := 65536 + Z.shiftl (h - 55296) 10 + (l - 56320).

Definition simple_escape (e : Z) : option Z :=
  if e =? 34 then Some 34
  else if e =? 92 then Some 92
  else if e =? 47 then Some 47
  else if e =? 98 then Some 8
  else if e =? 102 then Some 12
  else if e =? 110 then Some 10
  else if e =? 114 then Some 13
  else if e =? 116 then Some 9
  else None.

(** [scanstring_unicode] from just after the opening quote: the decoded
    string and the input after the closing quote; [None] is a
    [JSONDecodeError].  The length tests are those of the C code on the
    remaining input. *)
Fixpoint scan_string (fuel : nat) (s : ustr) (acc : ustr) : option (ustr * ustr) :=
  match fuel with
  | O => None
  | S f =>
      match s with
      | [] => None
      | c :: r =>
          if c =? 34 then Some (acc, r)
          else if c =? 92 then
            match r with
            | [] => None
            | e :: r' =>
                if e =? 117 then
                  if Nat.leb (List.length r') 4 then None
                  else
                    match hex4_val (firstn 4 r') with
                    | None => None
                    | Some v =>
                        let r2 := skipn 4 r' in
                        if is_high v && Nat.ltb 6 (List.length r2) then
                          match r2 with
                          | 92 :: 117 :: r3 =>
                              match hex4_val (firstn 4 r3) with
                              | None => None
                              | Some v2 =>
                                  if is_low v2 then scan_string f (skipn 4 r3) (acc ++ [join_surrogates v v2])
                                  else scan_string f r2 (acc ++ [v])
                              end
                          | _ => scan_string f r2 (acc ++ [v])
                          end
                        else scan_string f r2 (acc ++ [v])
                    end
                else
                  match simple_escape e with
                  | Some c' => scan_string f r' (acc ++ [c'])
                  | None => None
                  end
            end
          else if c <=? 31 then None
          else scan_string f r (acc ++ [c])
      end
  end.

(** Result of scanning one value: the value ([JNull] stands for a [float],
    which this development does not represent, and the flag records that
    one occurred) and the rest of the input; [PErr] is a
    [JSONDecodeError] or a [ValueError], [PRecursion] a [RecursionError]. *)
Inductive presult :=
| POk (v : json) (has_float : bool) (rest : ustr)
| PErr
| PRecursion.

Fixpoint digits_value (ds : list Z) (acc : Z) : Z :=
  match ds with
  | [] => acc
  | d :: r => digits_value r (acc * 10 + (d - 48))
  end.

Fixpoint span_digits (s : ustr) : list Z * ustr :=
  match s with
  | c :: r => if is_digit c then let '(ds, r') := span_digits r in (c :: ds, r') else ([], s)
  | [] => ([], [])
  end.

(** [_match_number_unicode]. *)
Definition match_number (s : ustr) : presult :=
  let '(neg, s1) := match s with 45 :: r => (true, r) | _ => (false, s) end in
  let int_part :=
    match s1 with
    | d :: r =>
        if (49 <=? d) && (d <=? 57) then let '(ds, r2) := span_digits r in Some (d :: ds, r2)
        else if d =? 48 then Some ([48], r)
        else None
    | [] => None
    end in
  match int_part with
  | None => PErr
  | Some (ds, r) =>
      let '(is_float1, r) :=
        match r with
        | 46 :: d :: _ => if is_digit d then (true, snd (span_digits (skipn 1 r))) else (false, r)
        | _ => (false, r)
        end in
      let '(is_float2, r) :=
        match r with
        | e :: (_ :: _) as r1 =>
            if (e =? 101) || (e =? 69) then
              let r1' := match r1 with
                         | sg :: (_ :: _) as r1'' => if (sg =? 45) || (sg =? 43) then r1'' else r1
                         | _ => r1
                         end in
              let '(eds, r3) := span_digits r1' in
              match eds with [] => (false, r) | _ => (true, r3) end
            else (false, r)
        | _ => (false, r)
        end in
      if is_float1 || is_float2 then POk JNull true r
      else if Nat.ltb 4300 (List.length ds) then PErr
      else POk (JInt (if neg then - digits_value ds 0 else digits_value ds 0)) false r
  end.

Definition starts_with (p s : list Z) : bool := ustr_prefixb p s.

(** [scan_once_unicode] and the array and object loops; [fuel] bounds the
    nesting of calls, and [json_loads] gives more than the input length.
    [depth] is how many more lists and dicts [_Py_EnterRecursiveCall]
    lets the scanner enter; it checks before parsing the container. *)
Fixpoint scan_once (fuel depth : nat) (s : ustr) {struct fuel} : presult :=
  match fuel with
  | O => PErr
  | S f =>
      match s with
      | [] => PErr
      | c :: r =>
          if c =? 34 then
            match scan_string (S (List.length r)) r [] with
            | Some (str, r') => POk (JStr str) false r'
            | None => PErr
            end
          else if c =? 123 then
            match depth with
            | O => PRecursion
            | S d =>
                match skip_ws r with
                | 125 :: r' => POk (JObj []) false r'
                | r' => parse_object_items f d r' [] false
                end
            end
          else if c =? 91 then
            match depth with
            | O => PRecursion
            | S d =>
                match skip_ws r with
                | 93 :: r' => POk (JArr []) false r'
                | r' => parse_array_items f d r' [] false
                end
            end
          else if starts_with (u "null") s then POk JNull false (skipn 4 s)
          else if starts_with (u "true") s then POk (JBool true) false (skipn 4 s)
          else if starts_with (u "false") s then POk (JBool false) false (skipn 5 s)
          else if starts_with (u "NaN") s then POk JNull true (skipn 3 s)
          else if starts_with (u "Infinity") s then POk JNull true (skipn 8 s)
          else if starts_with (u "-Infinity") s then POk JNull true (skipn 9 s)
          else match_number s
      end
  end
with parse_array_items (fuel depth : nat) (s : ustr) (acc : list json) (fl : bool) {struct fuel} : presult :=
  match fuel with
  | O => PErr
  | S f =>
      match scan_once f depth s with
      | PErr => PErr
      | PRecursion => PRecursion
      | POk v fl' r =>
          match skip_ws r with
          | 93 :: r' => POk (JArr (acc ++ [v])) (fl || fl') r'
          | 44 :: r' =>
              match skip_ws r' with
              | 93 :: _ => PErr
              | r'' => parse_array_items f depth r'' (acc ++ [v]) (fl || fl')
              end
          | _ => PErr
          end
      end
  end
with parse_object_items (fuel depth : nat) (s : ustr) (acc : list (ustr * json)) (fl : bool) {struct fuel} : presult :=
  match fuel with
  | O => PErr
  | S f =>
      match s with
      | 34 :: r =>
          match scan_string (S (List.length r)) r [] with
          | None => PErr
          | Some (k, r1) =>
              match skip_ws r1 with
              | 58 :: r2 =>
                  match scan_once f depth (skip_ws r2) with
                  | PErr => PErr
                  | PRecursion => PRecursion
                  | POk v fl' r3 =>
                      let acc := obj_set k v acc in
                      match skip_ws r3 with
                      | 125 :: r4 => POk (JObj acc) (fl || fl') r4
                      | 44 :: r4 =>
                          match skip_ws r4 with
                          | 125 :: _ => PErr
                          | r5 => parse_object_items f depth r5 acc (fl || fl')
                          end
                      | _ => PErr
                      end
                  end
              | _ => PErr
              end
          end
      | _ => PErr
      end
  end.

(** [bytes.decode('utf-8', 'surrogatepass')]; [None] is a
    [UnicodeDecodeError]. *)
Definition is_cont (b : Z) : bool := (128 <=? b) && (b <=? 191).

Fixpoint utf8_decode_fuel (fuel : nat) (b : bytes) : option ustr :=
  match fuel with
  | O => match b with [] => Some [] | _ => None end
  | S f =>
      match b with
      | [] => Some []
      | b0 :: r =>
          if b0 <? 128 then option_map (cons b0) (utf8_decode_fuel f r)
          else if (194 <=? b0) && (b0 <=? 223) then
            match r with
            | b1 :: r' => if is_cont b1 then
                            option_map (cons ((b0 - 192) * 64 + (b1 - 128))) (utf8_decode_fuel f r')
                          else None
            | _ => None
            end
          else if (224 <=? b0) && (b0 <=? 239) then
            match r with
            | b1 :: b2 :: r' =>
                if is_cont b1 && is_cont b2 && implb (b0 =? 224) (160 <=? b1) then
                  option_map (cons (((b0 - 224) * 64 + (b1 - 128)) * 64 + (b2 - 128)))
                    (utf8_decode_fuel f r')
                else None
            | _ => None
            end
          else if (240 <=? b0) && (b0 <=? 244) then
            match r with
            | b1 :: b2 :: b3 :: r' =>
                if is_cont b1 && is_cont b2 && is_cont b3
                   && implb (b0 =? 240) (144 <=? b1) && implb (b0 =? 244) (b1 <=? 143) then
                  option_map (cons ((((b0 - 240) * 64 + (b1 - 128)) * 64 + (b2 - 128)) * 64 + (b3 - 128)))
                    (utf8_decode_fuel f r')
                else None
            | _ => None
            end
          else None
      end
  end.

Definition utf8_decode (b : bytes) : option ustr := utf8_decode_fuel (List.length b) b.

Inductive encoding := Utf8 | Utf8Sig | OtherEncoding.

(** [json.detect_encoding]; UTF-16 and UTF-32 input is not modelled. *)
Definition detect_encoding (b : bytes) : encoding :=
  if starts_with [0; 0; 254; 255] b || starts_with [255; 254; 0; 0] b then OtherEncoding
  else if starts_with [254; 255] b || starts_with [255; 254] b then OtherEncoding
  else if starts_with [239; 187; 191] b then Utf8Sig
  else match b with
       | b0 :: b1 :: _ :: _ :: _ =>
           if (b0 =? 0) || (b1 =? 0) then OtherEncoding else Utf8
       | [b0; b1] => if (b0 =? 0) || (b1 =? 0) then OtherEncoding else Utf8
       | _ => Utf8
       end.

(** What [json.loads(body)] does: return a value of the model, raise a
    [ValueError] (which [read_message] catches), raise another exception
    (which it does not), or produce something this development does not
    represent (a [float], or UTF-16/32 input). *)
Inductive loads_result :=
| LOk (v : json)
| LValueError
| LRaise (e : py_exc)
| LOutside.

(** How many nested lists and dicts [json.loads] can enter: what is left
    of the interpreter's recursion limit when [read_message] calls it. *)
Variable loads_depth : nat.

Definition json_decode (s : ustr) : loads_result :=
  match scan_once (2 * List.length s + 2) loads_depth (skip_ws s) with
  | PErr => LValueError
  | PRecursion => LRaise RecursionError
  | POk v fl r =>
      match skip_ws r with
      | [] => if fl then LOutside else LOk v
      | _ => LValueError
      end
  end.

Definition json_loads (b : bytes) : loads_result :=
  match detect_encoding b with
  | OtherEncoding => LOutside
  | Utf8 => match utf8_decode b with Some s => json_decode s | None => LValueError end
  | Utf8Sig => match utf8_decode (skipn 3 b) with Some s => json_decode s | None => LValueError end
  end.

(** *** [read_message] *)

(** The [limit] of an [asyncio.StreamReader] ([2 ** 16]). *)
Definition stream_limit : nat := Nat.pow 2 16.

(** Index of the first [b'\r\n\r\n']. *)
Fixpoint find_sep (s : bytes) : option nat :=
  match s with
  | 13 :: 10 :: 13 :: 10 :: _ => Some O
  | _ :: r => option_map S (find_sep r)
  | [] => None
  end.

(** [header.split(b'\r\n')]. *)
Fixpoint split_crlf_acc (s : bytes) (cur : bytes) : list bytes :=
  match s with
  | 13 :: 10 :: r => cur :: split_crlf_acc r []
  | c :: r => split_crlf_acc r (cur ++ [c])
  | [] => [cur]
  end.

Definition split_crlf (s : bytes) : list bytes := split_crlf_acc s [].

(** [lst[:-2]]. *)
Definition drop_last2 {A} (l : list A) : list A := firstn (List.length l - 2) l.

Fixpoint split_at_colon (s : bytes) : option (bytes * bytes) :=
  match s with
  | [] => None
  | c :: r =>
      if c =? 58 then Some ([], r)
      else option_map (fun p => (c :: fst p, snd p)) (split_at_colon r)
  end.

(** [line.split(b':', 2)]. *)
Definition split_colon_max2 (line : bytes) : list bytes :=
  match split_at_colon line with
  | None => [line]
  | Some (a, b) =>
      match split_at_colon b with
      | None => [a; b]
      | Some (b1, b2) => [a; b1; b2]
      end
  end.

Definition lower (s : bytes) : bytes :=
  map (fun c => if (65 <=? c) && (c <=? 90) then c + 32 else c) s.

Definition is_space (c : Z) : bool := (c =? 32) || ((9 <=? c) && (c <=? 13)).

Fixpoint lstrip (s : bytes) : bytes :=
  match s with
  | c :: r => if is_space c then lstrip r else s
  | [] => []
  end.

(** [bytes.strip()]. *)
Definition strip (s : bytes) : bytes := rev (lstrip (rev (lstrip s))).

(** Digits with single underscores between them. *)
Fixpoint us_digits (s : list Z) : option (list Z) :=
  match s with
  | [] => Some []
  | 95 :: d :: r => if is_digit d then option_map (cons d) (us_digits r) else None
  | d :: r => if is_digit d then option_map (cons d) (us_digits r) else None
  end.

(** [int(b)] for a [bytes] argument, base 10. *)
Definition py_int (b : bytes) : res Z :=
  let s := strip b in
  let '(neg, s1) := match s with
                    | 43 :: r => (false, r)
                    | 45 :: r => (true, r)
                    | _ => (false, s)
                    end in
  match s1 with
  | d :: _ =>
      if is_digit d then
        match us_digits s1 with
        | Some ds =>
            if Nat.ltb 4300 (List.length ds) then Raise ValueError
            else Ok (if neg then - digits_value ds 0 else digits_value ds 0)
        | None => Raise ValueError
        end
      else Raise ValueError
  | [] => Raise ValueError
  end.

(** The [for line in lines] loop of [read_message]. *)
Fixpoint header_length (lines : list bytes) (length : Z) : res Z :=
  match lines with
  | [] => Ok length
  | line :: r =>
      match split_colon_max2 line with
      | [key; val] =>
          if ustr_eqb (lower key) (u "content-length") then
            l <- py_int (strip val) ;; header_length r l
          else header_length r length
      | _ => Raise ValueError
      end
  end.

(** What [read_message] does: return a message, return [None], produce a
    value the development does not represent, or raise. *)
Inductive read_result :=
| RMsg (m : json)
| RNone
| ROutside
| RRaise (e : py_exc).

Definition of_loads (r : loads_result) : read_result :=
  match r with
  | LOk v => RMsg v
  | LValueError => RNone
  | LRaise e => RRaise e
  | LOutside => ROutside
  end.

(** [read_message] on a stream whose whole content (up to end of stream)
    is [stream]: the outcome and what is left in the stream. *)
Definition read_message (stream : bytes) : read_result * bytes :=
  match find_sep stream with
  | None =>
      if Nat.ltb stream_limit (List.length stream - 3) then (RRaise LimitOverrunError, stream)
      else (RNone, [])
  | Some isep =>
      if Nat.ltb stream_limit isep then (RRaise LimitOverrunError, stream)
      else
        let header := firstn (isep + 4) stream in
        let rest := skipn (isep + 4) stream in
        match header_length (drop_last2 (split_crlf header)) 0 with
        | Raise e => (RRaise e, rest)
        | Ok length =>
            if 0 <? length then
              if Z.of_nat (List.length rest) <? length then (RNone, [])
              else (of_loads (json_loads (firstn (Z.to_nat length) rest)),
                    skipn (Z.to_nat length) rest)
            else (of_loads (json_loads []), rest)
        end
  end.

End Framer.

(* ------------------------------------------------------------------ *)
(** ** Specification-side definitions and concrete configurations *)

(** Feature-owner selection as Section 4.3.5 of the spec words it: the
    first server satisfying both the preference flag and the capability
    predicate, else the first capable server, else none. *)
Definition owner_by_spec {A} (flag capable : A -> bool) (l : list A) : option A :=
  match find (fun s => flag s && capable s) l with
  | Some s => Some s
  | None => find capable l
  end.

(** Outcome of a run: the messages written, or the state reached. *)
Definition outputs_of (r : res (Proxy * list (peer * json))) : option (list (peer * json)) :=
  match r with Ok (_, o) => Some o | Raise _ => None end.

Definition state_of (r : res (Proxy * list (peer * json))) : option Proxy :=
  match r with Ok (p, _) => Some p | Raise _ => None end.

(** The messages written by [evs2] after [evs1] has been processed. *)
Definition outputs_after (p : Proxy) (evs1 evs2 : list (option nat * json))
    : option (list (peer * json)) :=
  match run dedup_first p evs1 with
  | Ok (p1, _) => outputs_of (run dedup_first p1 evs2)
  | Raise _ => None
  end.

Definition state_after (p : Proxy) (evs1 evs2 : list (option nat * json)) : option Proxy :=
  match run dedup_first p evs1 with
  | Ok (p1, _) => state_of (run dedup_first p1 evs2)
  | Raise _ => None
  end.

Local Open Scope string_scope.

(** The spec's configuration: primary [A], non-primary [B] with
    [useFormatting = true]. *)
Definition srv_A : Server := new_server true JNull true false false false false.
Definition srv_B : Server := new_server false JNull true true false false false.
Definition proxy_AB : Proxy := new_proxy [srv_A; srv_B].

Definition init_req (iden : json) : json :=
  jo [("id", iden); ("method", js "initialize"); ("params", jo [("capabilities", jo [])])].

Definition init_resp (iden : json) (caps : json) : json :=
  jo [("id", iden); ("result", jo [("capabilities", caps)])].

Definition caps_A : json :=
  jo [("hoverProvider", JBool true); ("documentFormattingProvider", JBool false)].
Definition caps_B : json :=
  jo [("documentFormattingProvider", JBool true); ("codeActionProvider", JBool true)].
Definition caps_A_code_action : json :=
  jo [("hoverProvider", JBool true); ("codeActionProvider", JBool true)].

(** Initialization of [A] and [B] with the given capabilities. *)
Definition initialize_AB (ca cb : json) : list (option nat * json) :=
  [(None, init_req (JInt 1)); (Some 0, init_resp (JInt 1) ca); (Some 1, init_resp (JInt 1) cb)].

Definition request (iden : json) (method : string) : json :=
  jo [("id", iden); ("method", js method); ("params", jo [])].

Definition response (iden : json) (result : json) : json :=
  jo [("id", iden); ("result", result)].

Definition error_response (iden : json) : json :=
  jo [("id", iden); ("error", jo [("code", JInt (-32603)); ("message", js "failed")])].



(** An [initialize] request without ['params']. *)
Definition init_req_no_params (iden : json) : json :=
  jo [("id", iden); ("method", js "initialize")].

(** A [textDocument/publishDiagnostics] notification whose
    ['diagnostics'] is [null]. *)
Definition diagnostics_null : json :=
  jo [("jsonrpc", js "2.0"); ("method", js "textDocument/publishDiagnostics");
      ("params", jo [("uri", js "file:///a.py"); ("diagnostics", JNull)])].

(** A [window/logMessage] notification whose text holds the two code
    points U+D800 U+DC00, as [json.loads] produces from the bytes
    ED A0 80 ED B0 80 under [surrogatepass]. *)
Definition log_message_surrogates : json :=
  jo [("jsonrpc", js "2.0"); ("method", js "window/logMessage");
      ("params", jo [("type", JInt 3); ("message", JStr [55296; 56320]%Z)])].

Definition log_message_astral : json :=
  jo [("jsonrpc", js "2.0"); ("method", js "window/logMessage");
      ("params", jo [("type", JInt 3); ("message", JStr [65536]%Z)])].

(** The two pending tables of a server. *)
Definition pendings (s : Server) : pydict * pydict :=
  (pending_client_server_requests s, pending_server_client_requests s).

(** [safe_get(msg, key)] of a message object, as a total function. *)
Definition field (fields : list (ustr * json)) (key : string) : json :=
  match obj_lookup (u key) fields with Some v => v | None => JNull end.

(** The ids the aggregation gates of [process] look at. *)
Definition gate_id (p : Proxy) (iden : json) : bool :=
  py_eq iden (initialize_id p) || py_eq iden (shutdown_id p)
  || existsb (py_eq iden) (code_action_ids p).

(** The client methods with a special case that can drop a message:
    single-owner requests and [textDocument/codeAction]. *)
Definition owner_gated_methods : list ustr :=
  map u ["textDocument/formatting"; "textDocument/rangeFormatting";
         "textDocument/completion"; "completionItem/resolve";
         "textDocument/signatureHelp"; "textDocument/codeAction";
         "workspace/executeCommand"].

(** [A] and [B] after both answered [initialize]. *)
Definition proxy_AB_ready : Proxy :=
  match state_after proxy_AB [] (initialize_AB caps_A caps_B) with
  | Some p => p
  | None => proxy_AB
  end.

(** The spec's example of a request [B] sends that is not preserved. *)
Definition work_done_fields : list (ustr * json) :=
  [(u "id", JInt 5); (u "method", js "window/workDoneProgress/create");
   (u "params", jo [("token", js "t")])].

(** What [get_merged_diagnostics] takes from server [s] for [uri]: its
    cached [diagnostics[uri]] as [list +=] iterates it, when
    [use_diagnostics] is set and an entry exists; nothing otherwise. *)
Definition cached_diagnostics (uri : json) (s : Server) : list json :=
  if use_diagnostics s then
    match d_find uri (diagnostics s) with
    | Some v => match py_iter v with Ok l => l | Raise _ => [] end
    | None => []
    end
  else [].

(** A diagnostics notification for [file:///a.c]. *)
Definition diag_params : list (ustr * json) :=
  [(u "uri", js "file:///a.c");
   (u "diagnostics", JArr [jo [("message", js "unused variable")]])].

Definition diag_fields : list (ustr * json) :=
  [(u "jsonrpc", js "2.0"); (u "method", js "textDocument/publishDiagnostics");
   (u "params", JObj diag_params)].

(** *** The initialize response as the spec describes it *)

Definition is_str (v : json) : bool := match v with JStr _ => true | _ => false end.

(** The [capabilities] object of a server's cached initialize response
    ([{}] when there is none). *)
Definition init_caps (s : Server) : list (ustr * json) :=
  match initialize_msg s with
  | JObj fm =>
      match obj_lookup (u "result") fm with
      | Some (JObj rf) =>
          match obj_lookup (u "capabilities") rf with Some (JObj c) => c | _ => [] end
      | _ => []
      end
  | _ => []
  end.

(** An initialize response the synthesis can read: an object whose
    [result] is an object with a [capabilities] object, whose
    [codeActionProvider.codeActionKinds] and [executeCommandProvider.commands],
    when present, are lists of strings. *)
Definition kinds_field_ok (v : json) : bool :=
  match v with
  | JObj m =>
      match obj_lookup (u "codeActionKinds") m with
      | Some (JArr l) => forallb is_str l
      | Some _ => false
      | None => true
      end
  | _ => true
  end.

Definition commands_field_ok (v : json) : bool :=
  match v with
  | JObj m =>
      match obj_lookup (u "commands") m with
      | Some (JArr l) => forallb is_str l
      | Some _ => false
      | None => true
      end
  | _ => negb (py_truthy v)
  end.

Definition wf_init_msg (m : json) : bool :=
  match m with
  | JObj fm =>
      match obj_lookup (u "result") fm with
      | Some (JObj rf) =>
          match obj_lookup (u "capabilities") rf with
          | Some (JObj c) =>
              kinds_field_ok (field c "codeActionProvider")
              && commands_field_ok (field c "executeCommandProvider")
          | _ => false
          end
      | _ => false
      end
  | _ => false
  end.

(** The primary: the first server flagged primary, else the first one. *)
Definition primary_server (l : list Server) : option Server :=
  match l with
  | [] => None
  | s0 :: _ => Some (match find is_primary l with Some s => s | None => s0 end)
  end.

(** Advertised capabilities of a server. *)
Definition formatting_capable (s : Server) : bool :=
  py_truthy (field (init_caps s) "documentFormattingProvider")
  || py_truthy (field (init_caps s) "documentRangeFormattingProvider").
Definition completion_capable (s : Server) : bool :=
  py_truthy (field (init_caps s) "completionProvider").
Definition signature_capable (s : Server) : bool :=
  py_truthy (field (init_caps s) "signatureHelpProvider").
Definition code_action_capable (s : Server) : bool :=
  py_truthy (field (init_caps s) "codeActionProvider").

Definition code_action_kinds_of (s : Server) : list json :=
  match field (init_caps s) "codeActionProvider" with
  | JObj m => match obj_lookup (u "codeActionKinds") m with Some (JArr l) => l | _ => [] end
  | _ => []
  end.

Definition commands_of (s : Server) : list json :=
  match field (init_caps s) "executeCommandProvider" with
  | JObj m => match obj_lookup (u "commands") m with Some (JArr l) => l | _ => [] end
  | _ => []
  end.

(** The capability fields the synthesis may overwrite. *)
Definition synthesized_keys : list ustr :=
  map u ["documentFormattingProvider"; "documentRangeFormattingProvider";
         "completionProvider"; "signatureHelpProvider"; "codeActionProvider";
         "executeCommandProvider"].

(** [out] lists the strings of [l] once each: a decidable check of what
    [list(set(l))] returns. *)
Definition json_str_eqb (a b : json) : bool :=
  match a, b with JStr x, JStr y => ustr_eqb x y | _, _ => false end.

Fixpoint nodupb (l : list json) : bool :=
  match l with
  | [] => true
  | x :: r => negb (existsb (json_str_eqb x) r) && nodupb r
  end.

Definition dedups (l out : list json) : bool :=
  forallb is_str l && forallb is_str out && nodupb out
  && forallb (fun x => existsb (json_str_eqb x) l) out
  && forallb (fun x => existsb (json_str_eqb x) out) l.

(** Server [s] after its answer with id [iden] is matched against its
    [pending_client_server_requests] (the entry, if any, removed). *)
Definition answered (s : Server) (iden : json) : Server :=
  set_pending_cs s (d_del_raw iden (pending_client_server_requests s)).

(** The proxy once server [i] has stored its initialize answer [fields]. *)
Definition store_initialize (p : Proxy) (i : nat) (s : Server) (fields : list (ustr * json))
    : Proxy :=
  replace_server p i (set_initialize_msg (answered s (field fields "id")) (JObj fields)).

(** The proxy once server [i] has answered shutdown with id [iden]. *)
Definition store_shutdown (p : Proxy) (i : nat) (s : Server) (iden : json) : Proxy :=
  replace_server p i (set_shutdown_received (answered s iden) true).

(** The fields of a JSON object ([[]] for other values). *)
Definition obj_fields (v : json) : list (ustr * json) :=
  match v with JObj f => f | _ => [] end.

(** A configuration file with two servers: [pylsp] over stdio, then a
    server on port 2087 of [localhost] used for completion. *)
Definition cfg_two : json :=
  JArr [jo [("cmd", js "pylsp")];
        jo [("port", JInt 2087); ("host", js "localhost"); ("useCompletion", JBool true)]].

Definition servers_two : list (transport * Server) :=
  [(StdioServer (js "pylsp") (JArr []), new_server true JNull true false false false false);
   (SocketServer (js "localhost") (JInt 2087), new_server false JNull true false true false false)].

(** A configuration whose second entry names neither [cmd] nor [port]. *)
Definition cfg_no_transport : list json :=
  [jo [("cmd", js "pylsp")]; jo [("host", js "localhost")]].

(** [A] has answered the client's initialize request (id 1); [B] has not. *)
Definition proxy_A_answered : Proxy :=
  match state_after proxy_AB [] [(None, init_req (JInt 1)); (Some 0, init_resp (JInt 1) caps_A)] with
  | Some p => p
  | None => proxy_AB
  end.

Local Close Scope string_scope.

(** What the round trip through [construct_message] and [read_message]
    needs of a value: code points of [str]s in [0, 0x10FFFF], no high
    surrogate directly followed by a low one in a [str], and the keys of a
    [dict] distinct. *)
Definition printable (c : Z) : bool := (32 <=? c)%Z && (c <=? 126)%Z.
Definition code_point_ok (c : Z) : bool := (0 <=? c)%Z && (c <=? 1114111)%Z.

Fixpoint no_split_pair (s : ustr) : bool :=
  match s with
  | c :: ((c' :: _) as r) => negb (is_high c && is_low c') && no_split_pair r
  | _ => true
  end.

Definition str_ok (s : ustr) : bool := forallb code_point_ok s && no_split_pair s.

Fixpoint keys_fresh (m : list (ustr * json)) : bool :=
  match m with
  | [] => true
  | (k, _) :: r => negb (existsb (fun kv => ustr_eqb k (fst kv)) r) && keys_fresh r
  end.

Fixpoint roundtrip_ok (v : json) : bool :=
  match v with
  | JStr s => str_ok s
  | JArr l => forallb roundtrip_ok l
  | JObj m => keys_fresh m && forallb (fun kv => str_ok (fst kv) && roundtrip_ok (snd kv)) m
  | _ => true
  end.

(** What may follow a value in [json.dumps] output: nothing, [,], [\]] or [}]. *)
Definition follower (r : ustr) : bool :=
  match r with [] => true | c :: _ => (c =? 44)%Z || (c =? 93)%Z || (c =? 125)%Z end.

(** Bytes free of [\r]. *)
Definition no_cr (p : list Z) : bool := forallb (fun c => negb (c =? 13)%Z) p.

(** A header block: each line followed by [b'\r\n'], then an empty
    line. *)
Fixpoint header_lines (lines : list (list Z)) : list Z :=
  match lines with
  | [] => []
  | l :: r => l ++ 13%Z :: 10%Z :: header_lines r
  end.

Definition header_bytes (lines : list (list Z)) : list Z := header_lines lines ++ [13%Z; 10%Z].

(** The header block of [construct_message] with a [Content-Type] line
    added, the length given as text. *)
Definition framed_headers (n : string) : list (list Z) :=
  [(u "Content-Length: " ++ u n)%list; u "Content-Type: application/vscode-jsonrpc; charset=utf-8"].

(* ================================================================== *)
(** * Properties *)

(** ** Basic facts *)

Lemma Zeqb_refl' : forall z, Z.eqb z z = true.
Proof. intro z; apply Z.eqb_refl. Qed.

Lemma ustr_eqb_eq : forall a b, ustr_eqb a b = true <-> a = b.
Proof.
  induction a as [|x a IH]; destruct b as [|y b]; simpl; split; intro H;
    try discriminate; try reflexivity.
  - apply andb_prop in H as [H1 H2]. apply Z.eqb_eq in H1. apply IH in H2. subst; reflexivity.
  - injection H as -> ->. rewrite Z.eqb_refl. simpl. apply IH. reflexivity.
Qed.

Lemma ustr_eqb_refl : forall a, ustr_eqb a a = true.
Proof. intro a; apply ustr_eqb_eq; reflexivity. Qed.

Lemma ustr_eqb_neq : forall a b, a <> b -> ustr_eqb a b = false.
Proof.
  intros a b H. destruct (ustr_eqb a b) eqn:E; [|reflexivity].
  apply ustr_eqb_eq in E. contradiction.
Qed.

(** Induction on [json] through the lists it nests. *)
Fixpoint json_ind' (P : json -> Prop)
    (fnull : P JNull) (fbool : forall b, P (JBool b)) (fint : forall z, P (JInt z))
    (fstr : forall s, P (JStr s))
    (farr : forall l, Forall P l -> P (JArr l))
    (fobj : forall m, Forall (fun kv => P (snd kv)) m -> P (JObj m))
    (v : json) {struct v} : P v :=
  match v with
  | JNull => fnull
  | JBool b => fbool b
  | JInt z => fint z
  | JStr s => fstr s
  | JArr l =>
      farr l ((fix go (l : list json) : Forall P l :=
                 match l with
                 | [] => Forall_nil _
                 | x :: r => Forall_cons _ (json_ind' P fnull fbool fint fstr farr fobj x) (go r)
                 end) l)
  | JObj m =>
      fobj m ((fix go (m : list (ustr * json)) : Forall (fun kv => P (snd kv)) m :=
                 match m with
                 | [] => Forall_nil _
                 | kv :: r => Forall_cons _ (json_ind' P fnull fbool fint fstr farr fobj (snd kv)) (go r)
                 end) m)
  end.

Lemma py_eq_refl : forall x, py_eq x x = true.
Proof.
  induction x using json_ind'; simpl.
  - reflexivity.
  - destruct b; reflexivity.
  - apply Z.eqb_refl.
  - apply ustr_eqb_refl.
  - induction H; [reflexivity|]. rewrite H, IHForall. reflexivity.
  - induction H as [|[k v] m Hv Hm IH]; [reflexivity|]. simpl in *.
    rewrite ustr_eqb_refl, Hv, IH. reflexivity.
Qed.

Lemma bind_Ok_inv : forall {A B} (m : res A) (k : A -> res B) b,
  bind m k = Ok b -> exists a, m = Ok a /\ k a = Ok b.
Proof. intros A B m k b H. destruct m as [a|e]; [exists a; auto | discriminate]. Qed.

Lemma bind_Ok : forall {A B} (a : A) (k : A -> res B), bind (Ok a) k = k a.
Proof. reflexivity. Qed.

(** Invert every successful [bind] in a hypothesis. *)
Ltac inv_bind :=
  repeat match goal with
  | H : bind ?m ?k = Ok _ |- _ =>
      let a := fresh "a" in let Ha := fresh "Ha" in
      apply bind_Ok_inv in H as [a [Ha H]]
  end.

Lemma obj_lookup_set_same : forall k v m, obj_lookup k (obj_set k v m) = Some v.
Proof.
  intros k v m; induction m as [|[k' v'] m IH]; simpl.
  - rewrite ustr_eqb_refl; reflexivity.
  - destruct (ustr_eqb k k') eqn:E; simpl.
    + rewrite E; reflexivity.
    + rewrite E; exact IH.
Qed.

Lemma obj_lookup_set_other : forall k k' v m,
  k <> k' -> obj_lookup k' (obj_set k v m) = obj_lookup k' m.
Proof.
  intros k k' v m Hne; induction m as [|[k'' v''] m IH]; simpl.
  - rewrite ustr_eqb_neq by congruence; reflexivity.
  - destruct (ustr_eqb k k'') eqn:E; simpl.
    + apply ustr_eqb_eq in E; subst k''.
      rewrite (ustr_eqb_neq k' k) by congruence; reflexivity.
    + destruct (ustr_eqb k' k''); [reflexivity | exact IH].
Qed.

Lemma safe_get_obj : forall m k,
  safe_get (JObj m) k = Ok (match obj_lookup k m with Some v => v | None => JNull end).
Proof.
  intros m k. unfold safe_get. destruct m as [|kv m]; [reflexivity|].
  simpl py_truthy. cbv iota. unfold py_in. rewrite bind_Ok. unfold py_getitem.
  destruct (obj_lookup k (kv :: m)); reflexivity.
Qed.

(** ** C6: feature-owner selection *)

Lemma get_server_generic_loop_ok : forall {A} (cfg cap : A -> bool) (cond : A -> res bool) l ff,
  Forall (fun s => cond s = Ok (cap s)) l ->
  get_server_generic_loop cfg cond ff l
  = Ok (match find (fun s => cfg s && cap s) l with
        | Some s => Some s
        | None => match ff with Some f => Some f | None => find cap l end
        end).
Proof.
  intros A cfg cap cond l. induction l as [|s l IH]; intros ff Hl; simpl.
  - destruct ff; reflexivity.
  - inversion Hl as [|? ? Hs Hl']; subst.
    destruct ff as [f|]; simpl.
    + destruct (cfg s) eqn:Ec; simpl.
      * rewrite Hs; simpl. destruct (cap s); simpl; [reflexivity|]. apply IH; exact Hl'.
      * apply IH; exact Hl'.
    + rewrite Hs; simpl. destruct (cfg s) eqn:Ec; simpl.
      * destruct (cap s) eqn:Ecap; simpl; [reflexivity|]. apply IH; exact Hl'.
      * destruct (cap s) eqn:Ecap; simpl; rewrite IH by exact Hl'.
        -- destruct (find (fun s0 => cfg s0 && cap s0) l); reflexivity.
        -- reflexivity.
Qed.

(** C6: for every list of servers, preference flag and capability
    predicate, [get_server_generic] returns the first server satisfying
    both, else the first capable server, else none. *)
Theorem get_server_generic_spec : forall {A} (flag capable : A -> bool) (l : list A),
  get_server_generic flag (fun s => Ok (capable s)) l = Ok (owner_by_spec flag capable l).
Proof.
  intros A flag capable l. unfold get_server_generic, owner_by_spec.
  rewrite (get_server_generic_loop_ok flag capable).
  - reflexivity.
  - apply Forall_forall; reflexivity.
Qed.

(** ** Concrete runs of the proxy and of the framer *)

(** C1 (code bug): after [A] and [B] are initialized ([B] owns
    formatting), the client's [textDocument/formatting] request with id 7
    is written to [B] only, yet id 7 is recorded in the pending tables of
    both [A] and [B]; and an [initialize] request with id 0 is written to
    both servers but recorded in neither pending table. *)
Lemma formatting_pending_without_forwarding :
  outputs_after proxy_AB (initialize_AB caps_A caps_B)
    [(None, request (JInt 7) "textDocument/formatting")]
  = Some [(ToServer 1, request (JInt 7) "textDocument/formatting")]
  /\ option_map (fun p => map pending_client_server_requests (servers p))
       (state_after proxy_AB (initialize_AB caps_A caps_B)
          [(None, request (JInt 7) "textDocument/formatting")])
     = Some [[(JInt 7, js "textDocument/formatting")];
             [(JInt 7, js "textDocument/formatting")]]
  /\ option_map (map fst) (outputs_after proxy_AB [] [(None, init_req (JInt 0))])
     = Some [ToServer 0; ToServer 1]
  /\ option_map (fun p => map pending_client_server_requests (servers p))
       (state_after proxy_AB [] [(None, init_req (JInt 0))])
     = Some [[]; []].
Proof. vm_compute. repeat split; reflexivity. Qed.

(** C2 (code bug): with [A] not codeAction-capable, the answer of [B]
    to the fanned-out request raises [KeyError] in the merge; with both
    capable and [A] answering [null], the client gets one response but
    the stored entry of [A] for id 8 is never cleared. *)
Lemma code_action_merge_failures :
  run dedup_first proxy_AB
    (initialize_AB caps_A caps_B ++
     [(None, request (JInt 8) "textDocument/codeAction");
      (Some 1, response (JInt 8) (JArr [js "actB"]))])
  = Raise KeyError
  /\ outputs_after proxy_AB
       (initialize_AB caps_A_code_action caps_B ++
        [(None, request (JInt 8) "textDocument/codeAction")])
       [(Some 0, response (JInt 8) JNull); (Some 1, response (JInt 8) (JArr [js "actB"]))]
     = Some [(Client, response (JInt 8) (JArr [js "actB"]))]
  /\ option_map (fun p => map received_code_actions (servers p))
       (state_after proxy_AB
          (initialize_AB caps_A_code_action caps_B ++
           [(None, request (JInt 8) "textDocument/codeAction")])
          [(Some 0, response (JInt 8) JNull); (Some 1, response (JInt 8) (JArr [js "actB"]))])
     = Some [[(JInt 8, JNull)]; []].
Proof. vm_compute. repeat split; reflexivity. Qed.

(** C5 counterexample: [B] is non-primary and [textDocument/completion]
    is a preserved request, but no server offers completion, so the
    request is written to no server.  Processing also raises on some
    messages the filter lets through: a client [initialize] without
    ['params'] raises [KeyError], and a [publishDiagnostics] from the
    primary [A] with ['diagnostics'] [null] raises [TypeError]
    ([diags += None]); neither is written. *)
Lemma preserved_completion_not_forwarded :
  outputs_after proxy_AB (initialize_AB caps_A caps_B)
    [(None, request (JInt 3) "textDocument/completion")]
  = Some []
  /\ run dedup_first proxy_AB [(None, init_req_no_params (JInt 1))] = Raise KeyError
  /\ match run dedup_first proxy_AB (initialize_AB caps_A caps_B) with
     | Ok (p, _) => run dedup_first p [(Some 0, diagnostics_null)] = Raise TypeError
     | Raise _ => False
     end.
Proof. vm_compute. split; [reflexivity | split; reflexivity]. Qed.

(** C7 (code bug): a non-numeric Content-Length value, or a header line
    without a colon, makes [read_message] raise [ValueError]. *)
Lemma invalid_content_length_raises : forall depth,
  read_message depth (u "Content-Length: abc" ++ crlf2) = (RRaise ValueError, [])
  /\ read_message depth (u "Content-Length" ++ crlf2) = (RRaise ValueError, []).
Proof. intros depth. vm_compute. split; reflexivity. Qed.

(** A message whose string holds U+D800 U+DC00 goes through the framer
    the same way whenever both calls can enter its two nested dicts. *)
Lemma surrogate_pair_merges_at_any_depth : forall dumps_extra loads_extra : nat,
  match construct_message (2 + dumps_extra) log_message_surrogates with
  | Ok b => read_message (2 + loads_extra) b = (RMsg log_message_astral, [])
  | Raise _ => False
  end
  /\ log_message_astral <> log_message_surrogates.
Proof. intros dumps_extra loads_extra. vm_compute. split; [reflexivity | discriminate]. Qed.

(** C8 counterexample: a message whose string holds U+D800 U+DC00 is
    framed as the escape pair \ud800\udc00 and read back as the single
    code point U+10000: the decoded object differs from the message
    (shown with a recursion room of 900 for both calls; the lemma above
    gives any room of at least 2). *)
Lemma surrogate_pair_roundtrip_merges :
  match construct_message 900 log_message_surrogates with
  | Ok b => read_message 900 b = (RMsg log_message_astral, [])
  | Raise _ => False
  end
  /\ log_message_astral <> log_message_surrogates.
Proof. exact (surrogate_pair_merges_at_any_depth 898 898). Qed.

(** C9 (code bug): the gate on [initialize] and [shutdown] answers only
    covers answers with a ['result'] key.  An error answer is written to
    the client at once: when [A] answers [initialize] with an error the
    client receives it while [B] has not answered, and when both servers
    answer [initialize] (or [shutdown]) with an error the client receives
    two answers with the same id. *)
Lemma gated_request_errors_reach_client_twice :
  outputs_after proxy_AB [(None, init_req (JInt 1))] [(Some 0, error_response (JInt 1))]
  = Some [(Client, error_response (JInt 1))]
  /\ outputs_after proxy_AB [(None, init_req (JInt 1))]
       [(Some 0, error_response (JInt 1)); (Some 1, error_response (JInt 1))]
     = Some [(Client, error_response (JInt 1)); (Client, error_response (JInt 1))]
  /\ outputs_after proxy_AB (initialize_AB caps_A caps_B ++ [(None, request (JInt 5) "shutdown")])
       [(Some 0, error_response (JInt 5)); (Some 1, error_response (JInt 5))]
     = Some [(Client, error_response (JInt 5)); (Client, error_response (JInt 5))].
Proof. vm_compute. split; [reflexivity | split; reflexivity]. Qed.

(** C10 (code bug): with initialize id 0, the non-primary [B] answering
    with an error is written to no peer, whereas with id 1 the same
    answer reaches the client. *)
Lemma initialize_error_id0_dropped :
  outputs_after proxy_AB [(None, init_req (JInt 0))] [(Some 1, error_response (JInt 0))]
  = Some []
  /\ outputs_after proxy_AB [(None, init_req (JInt 1))] [(Some 1, error_response (JInt 1))]
     = Some [(Client, error_response (JInt 1))].
Proof. vm_compute. split; reflexivity. Qed.

(** ** Frame lemmas: which parts of the state an operation changes *)

Ltac crush_ok :=
  repeat (match goal with
          | H : Ok _ = Ok _ |- _ => injection H; clear H; intros
          | H : Raise _ = Ok _ |- _ => discriminate H
          | H : bind _ _ = Ok _ |- _ => apply bind_Ok_inv in H; destruct H as [? [? H]]
          | x : prod _ _ |- _ => destruct x
          | H : (match ?x with _ => _ end) = Ok _ |- _ => destruct x eqn:?
          end; cbv beta iota in *; try subst).

Lemma skipn_nth_cons : forall {A} (l : list A) i x,
  nth_error l i = Some x -> skipn i l = x :: skipn (S i) l.
Proof.
  intros A l; induction l as [|y l IH]; intros [|i] x H; simpl in *; try discriminate.
  - injection H as ->; reflexivity.
  - apply IH; exact H.
Qed.

Lemma replace_server_map : forall {B} (f : Server -> B) p i s s',
  nth_error (servers p) i = Some s -> f s' = f s ->
  map f (servers (replace_server p i s')) = map f (servers p).
Proof.
  intros B f p i s s' Hn Hf. unfold replace_server; simpl.
  rewrite <- (firstn_skipn i (servers p)) at 3.
  rewrite (skipn_nth_cons _ _ _ Hn). rewrite !map_app. simpl. rewrite Hf. reflexivity.
Qed.

Lemma replace_server_length : forall p i s s',
  nth_error (servers p) i = Some s ->
  List.length (servers (replace_server p i s')) = List.length (servers p).
Proof.
  intros p i s s' Hn. rewrite <- !(length_map (fun _ : Server => tt)).
  f_equal. apply (replace_server_map (fun _ => tt) p i s s' Hn). reflexivity.
Qed.

Lemma nth_error_replace_same : forall p i s s',
  nth_error (servers p) i = Some s ->
  nth_error (servers (replace_server p i s')) i = Some s'.
Proof.
  intros p i s s' Hn. unfold replace_server; simpl.
  assert (Hl : List.length (firstn i (servers p)) = i).
  { apply firstn_length_le. enough (i < List.length (servers p)) by lia.
    apply nth_error_Some. congruence. }
  rewrite nth_error_app2 by lia. rewrite Hl, Nat.sub_diag. reflexivity.
Qed.

Lemma nth_error_replace_other : forall p i j s s',
  nth_error (servers p) i = Some s -> j <> i ->
  nth_error (servers (replace_server p i s')) j = nth_error (servers p) j.
Proof.
  intros p i j s s' Hn Hji. unfold replace_server; cbn [servers].
  assert (Hi : i < List.length (servers p)) by (apply nth_error_Some; congruence).
  assert (Hl : List.length (firstn i (servers p)) = i) by (apply firstn_length_le; lia).
  destruct (Nat.lt_ge_cases j i) as [Hlt|Hge].
  - rewrite nth_error_app1 by lia. rewrite nth_error_firstn.
    destruct (Nat.ltb_spec j i); [reflexivity | lia].
  - rewrite nth_error_app2 by lia. rewrite Hl.
    replace (j - i) with (S (j - S i)) by lia.
    assert (Hc : forall (x : Server) l n, nth_error (x :: l) (S n) = nth_error l n) by reflexivity.
    rewrite Hc, nth_error_skipn. f_equal. lia.
Qed.

Lemma replace_server_ids : forall p i s,
  initialize_id (replace_server p i s) = initialize_id p
  /\ shutdown_id (replace_server p i s) = shutdown_id p
  /\ code_action_ids (replace_server p i s) = code_action_ids p.
Proof. intros; repeat split; reflexivity. Qed.

Lemma get_server_nth : forall p i s, get_server p i = Ok s -> nth_error (servers p) i = Some s.
Proof. unfold get_server; intros p i s H. destruct (nth_error (servers p) i); congruence. Qed.

(** [replace_server p i s'] with [s'] agreeing with server [i] on [f]. *)
Ltac frame_replace :=
  etransitivity;
  [eapply replace_server_map; [eapply get_server_nth; eassumption | reflexivity]
  | reflexivity].

Lemma merge_code_actions_pendings : forall iden srvs r r' srvs',
  merge_code_actions iden srvs r = Ok (r', srvs') -> map pendings srvs' = map pendings srvs.
Proof.
  intros iden srvs; induction srvs as [|s srvs IH]; intros r r' srvs' H; simpl in H.
  - injection H as <- <-; reflexivity.
  - crush_ok; simpl; f_equal; eauto.
Qed.

Lemma collect_pendings : forall srvs k c sup srvs' k' c' sup',
  collect_code_actions_commands srvs k c sup = Ok (srvs', k', c', sup') ->
  map pendings srvs' = map pendings srvs.
Proof.
  intros srvs; induction srvs as [|s srvs IH]; intros k c sup srvs' k' c' sup' H; simpl in H.
  - injection H as <- <- <- <-; reflexivity.
  - crush_ok; simpl; f_equal; eauto.
Qed.

Lemma get_initialization_options_pendings : forall sl p msg p',
  get_initialization_options sl p = Ok (msg, p') ->
  map pendings (servers p') = map pendings (servers p)
  /\ initialize_id p' = initialize_id p /\ shutdown_id p' = shutdown_id p
  /\ code_action_ids p' = code_action_ids p.
Proof.
  intros sl p msg p' H. unfold get_initialization_options in H.
  crush_ok; simpl; repeat split; eauto using collect_pendings.
Qed.

Lemma send_phase_pendings : forall p i msg fs method p' msg',
  send_phase p i msg fs method = Ok (p', msg') ->
  map pendings (servers p') = map pendings (servers p)
  /\ initialize_id p' = initialize_id p /\ shutdown_id p' = shutdown_id p
  /\ code_action_ids p' = code_action_ids p.
Proof.
  intros p i msg fs method p' msg' H. unfold send_phase in H.
  crush_ok; repeat split; try reflexivity. frame_replace.
Qed.

(** A message from a server: the pending tables are untouched, and
    [should_send] changes only for a ['result'] message with a gated id. *)
Lemma from_server_cases_frame : forall sl p i msg iden ss p' msg' ss',
  from_server_cases sl p i msg iden ss = Ok (p', msg', ss') ->
  map pendings (servers p') = map pendings (servers p)
  /\ (ss' = ss \/ (py_in (JStr (u "result")) msg = Ok true /\ gate_id p iden = true)).
Proof.
  intros sl p i msg iden ss p' msg' ss' H. unfold from_server_cases in H.
  apply bind_Ok_inv in H as [hr [Hr H]].
  destruct hr; [|injection H as <- <- <-; auto].
  unfold gate_id.
  destruct (py_eq iden (initialize_id p)) eqn:Ei;
    [|destruct (py_eq iden (shutdown_id p)) eqn:Es;
      [|destruct (existsb (py_eq iden) (code_action_ids p)) eqn:Ec]];
    crush_ok;
    try (match goal with
         | Hg : get_initialization_options _ _ = Ok _ |- _ =>
             apply get_initialization_options_pendings in Hg as [Hp _]; rewrite Hp
         | Hm : merge_code_actions _ _ _ = Ok _ |- _ =>
             simpl; erewrite merge_code_actions_pendings by exact Hm
         end);
    (split; [first [reflexivity | frame_replace] | auto]).
Qed.

(** A message from the client: the servers are untouched, and
    [should_send] can only be cleared, and only for an owner-gated method. *)
Lemma from_client_cases_frame : forall p i msg method iden ss p' msg' ss',
  from_client_cases p i msg method iden ss = Ok (p', msg', ss') ->
  servers p' = servers p
  /\ (ss' = true -> ss = true)
  /\ (ss' = ss \/ method_in method owner_gated_methods = true).
Proof.
  intros p i msg method iden ss p' msg' ss' H. unfold from_client_cases in H.
  apply bind_Ok_inv in H as [srv [Hs H]].
  unfold owner_gated_methods, method_in in *. simpl map in *. simpl existsb in *.
  destruct (py_eq method (JStr (u "initialize"))) eqn:E1;
    [crush_ok; auto|].
  destruct (py_eq method (JStr (u "workspace/didChangeConfiguration"))) eqn:E2;
    [crush_ok; auto|].
  destruct (py_eq method (JStr (u "shutdown"))) eqn:E3;
    [crush_ok; auto|].
  destruct (py_eq method (JStr (u "textDocument/formatting"))) eqn:E4; simpl in H;
    [crush_ok; split; [reflexivity|]; split; [apply andb_prop|]; auto|].
  destruct (py_eq method (JStr (u "textDocument/rangeFormatting"))) eqn:E5; simpl in H;
    [crush_ok; split; [reflexivity|]; split; [apply andb_prop|]; auto|].
  destruct (py_eq method (JStr (u "textDocument/completion"))) eqn:E6; simpl in H;
    [crush_ok; split; [reflexivity|]; split; [apply andb_prop|]; rewrite ?orb_true_r; auto|].
  destruct (py_eq method (JStr (u "completionItem/resolve"))) eqn:E7; simpl in H;
    [crush_ok; split; [reflexivity|]; split; [apply andb_prop|]; rewrite ?orb_true_r; auto|].
  destruct (py_eq method (JStr (u "textDocument/signatureHelp"))) eqn:E8;
    [crush_ok; split; [reflexivity|]; split; [apply andb_prop|]; rewrite ?orb_true_r; auto|].
  destruct (py_eq method (JStr (u "textDocument/codeAction"))) eqn:E9.
  { apply bind_Ok_inv in H as [cap [Hc H]].
    destruct (ss && py_truthy cap) eqn:Ess; injection H as <- <- <-;
      (split; [reflexivity|]); rewrite ?orb_true_r; split; auto.
    - apply andb_prop in Ess; tauto.
    - discriminate. }
  destruct (py_eq method (JStr (u "workspace/executeCommand"))) eqn:E10;
    [crush_ok; split; [reflexivity|]; split; [apply andb_prop|]; rewrite ?orb_true_r; auto|].
  crush_ok; auto.
Qed.

Lemma get_server_of_nth : forall p i s, nth_error (servers p) i = Some s -> get_server p i = Ok s.
Proof. unfold get_server; intros p i s H; rewrite H; reflexivity. Qed.

Lemma safe_get_field : forall fields key,
  safe_get (JObj fields) (u key) = Ok (field fields key).
Proof. intros; apply safe_get_obj. Qed.

Lemma py_in_result : forall fields,
  py_in (JStr (u "result")) (JObj fields) = Ok true -> obj_lookup (u "result") fields <> None.
Proof.
  intros fields H. simpl in H. destruct (obj_lookup (u "result") fields); congruence.
Qed.

(** The head of [process]: the server looked up and the message's
    [method] and [id] read. *)
Lemma process_unfold : forall sl p i fields (fs : bool) preserved s,
  nth_error (servers p) i = Some s ->
  process sl p i (JObj fields) fs preserved =
  (let method := field fields "method" in
   let iden := field fields "id" in
   let pending := if fs then pending_client_server_requests s
                  else pending_server_client_requests s in
   found <- d_in iden pending ;;
   st <-
     (if found then
        m <- d_get iden pending ;;
        pending <- d_del iden pending ;;
        Ok (true, m, if fs then set_pending_cs s pending else set_pending_sc s pending)
      else if negb (filter_msg method (is_primary s) preserved) then
        if py_truthy method && py_truthy iden then
          let other := if fs then pending_server_client_requests s
                       else pending_client_server_requests s in
          other <- d_set iden method other ;;
          Ok (true, method, if fs then set_pending_sc s other else set_pending_cs s other)
        else Ok (true, method, s)
      else Ok (false, method, s)) ;;
   let '(should_send, method, srv) := st in
   let p := replace_server p i srv in
   st2 <- (if fs then from_server_cases sl p i (JObj fields) iden should_send
           else from_client_cases p i (JObj fields) method iden should_send) ;;
   let '(p, msg, should_send) := st2 in
   if should_send then
     st3 <- send_phase p i msg fs method ;;
     let '(p, msg) := st3 in
     Ok (p, msg, Some msg)
   else Ok (p, msg, None)).
Proof.
  intros sl p i fields fs preserved s Hn. unfold process.
  rewrite (get_server_of_nth p i s Hn), bind_Ok, !safe_get_field. reflexivity.
Qed.

(** C5 (amended): for a message object whose id is not in the selected
    pending table of server [i]: if the server is non-primary and the
    method is not in the preserved set, no pending table changes and
    nothing is written, except for a server message with a ['result']
    key whose id is the initialize id, the shutdown id or an outstanding
    code-action id; if the server is primary or the method is preserved,
    the message is written, except for a client request with an
    owner-gated method or such a gated server response. *)
Theorem filter_decides_forwarding :
  forall sl p i fields (fs : bool) preserved p' msg' out s,
  nth_error (servers p) i = Some s ->
  d_in (field fields "id")
    (if fs then pending_client_server_requests s else pending_server_client_requests s)
    = Ok false ->
  process sl p i (JObj fields) fs preserved = Ok (p', msg', out) ->
  (is_primary s = false -> method_in (field fields "method") preserved = false ->
     map pendings (servers p') = map pendings (servers p)
     /\ (out = None
         \/ (fs = true /\ obj_lookup (u "result") fields <> None
             /\ gate_id p (field fields "id") = true)))
  /\ (is_primary s = true \/ method_in (field fields "method") preserved = true ->
     out <> None
     \/ (fs = false /\ method_in (field fields "method") owner_gated_methods = true)
     \/ (fs = true /\ obj_lookup (u "result") fields <> None
         /\ gate_id p (field fields "id") = true)).
Proof.
  intros sl p i fields fs preserved p' msg' out s Hn Hd H.
  rewrite (process_unfold sl p i fields fs preserved s Hn) in H.
  cbv zeta in H. rewrite Hd, bind_Ok in H. unfold filter_msg in H.
  split.
  - intros Hp Hm. rewrite Hp, Hm in H. simpl negb in H. cbv iota in H.
    rewrite bind_Ok in H. cbv beta iota in H.
    apply bind_Ok_inv in H as [[[p1 m1] b1] [Hc H]].
    destruct fs.
    + apply from_server_cases_frame in Hc as [Hpd Hss].
      rewrite (replace_server_map pendings p i s s Hn eq_refl) in Hpd.
      destruct b1.
      * apply bind_Ok_inv in H as [[p2 m2] [Hsp H]]. injection H as <- <- <-.
        apply send_phase_pendings in Hsp as [Hsp _]. split; [congruence|].
        destruct Hss as [Hss|[Hr Hg]]; [discriminate|].
        right. split; [reflexivity|]. split; [apply py_in_result; exact Hr | exact Hg].
      * injection H as <- <- <-. auto.
    + apply from_client_cases_frame in Hc as [Hsv [Himp _]].
      destruct b1.
      * specialize (Himp eq_refl); discriminate.
      * injection H as <- <- <-. split; [|auto].
        rewrite Hsv. apply (replace_server_map pendings p i s s Hn eq_refl).
  - intros Hpm.
    assert (Hf : (if is_primary s then false
                  else negb (method_in (field fields "method") preserved)) = false)
      by (destruct Hpm as [-> | ->]; [reflexivity | destruct (is_primary s); reflexivity]).
    rewrite Hf in H. simpl negb in H. cbv iota in H.
    apply bind_Ok_inv in H as [[[b0 m0] s0] [Hst H]].
    assert (Hb0 : b0 = true).
    { destruct (py_truthy (field fields "method") && py_truthy (field fields "id"));
        crush_ok; reflexivity. }
    subst b0. cbv beta iota in H.
    apply bind_Ok_inv in H as [[[p1 m1] b1] [Hc H]].
    destruct b1.
    { left. apply bind_Ok_inv in H as [[p2 m2] [_ H]]. injection H as _ _ <-. discriminate. }
    right. destruct fs.
    + apply from_server_cases_frame in Hc as [_ [Hss|[Hr Hg]]]; [discriminate|].
      right. split; [reflexivity|]. split; [apply py_in_result; exact Hr|].
      exact Hg.
    + apply from_client_cases_frame in Hc as [_ [_ [Hss|Hg]]]; [discriminate|].
      left. split; [reflexivity|].
      assert (Hm0 : m0 = field fields "method").
      { destruct (py_truthy (field fields "method") && py_truthy (field fields "id"));
          crush_ok; reflexivity. }
      subst m0. exact Hg.
Qed.

Lemma filter_decides_forwarding_witness :
  exists p' msg' out,
  nth_error (servers proxy_AB_ready) 1 = Some (nth 1 (servers proxy_AB_ready) srv_A)
  /\ d_in (field work_done_fields "id")
       (pending_client_server_requests (nth 1 (servers proxy_AB_ready) srv_A)) = Ok false
  /\ process dedup_first proxy_AB_ready 1 (JObj work_done_fields) true
       (preserved_requests ++ preserved_server_client_notifications) = Ok (p', msg', out)
  /\ out = None
  /\ (is_primary (nth 1 (servers proxy_AB_ready) srv_A) = false ->
      method_in (field work_done_fields "method")
        (preserved_requests ++ preserved_server_client_notifications) = false ->
      map pendings (servers p') = map pendings (servers proxy_AB_ready)
      /\ (out = None
          \/ (true = true /\ obj_lookup (u "result") work_done_fields <> None
              /\ gate_id proxy_AB_ready (field work_done_fields "id") = true))).
Proof.
  exists (replace_server proxy_AB_ready 1 (nth 1 (servers proxy_AB_ready) srv_A)),
         (JObj work_done_fields), None.
  assert (H1 : nth_error (servers proxy_AB_ready) 1
               = Some (nth 1 (servers proxy_AB_ready) srv_A)) by (vm_compute; reflexivity).
  assert (H2 : d_in (field work_done_fields "id")
                 (pending_client_server_requests (nth 1 (servers proxy_AB_ready) srv_A))
               = Ok false) by (vm_compute; reflexivity).
  assert (H3 : process dedup_first proxy_AB_ready 1 (JObj work_done_fields) true
                 (preserved_requests ++ preserved_server_client_notifications)
               = Ok (replace_server proxy_AB_ready 1 (nth 1 (servers proxy_AB_ready) srv_A),
                     JObj work_done_fields, None)) by (vm_compute; reflexivity).
  split; [exact H1|]. split; [exact H2|]. split; [exact H3|]. split; [reflexivity|].
  exact (proj1 (filter_decides_forwarding dedup_first proxy_AB_ready 1 work_done_fields true
                  (preserved_requests ++ preserved_server_client_notifications) _ _ _ _
                  H1 H2 H3)).
Defined.

Lemma existsb_d_find : forall k d,
  existsb (fun kv => py_eq k (fst kv)) d = match d_find k d with Some _ => true | None => false end.
Proof.
  intros k d; induction d as [|[k' v] d IH]; simpl; [reflexivity|].
  destruct (py_eq k k'); [reflexivity | exact IH].
Qed.

Lemma d_find_set_raw_same : forall k v d, d_find k (d_set_raw k v d) = Some v.
Proof.
  intros k v d; induction d as [|[k' v'] d IH]; simpl.
  - rewrite py_eq_refl; reflexivity.
  - destruct (py_eq k k') eqn:E; simpl; rewrite E; [reflexivity | exact IH].
Qed.

Lemma merged_fold : forall uri srvs acc l,
  fold_left
    (fun acc srv =>
       diags <- acc ;;
       if use_diagnostics srv then
         b <- d_in uri (diagnostics srv) ;;
         if b then
           v <- d_get uri (diagnostics srv) ;;
           it <- py_iter v ;;
           Ok (diags ++ it)
         else Ok diags
       else Ok diags) srvs acc = Ok l ->
  exists a, acc = Ok a /\ l = a ++ concat (map (cached_diagnostics uri) srvs).
Proof.
  intros uri srvs; induction srvs as [|s srvs IH]; intros acc l H; simpl in H.
  - exists l. split; [exact H | simpl; rewrite app_nil_r; reflexivity].
  - apply IH in H as [a [Ha ->]].
    apply bind_Ok_inv in Ha as [a0 [Ha0 Ha]]. exists a0. split; [exact Ha0|].
    simpl. rewrite app_assoc. f_equal. unfold cached_diagnostics.
    destruct (use_diagnostics s); [|injection Ha as <-; rewrite app_nil_r; reflexivity].
    unfold d_in, d_get in Ha. destruct (hashable uri); [|discriminate].
    rewrite existsb_d_find, bind_Ok in Ha.
    destruct (d_find uri (diagnostics s)) as [v|]; [|injection Ha as <-; rewrite app_nil_r; reflexivity].
    rewrite bind_Ok in Ha. destruct (py_iter v); [|discriminate].
    injection Ha as <-. reflexivity.
Qed.

Lemma get_merged_diagnostics_spec : forall p uri l,
  get_merged_diagnostics p uri = Ok l -> l = concat (map (cached_diagnostics uri) (servers p)).
Proof.
  intros p uri l H. unfold get_merged_diagnostics in H.
  apply merged_fold in H as [a [Ha ->]]. injection Ha as <-. reflexivity.
Qed.

(** C4: when server [i] sends a [textDocument/publishDiagnostics]
    notification (no [id], no [result]) for [uri], and its pending table
    has no [None] key (an entry [process] never records), the proxy stores its
    diagnostics as server [i]'s [diagnostics[uri]], leaves the other
    servers as they were, and writes exactly one message to the client:
    the notification with [params.diagnostics] replaced by the
    concatenation, in configuration order, of the cached [diagnostics[uri]]
    of the servers whose [use_diagnostics] is true, taken in the state
    after the update. *)
Theorem published_diagnostics_merged :
  forall sl p i fields pfields uri diags p' outs s,
  nth_error (servers p) i = Some s ->
  obj_lookup (u "method") fields = Some (js "textDocument/publishDiagnostics") ->
  obj_lookup (u "id") fields = None ->
  obj_lookup (u "result") fields = None ->
  obj_lookup (u "params") fields = Some (JObj pfields) ->
  obj_lookup (u "uri") pfields = Some uri ->
  obj_lookup (u "diagnostics") pfields = Some diags ->
  d_in JNull (pending_client_server_requests s) = Ok false ->
  dispatch sl p (JObj fields) (Some i) = Ok (p', outs) ->
  outs = [(Client, JObj (obj_set (u "params")
            (JObj (obj_set (u "diagnostics")
                     (JArr (concat (map (cached_diagnostics uri) (servers p')))) pfields))
            fields))]
  /\ (exists s', nth_error (servers p') i = Some s' /\ d_find uri (diagnostics s') = Some diags)
  /\ (forall j, j <> i -> nth_error (servers p') j = nth_error (servers p) j).
Proof.
  intros sl p i fields pfields uri diags p' outs s Hn Hm Hid Hr Hpar Huri Hdg Hd H.
  unfold dispatch in H. apply bind_Ok_inv in H as [[[p1 m1] o1] [Hp H]].
  injection H as <- <-.
  rewrite (process_unfold sl p i fields true _ s Hn) in Hp. cbv zeta in Hp.
  assert (Ei : field fields "id" = JNull) by (unfold field; rewrite Hid; reflexivity).
  assert (Em : field fields "method" = js "textDocument/publishDiagnostics")
    by (unfold field; rewrite Hm; reflexivity).
  rewrite Ei, Em, Hd, bind_Ok in Hp.
  assert (Hf : filter_msg (js "textDocument/publishDiagnostics") (is_primary s)
                 (preserved_requests ++ preserved_server_client_notifications) = false)
    by (unfold filter_msg; destruct (is_primary s); reflexivity).
  rewrite Hf, andb_false_r in Hp. cbn [negb] in Hp. rewrite bind_Ok in Hp.
  cbv beta iota in Hp.
  assert (Hpr : py_in (JStr (u "result")) (JObj fields) = Ok false)
    by (unfold py_in; rewrite Hr; reflexivity).
  unfold from_server_cases in Hp. rewrite Hpr, bind_Ok in Hp. cbv beta iota in Hp.
  rewrite bind_Ok in Hp. cbv beta iota in Hp.
  apply bind_Ok_inv in Hp as [[p2 m2] [Hs Hp]]. cbv beta iota in Hp. injection Hp as <- <- <-.
  unfold send_phase, js in Hs. rewrite py_eq_refl in Hs. cbn [andb] in Hs.
  unfold py_getitem at 1 in Hs. rewrite Hpar, bind_Ok in Hs.
  unfold py_getitem at 1 in Hs. rewrite Huri, bind_Ok in Hs.
  unfold py_getitem at 1 in Hs. rewrite Hdg, bind_Ok in Hs.
  rewrite (get_server_of_nth _ i s (nth_error_replace_same p i s s Hn)), bind_Ok in Hs.
  unfold d_set in Hs. destruct (hashable uri) eqn:Hh; [|discriminate].
  rewrite bind_Ok in Hs.
  apply bind_Ok_inv in Hs as [merged [Hmg Hs]].
  apply get_merged_diagnostics_spec in Hmg.
  unfold py_getitem at 1 in Hs. rewrite Hpar, bind_Ok in Hs.
  simpl in Hs. injection Hs as <- <-. subst merged.
  split; [reflexivity|]. split.
  - eexists. split.
    + apply (nth_error_replace_same _ i s). exact (nth_error_replace_same p i s s Hn).
    + apply d_find_set_raw_same.
  - intros j Hj.
    rewrite (nth_error_replace_other _ i j s) by (try exact (nth_error_replace_same p i s s Hn); assumption).
    apply (nth_error_replace_other p i j s); assumption.
Qed.

Lemma published_diagnostics_merged_witness :
  exists p' outs,
  dispatch dedup_first proxy_AB_ready (JObj diag_fields) (Some 0) = Ok (p', outs)
  /\ outs = [(Client, JObj (obj_set (u "params")
              (JObj (obj_set (u "diagnostics")
                       (JArr (concat (map (cached_diagnostics (js "file:///a.c")) (servers p'))))
                       diag_params))
              diag_fields))].
Proof.
  destruct (dispatch dedup_first proxy_AB_ready (JObj diag_fields) (Some 0))
    as [[p' outs]|e] eqn:E.
  - exists p', outs. split; [reflexivity|].
    refine (proj1 (published_diagnostics_merged dedup_first proxy_AB_ready 0 diag_fields
                     diag_params (js "file:///a.c")
                     (JArr [jo [("message", js "unused variable")%string]]) p' outs
                     (nth 0 (servers proxy_AB_ready) srv_A) _ _ _ _ _ _ _ _ E));
      vm_compute; reflexivity.
  - vm_compute in E. discriminate.
Defined.

(** ** C3: the synthesized initialize response *)

Lemma json_str_eqb_true : forall a b, json_str_eqb a b = true -> a = b.
Proof.
  intros [] []; simpl; try discriminate. intro H. apply ustr_eqb_eq in H. subst; reflexivity.
Qed.

Lemma json_str_eqb_refl : forall a, is_str a = true -> json_str_eqb a a = true.
Proof. intros [] H; simpl in *; try discriminate. apply ustr_eqb_refl. Qed.

Lemma existsb_json_str : forall x l,
  is_str x = true -> existsb (json_str_eqb x) l = true <-> In x l.
Proof.
  intros x l Hx. rewrite existsb_exists. split.
  - intros [y [Hy Hxy]]. apply json_str_eqb_true in Hxy. subst; exact Hy.
  - intro H. exists x. split; [exact H | apply json_str_eqb_refl; exact Hx].
Qed.

Lemma nodupb_NoDup : forall l, forallb is_str l = true -> nodupb l = true -> NoDup l.
Proof.
  induction l as [|x l IH]; intros Hs Hn; simpl in *; constructor.
  - apply andb_prop in Hs as [Hx _]. apply andb_prop in Hn as [Hn _].
    intro Hin. apply (existsb_json_str x l Hx) in Hin. rewrite Hin in Hn. discriminate.
  - apply andb_prop in Hs as [_ Hs]. apply andb_prop in Hn as [_ Hn]. auto.
Qed.

Lemma dedups_spec : forall l out,
  dedups l out = true -> NoDup out /\ (forall x, In x out <-> In x l).
Proof.
  unfold dedups. intros l out H.
  repeat match goal with H : _ && _ = true |- _ => apply andb_prop in H as [? ?] end.
  split; [apply nodupb_NoDup; assumption|].
  intro x. rewrite forallb_forall in *. split; intro Hin.
  - apply (existsb_json_str x l); auto.
  - apply (existsb_json_str x out); auto.
Qed.

Lemma forallb_is_str_hashable : forall l, forallb is_str l = true -> forallb hashable l = true.
Proof.
  induction l as [|x l IH]; simpl; [reflexivity|].
  intro H. apply andb_prop in H as [Hx Hl]. destruct x; try discriminate. simpl. auto.
Qed.

Lemma py_list_set_str : forall sl l, forallb is_str l = true -> py_list_set sl l = Ok (sl l).
Proof.
  intros sl l H. unfold py_list_set. rewrite forallb_is_str_hashable by exact H. reflexivity.
Qed.

Lemma wf_init_parts : forall s,
  wf_init_msg (initialize_msg s) = true ->
  exists fm rf, initialize_msg s = JObj fm /\ obj_lookup (u "result") fm = Some (JObj rf)
  /\ obj_lookup (u "capabilities") rf = Some (JObj (init_caps s))
  /\ kinds_field_ok (field (init_caps s) "codeActionProvider") = true
  /\ commands_field_ok (field (init_caps s) "executeCommandProvider") = true.
Proof.
  intros s H. unfold wf_init_msg, init_caps in *.
  destruct (initialize_msg s) as [| | | | |fm]; try discriminate.
  destruct (obj_lookup (u "result") fm) as [[| | | | |rf]|] eqn:Er; try discriminate.
  destruct (obj_lookup (u "capabilities") rf) as [[| | | | |c]|] eqn:Ec; try discriminate.
  apply andb_prop in H as [H1 H2]. exists fm, rf. repeat split; auto.
Qed.

Lemma obj_nonempty_truthy : forall k v m, obj_lookup k m = Some v -> py_truthy (JObj m) = true.
Proof. intros k v [|kv m] H; [discriminate | reflexivity]. Qed.

Lemma get_capabilities_wf : forall s,
  wf_init_msg (initialize_msg s) = true -> _get_capabilities s = Ok (JObj (init_caps s)).
Proof.
  intros s H. apply wf_init_parts in H as [fm [rf [Hm [Hr [Hc _]]]]].
  unfold _get_capabilities. rewrite Hm.
  rewrite (obj_nonempty_truthy _ _ _ Hr), safe_get_obj, Hr, bind_Ok, safe_get_obj, Hc.
  reflexivity.
Qed.

Lemma capability_field : forall c k,
  (if py_truthy (JObj c) then safe_get (JObj c) (u k) else Ok JNull) = Ok (field c k).
Proof.
  intros [|kv c] k; [reflexivity|]. simpl py_truthy. cbv iota. apply safe_get_field.
Qed.

Lemma get_formatting_capabilities_wf : forall s,
  wf_init_msg (initialize_msg s) = true ->
  get_formatting_capabilities s
  = Ok (field (init_caps s) "documentFormattingProvider",
        field (init_caps s) "documentRangeFormattingProvider").
Proof.
  intros s H. unfold get_formatting_capabilities. rewrite get_capabilities_wf, bind_Ok by exact H.
  destruct (init_caps s) as [|kv c]; [reflexivity|].
  simpl py_truthy. cbv iota. rewrite !safe_get_field. reflexivity.
Qed.

Lemma get_completion_capability_wf : forall s,
  wf_init_msg (initialize_msg s) = true ->
  get_completion_capability s = Ok (field (init_caps s) "completionProvider").
Proof.
  intros s H. unfold get_completion_capability.
  rewrite get_capabilities_wf, bind_Ok by exact H. apply capability_field.
Qed.

Lemma get_signature_capability_wf : forall s,
  wf_init_msg (initialize_msg s) = true ->
  get_signature_capability s = Ok (field (init_caps s) "signatureHelpProvider").
Proof.
  intros s H. unfold get_signature_capability.
  rewrite get_capabilities_wf, bind_Ok by exact H. apply capability_field.
Qed.

Lemma find_enumerate : forall (h : Server -> bool) l k,
  option_map snd (find (fun x => h (snd x)) (combine (seq k (List.length l)) l)) = find h l.
Proof.
  intros h l; induction l as [|s l IH]; intro k; simpl; [reflexivity|].
  destruct (h s); [reflexivity | apply IH].
Qed.

Lemma owner_by_spec_enumerate : forall (f g : Server -> bool) l,
  option_map snd (owner_by_spec (fun x => f (snd x)) (fun x => g (snd x)) (enumerate l))
  = owner_by_spec f g l.
Proof.
  intros f g l. unfold owner_by_spec, enumerate.
  pose proof (find_enumerate (fun s => f s && g s) l 0) as E1.
  destruct (find (fun x => f (snd x) && g (snd x)) (combine (seq 0 (List.length l)) l)) eqn:F;
    simpl in E1; rewrite <- E1; [reflexivity|].
  apply find_enumerate.
Qed.

Lemma in_enumerate : forall x (l : list Server), In x (enumerate l) -> In (snd x) l.
Proof. intros [i s] l H. simpl. apply in_combine_r in H. exact H. Qed.

Lemma owner_by_spec_in : forall {A} (f g : A -> bool) l s, owner_by_spec f g l = Some s -> In s l.
Proof.
  unfold owner_by_spec. intros A f g l s H.
  destruct (find (fun s => f s && g s) l) eqn:F.
  - injection H as <-. apply find_some in F. tauto.
  - apply find_some in H. tauto.
Qed.

Lemma get_server_generic_forall : forall {A} (cfg cap : A -> bool) (cond : A -> res bool) l,
  Forall (fun s => cond s = Ok (cap s)) l ->
  get_server_generic cfg cond l = Ok (owner_by_spec cfg cap l).
Proof.
  intros A cfg cap cond l H. unfold get_server_generic, owner_by_spec.
  rewrite (get_server_generic_loop_ok cfg cap cond l None H). reflexivity.
Qed.

Ltac wf_of_enumerate :=
  apply Forall_forall; intros x Hx; apply in_enumerate in Hx;
  match goal with Hw : forallb _ _ = true |- _ =>
    rewrite forallb_forall in Hw; specialize (Hw _ Hx) end.

Lemma get_formatting_server_wf : forall p,
  forallb (fun s => wf_init_msg (initialize_msg s)) (servers p) = true ->
  get_formatting_server p
  = Ok (owner_by_spec (fun x => use_formatting (snd x)) (fun x => formatting_capable (snd x))
          (enumerate (servers p))).
Proof.
  intros p Hw. apply get_server_generic_forall. wf_of_enumerate.
  rewrite get_formatting_capabilities_wf by exact Hw. reflexivity.
Qed.

Lemma get_completion_server_wf : forall p,
  forallb (fun s => wf_init_msg (initialize_msg s)) (servers p) = true ->
  get_completion_server p
  = Ok (owner_by_spec (fun x => use_completion (snd x)) (fun x => completion_capable (snd x))
          (enumerate (servers p))).
Proof.
  intros p Hw. apply get_server_generic_forall. wf_of_enumerate.
  rewrite get_completion_capability_wf by exact Hw. reflexivity.
Qed.

Lemma get_signature_server_wf : forall p,
  forallb (fun s => wf_init_msg (initialize_msg s)) (servers p) = true ->
  get_signature_server p
  = Ok (owner_by_spec (fun x => use_signature (snd x)) (fun x => signature_capable (snd x))
          (enumerate (servers p))).
Proof.
  intros p Hw. apply get_server_generic_forall. wf_of_enumerate.
  rewrite get_signature_capability_wf by exact Hw. reflexivity.
Qed.

Lemma py_getitem_obj : forall m k v, obj_lookup k m = Some v -> py_getitem (JObj m) k = Ok v.
Proof. intros m k v H. unfold py_getitem. rewrite H. reflexivity. Qed.

Lemma truthy_false_obj : forall m, py_truthy (JObj m) = false -> m = [].
Proof. intros [|kv m] H; [reflexivity | discriminate]. Qed.

Lemma forallb_is_str_iter : forall l, forallb is_str l = true -> py_iter (JArr l) = Ok l.
Proof. reflexivity. Qed.

(** One iteration of the loop, [codeActionProvider] half. *)
Lemma collect_kinds_step : forall srv code_action_kinds supports_code_action provider,
  kinds_field_ok provider = true ->
  exists srv1,
  (if py_truthy provider then
     has_kinds <-
       (match provider with
        | JObj _ => py_in (JStr (u "codeActionKinds")) provider
        | _ => Ok false
        end) ;;
     if has_kinds then
       kinds <- py_getitem provider (u "codeActionKinds") ;;
       it <- py_iter kinds ;;
       Ok (set_supported_code_action_kinds srv kinds, code_action_kinds ++ it, true)
     else Ok (srv, code_action_kinds, true)
   else Ok (srv, code_action_kinds, supports_code_action))
  = Ok (srv1,
        code_action_kinds ++
          match provider with
          | JObj m => match obj_lookup (u "codeActionKinds") m with Some (JArr l) => l | _ => [] end
          | _ => []
          end,
        supports_code_action || py_truthy provider)
  /\ initialize_msg srv1 = initialize_msg srv /\ pendings srv1 = pendings srv.
Proof.
  intros srv k sup pv Hk.
  destruct (py_truthy pv) eqn:Et.
  - destruct pv as [| | | | |m]; simpl in Hk |- *;
      try (exists srv; rewrite app_nil_r, orb_true_r; auto; fail).
    destruct (obj_lookup (u "codeActionKinds") m) as [v|] eqn:El.
    + destruct v; try discriminate. simpl.
      eexists. rewrite orb_true_r. split; [reflexivity | auto].
    + exists srv. rewrite app_nil_r, orb_true_r. auto.
  - exists srv. rewrite orb_false_r.
    destruct pv as [| | | | |m]; try (rewrite app_nil_r; auto; fail).
    apply truthy_false_obj in Et. subst m. rewrite app_nil_r. auto.
Qed.

(** One iteration of the loop, [executeCommandProvider] half. *)
Lemma collect_commands_step : forall srv1 commands provider,
  commands_field_ok provider = true ->
  exists srv2,
  (if py_truthy provider then
     has_commands <- py_in (JStr (u "commands")) provider ;;
     if has_commands then
       cmds <- py_getitem provider (u "commands") ;;
       it <- py_iter cmds ;;
       Ok (set_supported_commands srv1 cmds, commands ++ it)
     else Ok (srv1, commands)
   else Ok (srv1, commands))
  = Ok (srv2,
        commands ++
          match provider with
          | JObj m => match obj_lookup (u "commands") m with Some (JArr l) => l | _ => [] end
          | _ => []
          end)
  /\ initialize_msg srv2 = initialize_msg srv1 /\ pendings srv2 = pendings srv1.
Proof.
  intros srv c pv Hc.
  destruct (py_truthy pv) eqn:Et.
  - destruct pv as [| | | | |m]; unfold commands_field_ok in Hc; cbv iota in Hc;
      try (rewrite Et in Hc; discriminate). simpl in Hc |- *.
    destruct (obj_lookup (u "commands") m) as [v|] eqn:El.
    + destruct v; try discriminate. simpl.
      eexists. split; [reflexivity | auto].
    + exists srv. rewrite app_nil_r. auto.
  - exists srv.
    destruct pv as [| | | | |m]; try (rewrite app_nil_r; auto; fail).
    apply truthy_false_obj in Et. subst m. rewrite app_nil_r. auto.
Qed.

Lemma collect_wf : forall srvs k0 c0 sup0,
  forallb (fun s => wf_init_msg (initialize_msg s)) srvs = true ->
  exists srvs',
  collect_code_actions_commands srvs k0 c0 sup0
  = Ok (srvs', k0 ++ concat (map code_action_kinds_of srvs),
        c0 ++ concat (map commands_of srvs),
        sup0 || existsb code_action_capable srvs)
  /\ map initialize_msg srvs' = map initialize_msg srvs.
Proof.
  induction srvs as [|s srvs IH]; intros k0 c0 sup0 Hw.
  - exists []. simpl. rewrite !app_nil_r, orb_false_r. auto.
  - simpl in Hw. apply andb_prop in Hw as [Hs Hw].
    destruct (wf_init_parts s Hs) as [fm [rf [Hm [Hr [Hc [Hk Hcm]]]]]].
    cbn [collect_code_actions_commands].
    rewrite Hm, (py_getitem_obj _ _ _ Hr), bind_Ok, (py_getitem_obj _ _ _ Hc), bind_Ok,
      safe_get_field, bind_Ok.
    destruct (collect_kinds_step s k0 sup0 _ Hk) as [s1 [E1 [Hm1 _]]].
    rewrite E1, bind_Ok. cbv beta iota.
    rewrite safe_get_field, bind_Ok.
    destruct (collect_commands_step s1 c0 _ Hcm) as [s2 [E2 [Hm2 _]]].
    rewrite E2, bind_Ok. cbv beta iota.
    destruct (IH (k0 ++ code_action_kinds_of s) (c0 ++ commands_of s)
                 (sup0 || code_action_capable s) Hw) as [rest' [E3 Hm3]].
    unfold code_action_kinds_of, commands_of, code_action_capable in E3.
    rewrite E3, bind_Ok. cbv beta iota.
    exists (s2 :: rest'). split.
    + unfold code_action_kinds_of, commands_of, code_action_capable. simpl.
      rewrite !app_assoc, orb_assoc. reflexivity.
    + simpl. rewrite Hm3, Hm2, Hm1. reflexivity.
Qed.

Local Open Scope string_scope.

Lemma bind_ex : forall {A B} (m : res A) (k : A -> res B) (P : A -> Prop) (Q : B -> Prop),
  (exists a, m = Ok a /\ P a) ->
  (forall a, P a -> exists b, k a = Ok b /\ Q b) ->
  exists b, bind m k = Ok b /\ Q b.
Proof. intros A B m k P Q [a [-> Ha]] Hk. rewrite bind_Ok. apply Hk; exact Ha. Qed.

Lemma py_setitem_obj : forall m k v, py_setitem (JObj m) k v = Ok (JObj (obj_set k v m)).
Proof. reflexivity. Qed.

Lemma ustr_neq_of_eqb : forall a b, ustr_eqb a b = false -> a <> b.
Proof. intros a b H E. subst. rewrite ustr_eqb_refl in H. discriminate. Qed.

(** Distinct literal keys. *)
Ltac key_neq := apply ustr_neq_of_eqb; vm_compute; reflexivity.

(** Rewrite lookups through [obj_set]s of other keys. *)
Ltac lookup_simpl :=
  repeat first
    [ rewrite obj_lookup_set_same
    | rewrite obj_lookup_set_other by (first [key_neq | congruence | assumption | (intro; subst; auto)]) ].

Lemma get_primary_of : forall p prim,
  primary_server (servers p) = Some prim -> get_primary p = Ok prim.
Proof.
  intros p prim H. unfold get_primary, primary_server in *.
  destruct (servers p); [discriminate|]. injection H as <-. reflexivity.
Qed.

Lemma wf_owner : forall (f g : Server -> bool) l s,
  forallb (fun s => wf_init_msg (initialize_msg s)) l = true ->
  owner_by_spec f g l = Some s -> wf_init_msg (initialize_msg s) = true.
Proof.
  intros f g l s Hw Ho. apply owner_by_spec_in in Ho.
  rewrite forallb_forall in Hw. apply Hw; exact Ho.
Qed.

Lemma owner_enum : forall (f g : Server -> bool) l,
  match owner_by_spec (fun x => f (snd x)) (fun x => g (snd x)) (enumerate l) with
  | Some (_, s) => owner_by_spec f g l = Some s
  | None => owner_by_spec f g l = None
  end.
Proof.
  intros f g l. rewrite <- owner_by_spec_enumerate.
  destruct (owner_by_spec _ _ (enumerate l)) as [[i s]|]; reflexivity.
Qed.

Lemma formatting_stage : forall l c,
  forallb (fun s => wf_init_msg (initialize_msg s)) l = true ->
  exists c1,
  match owner_by_spec (fun x => use_formatting (snd x)) (fun x => formatting_capable (snd x))
          (enumerate l) with
  | Some (_, fs) =>
      fr <- get_formatting_capabilities fs ;;
      c0 <- py_setitem (JObj c) (u "documentFormattingProvider") (fst fr) ;;
      py_setitem c0 (u "documentRangeFormattingProvider") (snd fr)
  | None => Ok (JObj c)
  end = Ok (JObj c1)
  /\ obj_lookup (u "documentFormattingProvider") c1
     = match owner_by_spec use_formatting formatting_capable l with
       | Some s => Some (field (init_caps s) "documentFormattingProvider")
       | None => obj_lookup (u "documentFormattingProvider") c
       end
  /\ obj_lookup (u "documentRangeFormattingProvider") c1
     = match owner_by_spec use_formatting formatting_capable l with
       | Some s => Some (field (init_caps s) "documentRangeFormattingProvider")
       | None => obj_lookup (u "documentRangeFormattingProvider") c
       end
  /\ (forall k, k <> u "documentFormattingProvider" -> k <> u "documentRangeFormattingProvider" ->
        obj_lookup k c1 = obj_lookup k c).
Proof.
  intros l c Hw. pose proof (owner_enum use_formatting formatting_capable l) as Ho.
  revert Ho. destruct (owner_by_spec _ _ (enumerate l)) as [[i fs]|]; intro Ho; rewrite Ho.
  - rewrite (get_formatting_capabilities_wf fs (wf_owner _ _ _ _ Hw Ho)), bind_Ok.
    cbn [fst snd]. rewrite py_setitem_obj, bind_Ok, py_setitem_obj.
    eexists; split; [reflexivity|].
    split; [|split]; [lookup_simpl; reflexivity .. |].
    intros k H1 H2. lookup_simpl. reflexivity.
  - eexists; split; [reflexivity|]. auto.
Qed.

Lemma completion_stage : forall l c,
  forallb (fun s => wf_init_msg (initialize_msg s)) l = true ->
  exists c1,
  match owner_by_spec (fun x => use_completion (snd x)) (fun x => completion_capable (snd x))
          (enumerate l) with
  | Some (_, cs) =>
      completion <- get_completion_capability cs ;;
      py_setitem (JObj c) (u "completionProvider") completion
  | None => Ok (JObj c)
  end = Ok (JObj c1)
  /\ obj_lookup (u "completionProvider") c1
     = match owner_by_spec use_completion completion_capable l with
       | Some s => Some (field (init_caps s) "completionProvider")
       | None => obj_lookup (u "completionProvider") c
       end
  /\ (forall k, k <> u "completionProvider" -> obj_lookup k c1 = obj_lookup k c).
Proof.
  intros l c Hw. pose proof (owner_enum use_completion completion_capable l) as Ho.
  revert Ho. destruct (owner_by_spec _ _ (enumerate l)) as [[i cs]|]; intro Ho; rewrite Ho.
  - rewrite (get_completion_capability_wf cs (wf_owner _ _ _ _ Hw Ho)), bind_Ok, py_setitem_obj.
    eexists; split; [reflexivity|].
    split; [lookup_simpl; reflexivity|].
    intros k H1. lookup_simpl. reflexivity.
  - eexists; split; [reflexivity|]. auto.
Qed.

Lemma signature_stage : forall l c,
  forallb (fun s => wf_init_msg (initialize_msg s)) l = true ->
  exists c1,
  match owner_by_spec (fun x => use_signature (snd x)) (fun x => signature_capable (snd x))
          (enumerate l) with
  | Some (_, ss) =>
      signature <- get_signature_capability ss ;;
      py_setitem (JObj c) (u "signatureHelpProvider") signature
  | None => Ok (JObj c)
  end = Ok (JObj c1)
  /\ obj_lookup (u "signatureHelpProvider") c1
     = match owner_by_spec use_signature signature_capable l with
       | Some s => Some (field (init_caps s) "signatureHelpProvider")
       | None => obj_lookup (u "signatureHelpProvider") c
       end
  /\ (forall k, k <> u "signatureHelpProvider" -> obj_lookup k c1 = obj_lookup k c).
Proof.
  intros l c Hw. pose proof (owner_enum use_signature signature_capable l) as Ho.
  revert Ho. destruct (owner_by_spec _ _ (enumerate l)) as [[i ss]|]; intro Ho; rewrite Ho.
  - rewrite (get_signature_capability_wf ss (wf_owner _ _ _ _ Hw Ho)), bind_Ok, py_setitem_obj.
    eexists; split; [reflexivity|].
    split; [lookup_simpl; reflexivity|].
    intros k H1. lookup_simpl. reflexivity.
  - eexists; split; [reflexivity|]. auto.
Qed.

(** The [list(set(...))] blocks for code action kinds and commands. *)
Lemma set_field_stage : forall sl (b : bool) key sub (l : list json) c,
  dedups l (sl l) = true ->
  exists c1,
  (if b then
     c0 <- py_setitem (JObj c) key (JObj []) ;;
     items <- py_list_set sl l ;;
     cap <- py_getitem c0 key ;;
     cap <- py_setitem cap sub (JArr items) ;;
     py_setitem c0 key cap
   else Ok (JObj c)) = Ok (JObj c1)
  /\ (if b then
        exists items, obj_lookup key c1 = Some (JObj [(sub, JArr items)])
        /\ NoDup items /\ (forall x, In x items <-> In x l)
      else obj_lookup key c1 = obj_lookup key c)
  /\ (forall k, k <> key -> obj_lookup k c1 = obj_lookup k c).
Proof.
  intros sl b key sub l c Hd. destruct b.
  - assert (Hs : forallb is_str l = true)
      by (unfold dedups in Hd; repeat rewrite andb_true_iff in Hd; tauto).
    rewrite py_setitem_obj, bind_Ok, py_list_set_str, bind_Ok by exact Hs.
    rewrite (py_getitem_obj _ _ _ (obj_lookup_set_same _ _ _)), bind_Ok.
    rewrite py_setitem_obj, bind_Ok, py_setitem_obj.
    eexists; split; [reflexivity|]. split.
    + exists (sl l). rewrite obj_lookup_set_same. split; [reflexivity|].
      exact (dedups_spec _ _ Hd).
    + intros k Hk. lookup_simpl. reflexivity.
  - eexists; split; [reflexivity|]. auto.
Qed.

Lemma in_concat_map : forall {A B} (f : A -> list B) l x,
  In x (concat (map f l)) <-> exists a, In a l /\ In x (f a).
Proof.
  intros A B f l x. rewrite in_concat. split.
  - intros [y [Hy Hx]]. apply in_map_iff in Hy as [a [<- Ha]]. eauto.
  - intros [a [Ha Hx]]. exists (f a). split; [apply in_map; exact Ha | exact Hx].
Qed.

(** C3: when every server's cached initialize response is well formed
    (codeActionKinds and commands lists of strings) and [list(set(l))]
    returns the strings of [l] once each, [get_initialization_options]
    succeeds; it leaves the servers' cached responses unchanged (a deep copy),
    sets [result.serverInfo] to [{name: "lsp-proxy", version: "0.1"}],
    takes the formatting, completion and signatureHelp fields from their
    owner servers when an owner exists, sets [codeActionProvider] to
    [{codeActionKinds: kinds}] with [kinds] the duplicate-free union of all
    servers' codeActionKinds when some server advertises code actions, sets
    [executeCommandProvider] to [{commands: cmds}] with [cmds] the
    duplicate-free union of all commands when there are any, and keeps every
    other key of the message, of [result] and of [capabilities]. *)
Theorem initialize_response_synthesis :
  forall sl p prim fm rf c,
  forallb (fun s => wf_init_msg (initialize_msg s)) (servers p) = true ->
  primary_server (servers p) = Some prim ->
  initialize_msg prim = JObj fm ->
  obj_lookup (u "result") fm = Some (JObj rf) ->
  obj_lookup (u "capabilities") rf = Some (JObj c) ->
  dedups (concat (map code_action_kinds_of (servers p)))
    (sl (concat (map code_action_kinds_of (servers p)))) = true ->
  dedups (concat (map commands_of (servers p)))
    (sl (concat (map commands_of (servers p)))) = true ->
  exists fm' rf' c' p',
    get_initialization_options sl p = Ok (JObj fm', p')
    /\ map initialize_msg (servers p') = map initialize_msg (servers p)
    /\ obj_lookup (u "result") fm' = Some (JObj rf')
    /\ (forall k, k <> u "result" -> obj_lookup k fm' = obj_lookup k fm)
    /\ obj_lookup (u "serverInfo") rf'
       = Some (jo [("name", js "lsp-proxy"); ("version", js "0.1")])
    /\ obj_lookup (u "capabilities") rf' = Some (JObj c')
    /\ (forall k, k <> u "serverInfo" -> k <> u "capabilities" ->
          obj_lookup k rf' = obj_lookup k rf)
    /\ obj_lookup (u "documentFormattingProvider") c'
       = match owner_by_spec use_formatting formatting_capable (servers p) with
         | Some s => Some (field (init_caps s) "documentFormattingProvider")
         | None => obj_lookup (u "documentFormattingProvider") c
         end
    /\ obj_lookup (u "documentRangeFormattingProvider") c'
       = match owner_by_spec use_formatting formatting_capable (servers p) with
         | Some s => Some (field (init_caps s) "documentRangeFormattingProvider")
         | None => obj_lookup (u "documentRangeFormattingProvider") c
         end
    /\ obj_lookup (u "completionProvider") c'
       = match owner_by_spec use_completion completion_capable (servers p) with
         | Some s => Some (field (init_caps s) "completionProvider")
         | None => obj_lookup (u "completionProvider") c
         end
    /\ obj_lookup (u "signatureHelpProvider") c'
       = match owner_by_spec use_signature signature_capable (servers p) with
         | Some s => Some (field (init_caps s) "signatureHelpProvider")
         | None => obj_lookup (u "signatureHelpProvider") c
         end
    /\ (if existsb code_action_capable (servers p) then
          exists kinds,
            obj_lookup (u "codeActionProvider") c'
            = Some (JObj [(u "codeActionKinds", JArr kinds)])
            /\ NoDup kinds
            /\ (forall x, In x kinds <->
                  exists s, In s (servers p) /\ In x (code_action_kinds_of s))
        else obj_lookup (u "codeActionProvider") c' = obj_lookup (u "codeActionProvider") c)
    /\ (if Nat.ltb 0 (List.length (concat (map commands_of (servers p)))) then
          exists cmds,
            obj_lookup (u "executeCommandProvider") c'
            = Some (JObj [(u "commands", JArr cmds)])
            /\ NoDup cmds
            /\ (forall x, In x cmds <-> exists s, In s (servers p) /\ In x (commands_of s))
        else obj_lookup (u "executeCommandProvider") c'
             = obj_lookup (u "executeCommandProvider") c)
    /\ (forall k, ~ In k synthesized_keys -> obj_lookup k c' = obj_lookup k c).
Proof.
  intros sl p prim fm rf c Hw Hprim Hm Hr Hc Hk Hcmd.
  unfold get_initialization_options.
  rewrite (get_primary_of p prim Hprim), bind_Ok, Hm, (py_getitem_obj _ _ _ Hr), bind_Ok.
  rewrite !py_setitem_obj, !bind_Ok.
  rewrite (py_getitem_obj _ _ _ (obj_lookup_set_same _ _ _)), bind_Ok.
  rewrite py_setitem_obj, bind_Ok, py_setitem_obj, bind_Ok.
  rewrite (py_getitem_obj _ _ _ (obj_lookup_set_same _ _ _)), bind_Ok.
  rewrite py_setitem_obj, bind_Ok, py_setitem_obj, bind_Ok.
  rewrite (py_getitem_obj _ _ (JObj c)) by (lookup_simpl; exact Hc). rewrite bind_Ok.
  rewrite (get_formatting_server_wf p Hw), bind_Ok.
  destruct (formatting_stage (servers p) c Hw) as [c1 [E1 [F1 [F2 F3]]]].
  rewrite E1, bind_Ok, (get_completion_server_wf p Hw), bind_Ok.
  destruct (completion_stage (servers p) c1 Hw) as [c2 [E2 [G1 G2]]].
  rewrite E2, bind_Ok, (get_signature_server_wf p Hw), bind_Ok.
  destruct (signature_stage (servers p) c2 Hw) as [c3 [E3 [H1 H2]]].
  rewrite E3, bind_Ok.
  destruct (collect_wf (servers p) [] [] false Hw) as [srvs' [Ecol Hmsgs]].
  rewrite Ecol, bind_Ok. cbv beta iota. cbn [app orb].
  destruct (set_field_stage sl (existsb code_action_capable (servers p))
              (u "codeActionProvider") (u "codeActionKinds") _ c3 Hk) as [c4 [E4 [K1 K2]]].
  rewrite E4, bind_Ok.
  destruct (set_field_stage sl (Nat.ltb 0 (List.length (concat (map commands_of (servers p)))))
              (u "executeCommandProvider") (u "commands") _ c4 Hcmd) as [c5 [E5 [M1 M2]]].
  rewrite E5, bind_Ok, py_setitem_obj, bind_Ok, py_setitem_obj, bind_Ok.
  do 4 eexists. split; [reflexivity|].
  split; [exact Hmsgs|].
  split; [lookup_simpl; reflexivity|].
  split; [intros k Hk'; lookup_simpl; reflexivity|].
  split; [lookup_simpl; reflexivity|].
  split; [lookup_simpl; reflexivity|].
  split; [intros k Hk1 Hk2; lookup_simpl; reflexivity|].
  split; [rewrite M2, K2, H2, G2, F1 by key_neq; reflexivity|].
  split; [rewrite M2, K2, H2, G2, F2 by key_neq; reflexivity|].
  split.
  { rewrite M2, K2, H2, G1 by key_neq.
    destruct (owner_by_spec use_completion completion_capable (servers p));
      [reflexivity | apply F3; key_neq]. }
  split.
  { rewrite M2, K2, H1 by key_neq.
    destruct (owner_by_spec use_signature signature_capable (servers p));
      [reflexivity | rewrite G2, F3 by key_neq; reflexivity]. }
  split; [|split].
  - rewrite M2 by key_neq. destruct (existsb code_action_capable (servers p)).
    + destruct K1 as [kinds [L1 [L2 L3]]]. exists kinds. split; [exact L1|]. split; [exact L2|].
      intro x. rewrite L3. apply in_concat_map.
    + rewrite K1, H2, G2, F3 by key_neq. reflexivity.
  - destruct (Nat.ltb 0 _).
    + destruct M1 as [cmds [L1 [L2 L3]]]. exists cmds. split; [exact L1|]. split; [exact L2|].
      intro x. rewrite L3. apply in_concat_map.
    + rewrite M1, K2, H2, G2, F3 by key_neq. reflexivity.
  - intros k Hnk. unfold synthesized_keys in Hnk. cbn [map In] in Hnk.
    rewrite M2, K2, H2, G2, F3 by (intro; subst; tauto). reflexivity.
Qed.

(** The synthesis on two initialized servers. *)
Lemma initialize_response_synthesis_witness :
  exists fm' rf' c' p',
    get_initialization_options dedup_first proxy_AB_ready = Ok (JObj fm', p')
    /\ obj_lookup (u "result") fm' = Some (JObj rf')
    /\ obj_lookup (u "capabilities") rf' = Some (JObj c')
    /\ obj_lookup (u "serverInfo") rf'
       = Some (jo [("name", js "lsp-proxy"); ("version", js "0.1")]).
Proof.
  edestruct (initialize_response_synthesis dedup_first proxy_AB_ready)
    as [fm' [rf' [c' [p' [E [_ [R [_ [SI [C _]]]]]]]]]];
    [vm_compute; reflexivity | reflexivity | reflexivity | reflexivity | reflexivity
    | vm_compute; reflexivity | vm_compute; reflexivity |].
  exists fm', rf', c', p'. auto.
Defined.

(** ** C9: the initialize and shutdown answers of the servers *)

Lemma d_find_existsb : forall k d,
  existsb (fun kv => py_eq k (fst kv)) d = match d_find k d with Some _ => true | None => false end.
Proof.
  intros k d; induction d as [|[k' v] d IH]; simpl; [reflexivity|].
  destruct (py_eq k k'); [reflexivity | exact IH].
Qed.

Lemma d_del_raw_absent : forall k d, d_find k d = None -> d_del_raw k d = d.
Proof.
  intros k d; induction d as [|[k' v] d IH]; simpl; intro H; [reflexivity|].
  destruct (py_eq k k'); [discriminate | f_equal; auto].
Qed.

Lemma set_pending_cs_same : forall s, set_pending_cs s (pending_client_server_requests s) = s.
Proof. intros []; reflexivity. Qed.

Lemma firstn_prefix : forall {A} n (l r : list A),
  n <= List.length l -> firstn n (firstn n l ++ r) = firstn n l.
Proof.
  intros A n; induction n as [|n IH]; intros l r H; [reflexivity|].
  destruct l as [|x l]; simpl in *; [lia|]. f_equal. apply IH. lia.
Qed.

Lemma skipn_prefix : forall {A} n (l r : list A) x,
  n <= List.length l -> skipn (S n) (firstn n l ++ x :: r) = r.
Proof.
  intros A n; induction n as [|n IH]; intros l r x H; [reflexivity|].
  destruct l as [|y l]; simpl in *; [lia|]. apply IH. lia.
Qed.

Lemma replace_server_twice : forall p i s s1 s2,
  nth_error (servers p) i = Some s ->
  replace_server (replace_server p i s1) i s2 = replace_server p i s2.
Proof.
  intros p i s s1 s2 Hn. unfold replace_server; cbn [servers initialize_id shutdown_id code_action_ids].
  assert (Hi : i < List.length (servers p)) by (apply nth_error_Some; congruence).
  rewrite firstn_prefix, skipn_prefix by lia. reflexivity.
Qed.

Lemma py_in_result_true : forall fields,
  obj_lookup (u "result") fields <> None -> py_in (JStr (u "result")) (JObj fields) = Ok true.
Proof.
  intros fields H. simpl. destruct (obj_lookup (u "result") fields); [reflexivity | congruence].
Qed.

(** The first half of [process] for a server's answer without a
    ['method'] key: the server is replaced by [answered s iden]. *)
Lemma answer_head : forall sl p i s fields preserved,
  nth_error (servers p) i = Some s ->
  obj_lookup (u "method") fields = None ->
  hashable (field fields "id") = true ->
  exists should_send m,
    (m = JNull \/ d_find (field fields "id") (pending_client_server_requests s) = Some m)
    /\ process sl p i (JObj fields) true preserved
       = (st2 <- from_server_cases sl (replace_server p i (answered s (field fields "id")))
                   i (JObj fields) (field fields "id") should_send ;;
          let '(p, msg, should_send) := st2 in
          if should_send then
            st3 <- send_phase p i msg true m ;;
            let '(p, msg) := st3 in
            Ok (p, msg, Some msg)
          else Ok (p, msg, None)).
Proof.
  intros sl p i s fields preserved Hn Hm Hh.
  rewrite (process_unfold sl p i fields true preserved s Hn). cbv zeta.
  assert (Hf : field fields "method" = JNull) by (unfold field; rewrite Hm; reflexivity).
  rewrite Hf. unfold d_in. rewrite Hh, bind_Ok, d_find_existsb.
  destruct (d_find (field fields "id") (pending_client_server_requests s)) as [m|] eqn:Ef.
  - unfold d_get, d_del. rewrite Hh, Ef, !bind_Ok. cbv beta iota.
    exists true, m. split; [right; reflexivity | reflexivity].
  - unfold answered. rewrite d_del_raw_absent, set_pending_cs_same by exact Ef.
    destruct (negb (filter_msg JNull (is_primary s) preserved)); cbn [py_truthy andb]; rewrite bind_Ok;
      eexists; exists JNull; (split; [left; reflexivity | reflexivity]).
Qed.

Lemma send_phase_not_diag : forall p i msg m,
  py_eq m (JStr (u "textDocument/publishDiagnostics")) = false ->
  send_phase p i msg true m = Ok (p, msg).
Proof. intros p i msg m H. unfold send_phase. rewrite H. reflexivity. Qed.

(** Answers with a ['result'] key to [initialize] and [shutdown] are
    gated.  Take a server's answer that carries a ['result'] key
    and no ['method'] key, with a hashable id whose pending entry (if
    any) is not [textDocument/publishDiagnostics]. If its id equals
    [initialize_id], the answer is stored as the server's initialize
    response; the client receives nothing unless every server now has a
    (truthy) stored response, and then exactly one message, the
    synthesized response of [get_initialization_options]. If its id
    equals [shutdown_id] instead, the server is marked as shut down; the
    client receives the answer, once, only when every server is marked. *)
Theorem result_answers_gated :
  forall sl p i s fields,
  nth_error (servers p) i = Some s ->
  obj_lookup (u "result") fields <> None ->
  obj_lookup (u "method") fields = None ->
  hashable (field fields "id") = true ->
  (forall m, d_find (field fields "id") (pending_client_server_requests s) = Some m ->
     py_eq m (JStr (u "textDocument/publishDiagnostics")) = false) ->
  (py_eq (field fields "id") (initialize_id p) = true ->
     dispatch sl p (JObj fields) (Some i)
     = if all_initialized (store_initialize p i s fields) then
         r <- get_initialization_options sl (store_initialize p i s fields) ;;
         let '(m, p2) := r in Ok (p2, [(Client, m)])
       else Ok (store_initialize p i s fields, []))
  /\ (py_eq (field fields "id") (initialize_id p) = false ->
      py_eq (field fields "id") (shutdown_id p) = true ->
      dispatch sl p (JObj fields) (Some i)
      = Ok (store_shutdown p i s (field fields "id"),
            if all_shutdown (store_shutdown p i s (field fields "id"))
            then [(Client, JObj fields)] else [])).
Proof.
  intros sl p i s fields Hn Hr Hm Hh Hd.
  destruct (answer_head sl p i s fields
              (preserved_requests ++ preserved_server_client_notifications) Hn Hm Hh)
    as [ss [m [Hmeth E]]].
  assert (Hdiag : py_eq m (JStr (u "textDocument/publishDiagnostics")) = false)
    by (destruct Hmeth as [-> | Hf]; [reflexivity | exact (Hd m Hf)]).
  assert (Hn' : nth_error (servers (replace_server p i (answered s (field fields "id")))) i
                = Some (answered s (field fields "id")))
    by (eapply nth_error_replace_same; exact Hn).
  unfold dispatch. rewrite E. clear E.
  unfold from_server_cases. rewrite py_in_result_true, bind_Ok by exact Hr.
  cbn [initialize_id shutdown_id replace_server].
  split.
  - intro Hi. rewrite Hi, (get_server_of_nth _ _ _ Hn'), bind_Ok.
    rewrite (replace_server_twice p i s) by exact Hn. fold (store_initialize p i s fields).
    destruct (all_initialized (store_initialize p i s fields)).
    + destruct (get_initialization_options sl (store_initialize p i s fields)) as [[m' p2]|e];
        rewrite ?bind_Ok; cbv beta iota; [|reflexivity].
      rewrite send_phase_not_diag, !bind_Ok by exact Hdiag. reflexivity.
    + rewrite bind_Ok. reflexivity.
  - intros Hi Hs. rewrite Hi, Hs, (get_server_of_nth _ _ _ Hn'), bind_Ok.
    rewrite (replace_server_twice p i s) by exact Hn.
    fold (store_shutdown p i s (field fields "id")).
    rewrite bind_Ok. destruct (all_shutdown (store_shutdown p i s (field fields "id"))).
    + rewrite send_phase_not_diag, !bind_Ok by exact Hdiag. reflexivity.
    + reflexivity.
Qed.

(** [B]'s initialize answer after [A]'s: the synthesized response is the
    one message for the client. *)
Lemma result_answers_gated_witness :
  all_initialized (store_initialize proxy_A_answered 1 (nth 1 (servers proxy_A_answered) srv_B)
                     (obj_fields (init_resp (JInt 1) caps_B))) = true
  /\ dispatch dedup_first proxy_A_answered (JObj (obj_fields (init_resp (JInt 1) caps_B))) (Some 1)
     = (r <- get_initialization_options dedup_first
               (store_initialize proxy_A_answered 1 (nth 1 (servers proxy_A_answered) srv_B) (obj_fields (init_resp (JInt 1) caps_B))) ;;
        let '(m, p2) := r in Ok (p2, [(Client, m)])).
Proof.
  split; [vm_compute; reflexivity|].
  rewrite (proj1 (result_answers_gated dedup_first proxy_A_answered 1 (nth 1 (servers proxy_A_answered) srv_B)
                    (obj_fields (init_resp (JInt 1) caps_B))
                    ltac:(vm_compute; reflexivity) ltac:(vm_compute; discriminate)
                    ltac:(vm_compute; reflexivity) ltac:(vm_compute; reflexivity)
                    ltac:(intros m Hm; vm_compute in Hm; injection Hm as <-; reflexivity))
             ltac:(vm_compute; reflexivity)).
  vm_compute. reflexivity.
Defined.

Local Close Scope string_scope.

(** ** C8: framing round trip *)

Section Roundtrip.
Local Open Scope Z_scope.

Lemma pos_lt_pow2_size : forall p, Zpos p < 2 ^ Z.of_nat (Pos.size_nat p).
Proof.
  induction p as [p IH|p IH|]; cbn [Pos.size_nat].
  - rewrite Nat2Z.inj_succ, Z.pow_succ_r, Pos2Z.inj_xI by lia. lia.
  - rewrite Nat2Z.inj_succ, Z.pow_succ_r, Pos2Z.inj_xO by lia. lia.
  - reflexivity.
Qed.

Lemma digits_value_shift : forall l a, digits_value l a = a * 10 ^ Z.of_nat (List.length l) + digits_value l 0.
Proof.
  induction l as [|d l IH]; intro a; cbn [digits_value List.length]; [lia|].
  rewrite (IH (a * 10 + (d - 48))), (IH (0 * 10 + (d - 48))).
  rewrite Nat2Z.inj_succ, Z.pow_succ_r by lia. lia.
Qed.

Lemma digits_value_app : forall l1 l2 a, digits_value (l1 ++ l2) a = digits_value l2 (digits_value l1 a).
Proof. induction l1 as [|d l1 IH]; intros; simpl; auto. Qed.

Lemma digits_loop_spec : forall f n acc,
  0 < n -> n < 2 ^ Z.of_nat f ->
  exists d D, digits_loop f n acc = (d :: D) ++ acc
    /\ 49 <= d <= 57 /\ forallb is_digit D = true
    /\ digits_value (d :: D) 0 = n.
Proof.
  induction f as [|f IH]; intros n acc Hn Hf; [simpl in Hf; lia|].
  cbn [digits_loop].
  assert (Hm : 0 <= n mod 10 < 10) by (apply Z.mod_pos_bound; lia).
  destruct (n / 10 =? 0) eqn:Hq.
  - apply Z.eqb_eq in Hq. exists (48 + n mod 10), [].
    pose proof (Z.div_mod n 10 ltac:(lia)).
    split; [reflexivity|]. split; [lia|]. split; [reflexivity|]. cbn [digits_value]. lia.
  - apply Z.eqb_neq in Hq.
    assert (Hq' : 0 < n / 10) by (pose proof (Z.div_pos n 10 ltac:(lia) ltac:(lia)); lia).
    assert (Hf' : n / 10 < 2 ^ Z.of_nat f).
    { rewrite Nat2Z.inj_succ, Z.pow_succ_r in Hf by lia.
      apply Z.div_lt_upper_bound; lia. }
    destruct (IH (n / 10) ((48 + n mod 10) :: acc) Hq' Hf') as [d [D [E [Hd [HD Hv]]]]].
    exists d, (D ++ [48 + n mod 10]). rewrite E. split; [cbn [app]; rewrite <- app_assoc; reflexivity|].
    split; [exact Hd|]. split.
    + rewrite forallb_app, HD. cbn [forallb andb]. unfold is_digit. rewrite andb_true_r.
      apply andb_true_intro; split; apply Z.leb_le; lia.
    + change (d :: D ++ [48 + n mod 10]) with ((d :: D) ++ [48 + n mod 10]).
      rewrite digits_value_app, Hv. cbn [digits_value]. pose proof (Z.div_mod n 10 ltac:(lia)). lia.
Qed.

(** [decimal n] for [n > 0]: a leading non-zero digit, then digits. *)
Lemma decimal_pos : forall n, 0 < n ->
  exists d D, decimal n = d :: D /\ 49 <= d <= 57 /\ forallb is_digit D = true
    /\ digits_value (d :: D) 0 = n.
Proof.
  intros [|p|p] Hn; try lia. unfold decimal.
  destruct (digits_loop_spec (Pos.size_nat p) (Zpos p) [] Hn (pos_lt_pow2_size p))
    as [d [D [E H]]].
  exists d, D. rewrite E, app_nil_r. auto.
Qed.

Lemma digits_value_nonneg : forall l a, 0 <= a -> forallb is_digit l = true -> 0 <= digits_value l a.
Proof.
  induction l as [|d l IH]; intros a Ha H; simpl in *; [lia|].
  apply andb_prop in H as [Hd H]. unfold is_digit in Hd.
  apply andb_prop in Hd as [H1 H2]. apply Z.leb_le in H1, H2. apply IH; [lia | exact H].
Qed.

(** Fewer than [k] digits for a number below [10 ^ k]. *)
Lemma decimal_length_bound : forall n k, 0 < n -> 0 <= k -> n < 10 ^ k ->
  forall d D, decimal n = d :: D -> 49 <= d <= 57 -> forallb is_digit D = true ->
  digits_value (d :: D) 0 = n -> Z.of_nat (List.length (d :: D)) <= k.
Proof.
  intros n k Hn Hk Hlt d D _ Hd HD Hv.
  simpl in Hv. rewrite digits_value_shift in Hv.
  pose proof (digits_value_nonneg D 0 ltac:(lia) HD).
  cbn [List.length]. rewrite Nat2Z.inj_succ.
  destruct (Z.le_gt_cases (Z.succ (Z.of_nat (List.length D))) k) as [|Hc]; [lia|].
  exfalso. assert (10 ^ k <= 10 ^ Z.of_nat (List.length D))
    by (apply Z.pow_le_mono_r; lia).
  nia.
Qed.

End Roundtrip.

Section Roundtrip_text.
Local Open Scope Z_scope.

Ltac eqb_cases :=
  repeat match goal with
         | |- context [Z.eqb ?x ?y] =>
             let E := fresh "E" in destruct (Z.eqb_spec x y) as [E|E]; [try lia|]
         end.

Lemma printable_range : forall c, printable c = true -> 32 <= c <= 126.
Proof. unfold printable; intros c H. apply andb_prop in H as [H1 H2]. apply Z.leb_le in H1, H2. lia. Qed.

Lemma hex_digit_printable : forall d, 0 <= d < 16 -> printable (hex_digit d) = true.
Proof.
  intros d H. unfold hex_digit, printable.
  destruct (Z.ltb_spec d 10); apply andb_true_intro; split; apply Z.leb_le; lia.
Qed.

Lemma hex4_printable : forall c, forallb printable (hex4 c) = true.
Proof.
  intro c. unfold hex4. cbn [forallb].
  rewrite !hex_digit_printable by (apply Z.mod_pos_bound; lia). reflexivity.
Qed.

Lemma escape_char_printable : forall c, forallb printable (escape_char c) = true.
Proof.
  intro c. unfold escape_char.
  repeat match goal with |- context [if ?b then _ else _] => destruct b eqn:? end;
    cbv zeta; cbn [forallb]; rewrite ?forallb_app; cbn [forallb]; rewrite ?hex4_printable;
    try reflexivity.
  unfold printable. rewrite andb_true_r. assumption.
Qed.

Lemma decimal_digits : forall n, 0 <= n -> forallb is_digit (decimal n) = true.
Proof.
  intros n Hn. destruct (Z.eq_dec n 0) as [->|Hn']; [reflexivity|].
  destruct (decimal_pos n ltac:(lia)) as [d [D [-> [Hd [HD _]]]]].
  cbn [forallb]. rewrite HD. unfold is_digit.
  replace ((48 <=? d) && (d <=? 57)) with true; [reflexivity|].
  symmetry. apply andb_true_intro; split; apply Z.leb_le; lia.
Qed.

Lemma digit_printable : forall l, forallb is_digit l = true -> forallb printable l = true.
Proof.
  induction l as [|d l IH]; cbn [forallb]; intro H; [reflexivity|].
  apply andb_prop in H as [Hd H]. unfold is_digit, printable in *.
  apply andb_prop in Hd as [H1 H2]. apply Z.leb_le in H1, H2.
  rewrite IH by exact H. replace ((32 <=? d) && (d <=? 126)) with true; [reflexivity|].
  symmetry. apply andb_true_intro; split; apply Z.leb_le; lia.
Qed.

Lemma join_comma_printable : forall parts,
  Forall (fun x => forallb printable x = true) parts -> forallb printable (join_comma parts) = true.
Proof.
  intros parts H. induction H as [|x r Hx Hr IH]; [reflexivity|].
  destruct r as [|y r]; [exact Hx|].
  change (join_comma (x :: y :: r)) with (x ++ 44 :: 32 :: join_comma (y :: r)).
  rewrite forallb_app, Hx. exact IH.
Qed.

Lemma encode_str_printable : forall s, forallb printable (encode_str s) = true.
Proof.
  intro s. unfold encode_str. cbn [forallb]. rewrite forallb_app.
  replace (forallb printable (concat (map escape_char s))) with true; [reflexivity|].
  symmetry. induction s as [|c s IH]; [reflexivity|].
  cbn [map concat]. rewrite forallb_app, escape_char_printable. exact IH.
Qed.

Lemma encode_json_printable : forall v, forallb printable (encode_json v) = true.
Proof.
  induction v using json_ind'; cbn [encode_json].
  - reflexivity.
  - destruct b; reflexivity.
  - rewrite forallb_app, (digit_printable _ (decimal_digits (Z.abs z) ltac:(lia))).
    destruct (z <? 0); reflexivity.
  - apply encode_str_printable.
  - cbn [forallb]. rewrite forallb_app, join_comma_printable; [reflexivity|].
    apply Forall_map. exact H.
  - cbn [forallb]. rewrite forallb_app, join_comma_printable; [reflexivity|].
    apply Forall_map. eapply Forall_impl; [|exact H]. intros [k v] Hv. cbn [fst snd] in *.
    rewrite forallb_app, encode_str_printable. cbn [forallb]. exact Hv.
Qed.

Lemma utf8_encode_printable : forall s, forallb printable s = true -> utf8_encode s = Ok s.
Proof.
  induction s as [|c s IH]; intro H; [reflexivity|].
  cbn [forallb] in H. apply andb_prop in H as [Hc H]. apply printable_range in Hc.
  cbn [utf8_encode]. unfold utf8_encode_char.
  destruct (Z.ltb_spec c 128); [|lia]. rewrite bind_Ok, IH, bind_Ok by exact H. reflexivity.
Qed.

Lemma utf8_decode_printable : forall s f, (List.length s <= f)%nat -> forallb printable s = true ->
  utf8_decode_fuel f s = Some s.
Proof.
  induction s as [|c s IH]; intros f Hf H; destruct f as [|f]; try reflexivity.
  - simpl in Hf; lia.
  - cbn [forallb] in H. apply andb_prop in H as [Hc H]. apply printable_range in Hc.
    cbn [utf8_decode_fuel]. destruct (Z.ltb_spec c 128); [|lia].
    rewrite IH by (simpl in Hf; lia || exact H). reflexivity.
Qed.

Lemma detect_encoding_printable : forall s, forallb printable s = true -> detect_encoding s = Utf8.
Proof.
  intros s H.
  destruct s as [|b0 [|b1 [|b2 [|b3 r]]]]; [reflexivity|..];
    cbn [forallb] in H;
    repeat match goal with
           | H : _ && _ = true |- _ => apply andb_prop in H as [? ?]
           | H : printable _ = true |- _ => apply printable_range in H
           end;
    unfold detect_encoding, starts_with; cbn [ustr_prefixb]; eqb_cases; reflexivity.
Qed.

End Roundtrip_text.

Section Roundtrip_strings.
Local Open Scope Z_scope.

Lemma hex_val_digit : forall d, 0 <= d < 16 -> hex_val (hex_digit d) = Some d.
Proof.
  intros d H. unfold hex_digit, hex_val.
  destruct (Z.ltb_spec d 10).
  - replace ((48 <=? 48 + d) && (48 + d <=? 57)) with true
      by (symmetry; apply andb_true_intro; split; apply Z.leb_le; lia).
    f_equal; lia.
  - replace ((48 <=? 87 + d) && (87 + d <=? 57)) with false
      by (symmetry; apply andb_false_iff; right; apply Z.leb_gt; lia).
    replace ((97 <=? 87 + d) && (87 + d <=? 102)) with true
      by (symmetry; apply andb_true_intro; split; apply Z.leb_le; lia).
    f_equal; lia.
Qed.

Lemma hex4_val_hex4 : forall c, 0 <= c < 65536 -> hex4_val (hex4 c) = Some c.
Proof.
  intros c H. unfold hex4, hex4_val.
  rewrite !hex_val_digit by (apply Z.mod_pos_bound; lia). f_equal.
  rewrite !Z.shiftr_div_pow2 by lia.
  change (2 ^ 12) with (16 * 16 * 16). change (2 ^ 8) with (16 * 16). change (2 ^ 4) with 16.
  rewrite <- !Z.div_div by lia.
  pose proof (Z.div_mod c 16 ltac:(lia)).
  pose proof (Z.div_mod (c / 16) 16 ltac:(lia)).
  pose proof (Z.div_mod (c / 16 / 16) 16 ltac:(lia)).
  assert (c / 16 / 16 / 16 < 16).
  { apply Z.div_lt_upper_bound; [lia|]. apply Z.div_lt_upper_bound; [lia|].
    apply Z.div_lt_upper_bound; lia. }
  assert (0 <= c / 16 / 16 / 16) by (repeat apply Z.div_pos; lia).
  rewrite (Z.mod_small (c / 16 / 16 / 16) 16) by lia. lia.
Qed.

Lemma length_hex4 : forall c, List.length (hex4 c) = 4%nat.
Proof. reflexivity. Qed.

Lemma firstn_hex4 : forall c (T : list Z), firstn 4 (hex4 c ++ T) = hex4 c.
Proof. reflexivity. Qed.

Lemma skipn_hex4 : forall c (T : list Z), skipn 4 (hex4 c ++ T) = T.
Proof. reflexivity. Qed.

Lemma lor_55296 : forall m, 0 <= m < 1024 -> Z.lor 55296 m = 55296 + m.
Proof.
  intros m Hm.
  assert (H : forallb (fun k => Z.lor 55296 (Z.of_nat k) =? 55296 + Z.of_nat k) (seq 0 1024) = true)
    by (vm_compute; reflexivity).
  rewrite forallb_forall in H. specialize (H (Z.to_nat m) ltac:(apply in_seq; lia)).
  rewrite Z2Nat.id in H by lia. apply Z.eqb_eq. exact H.
Qed.

Lemma lor_56320 : forall m, 0 <= m < 1024 -> Z.lor 56320 m = 56320 + m.
Proof.
  intros m Hm.
  assert (H : forallb (fun k => Z.lor 56320 (Z.of_nat k) =? 56320 + Z.of_nat k) (seq 0 1024) = true)
    by (vm_compute; reflexivity).
  rewrite forallb_forall in H. specialize (H (Z.to_nat m) ltac:(apply in_seq; lia)).
  rewrite Z2Nat.id in H by lia. apply Z.eqb_eq. exact H.
Qed.

Lemma land_1023 : forall x, Z.land x 1023 = x mod 1024.
Proof. intro x. change 1023 with (Z.ones 10). rewrite Z.land_ones by lia. reflexivity. Qed.

(** The two escapes of an astral code point. *)
Lemma astral_parts : forall c, 65536 <= c <= 1114111 ->
  let n := c - 65536 in
  let hi := Z.lor 55296 (Z.land (Z.shiftr n 10) 1023) in
  let lo := Z.lor 56320 (Z.land n 1023) in
  55296 <= hi <= 56319 /\ 56320 <= lo <= 57343 /\ join_surrogates hi lo = c.
Proof.
  intros c Hc n hi lo. subst n hi lo.
  rewrite !land_1023, Z.shiftr_div_pow2 by lia. change (2 ^ 10) with 1024.
  assert (0 <= (c - 65536) / 1024 < 1024)
    by (split; [apply Z.div_pos | apply Z.div_lt_upper_bound]; lia).
  rewrite (Z.mod_small ((c - 65536) / 1024)) by lia.
  pose proof (Z.mod_pos_bound (c - 65536) 1024 ltac:(lia)).
  rewrite lor_55296, lor_56320 by lia.
  unfold join_surrogates. rewrite Z.shiftl_mul_pow2 by lia. change (2 ^ 10) with 1024.
  pose proof (Z.div_mod (c - 65536) 1024 ltac:(lia)). lia.
Qed.

Lemma is_high_true : forall v, 55296 <= v <= 56319 -> is_high v = true.
Proof. intros v H. unfold is_high. apply andb_true_intro; split; apply Z.leb_le; lia. Qed.
Lemma is_low_true : forall v, 56320 <= v <= 57343 -> is_low v = true.
Proof. intros v H. unfold is_low. apply andb_true_intro; split; apply Z.leb_le; lia. Qed.
Lemma is_low_false : forall v, 55296 <= v <= 56319 -> is_low v = false.
Proof. intros v H. unfold is_low. apply andb_false_iff; left; apply Z.leb_gt; lia. Qed.

(** After a [\uXXXX] escape of a high surrogate, [scanstring] goes on
    as usual unless a [\u] escape of a low surrogate follows. *)
Lemma scan_after_high : forall {X} (T : ustr) (A : ustr -> Z -> X) (B C : X),
  (forall r3, T = 92 :: 117 :: r3 -> exists w, hex4_val (firstn 4 r3) = Some w /\ is_low w = false) ->
  match T with
  | 92 :: 117 :: r3 =>
      match hex4_val (firstn 4 r3) with
      | None => C
      | Some v2 => if is_low v2 then A r3 v2 else B
      end
  | _ => B
  end = B.
Proof.
  intros X T A B C H.
  destruct T as [|a [|b T]]; [reflexivity | |];
    repeat match goal with
           | |- context [match ?x with _ => _ end] => is_var x; destruct x; try reflexivity
           end.
  destruct (H T eq_refl) as [w [-> ->]]. reflexivity.
Qed.

Lemma escape_cases : forall c,
  (c = 92 /\ escape_char c = [92; 92])
  \/ (c = 34 /\ escape_char c = [92; 34])
  \/ (c = 8 /\ escape_char c = [92; 98])
  \/ (c = 12 /\ escape_char c = [92; 102])
  \/ (c = 10 /\ escape_char c = [92; 110])
  \/ (c = 13 /\ escape_char c = [92; 114])
  \/ (c = 9 /\ escape_char c = [92; 116])
  \/ (32 <= c <= 126 /\ c <> 92 /\ c <> 34 /\ escape_char c = [c])
  \/ (c < 65536 /\ (c < 32 \/ 126 < c) /\ c <> 8 /\ c <> 9 /\ c <> 10 /\ c <> 12 /\ c <> 13
      /\ escape_char c = 92 :: 117 :: hex4 c)
  \/ (65536 <= c /\ escape_char c =
        92 :: 117 :: hex4 (Z.lor 55296 (Z.land (Z.shiftr (c - 65536) 10) 1023))
        ++ 92 :: 117 :: hex4 (Z.lor 56320 (Z.land (c - 65536) 1023))).
Proof.
  intro c. unfold escape_char.
  destruct (Z.eqb_spec c 92); [left; auto|].
  destruct (Z.eqb_spec c 34); [do 1 right; left; auto|].
  destruct (Z.eqb_spec c 8); [do 2 right; left; auto|].
  destruct (Z.eqb_spec c 12); [do 3 right; left; auto|].
  destruct (Z.eqb_spec c 10); [do 4 right; left; auto|].
  destruct (Z.eqb_spec c 13); [do 5 right; left; auto|].
  destruct (Z.eqb_spec c 9); [do 6 right; left; auto|].
  destruct ((32 <=? c) && (c <=? 126)) eqn:Ep.
  - do 7 right; left. apply andb_prop in Ep as [E1 E2]. apply Z.leb_le in E1, E2. auto.
  - apply andb_false_iff in Ep. destruct (Z.ltb_spec c 65536).
    + do 8 right; left. destruct Ep as [E|E]; apply Z.leb_gt in E; repeat split; auto; lia.
    + do 9 right. split; [lia | reflexivity].
Qed.

Lemma str_ok_cons : forall c s, str_ok (c :: s) = true ->
  0 <= c <= 1114111 /\ str_ok s = true
  /\ (forall c' s', s = c' :: s' -> is_high c && is_low c' = false).
Proof.
  unfold str_ok. intros c s H. cbn [forallb no_split_pair] in H.
  apply andb_prop in H as [H1 H2]. apply andb_prop in H1 as [Hc Hs].
  unfold code_point_ok in Hc. apply andb_prop in Hc as [Hc1 Hc2]. apply Z.leb_le in Hc1, Hc2.
  destruct s as [|c' s].
  - split; [lia|]. split; [reflexivity | discriminate].
  - apply andb_prop in H2 as [Hp Hn]. split; [lia|]. split.
    + unfold str_ok. rewrite Hs, Hn. reflexivity.
    + intros c'' s' E. injection E as <- <-. apply negb_true_iff. exact Hp.
Qed.

(** What follows a high surrogate in the escaped text is not the [\u]
    escape of a low surrogate. *)
Lemma next_not_low : forall c s r r3,
  str_ok (c :: s) = true -> is_high c = true ->
  concat (map escape_char s) ++ 34 :: r = 92 :: 117 :: r3 ->
  exists w, hex4_val (firstn 4 r3) = Some w /\ is_low w = false.
Proof.
  intros c s r r3 Hs Hh E.
  destruct (str_ok_cons c s Hs) as [_ [Hs' Hp]].
  destruct s as [|c' s]; [discriminate|].
  specialize (Hp c' s eq_refl). rewrite Hh in Hp. cbn [andb] in Hp.
  destruct (str_ok_cons c' s Hs') as [Hc' _].
  cbn [map concat] in E. rewrite <- app_assoc in E.
  destruct (escape_cases c') as
    [[_ Ee]|[[_ Ee]|[[_ Ee]|[[_ Ee]|[[_ Ee]|[[_ Ee]|[[_ Ee]|[[_ [Hn92 [_ Ee]]]|[[Hlt [_ [_ [_ [_ [_ [_ Ee]]]]]]]|[Hge Ee]]]]]]]]]];
    rewrite Ee in E;
    try (apply (f_equal (fun l => (hd 0 l, hd 0 (tl l)))) in E; cbn [hd tl app] in E;
         injection E; intros; lia).
  - apply (f_equal (skipn 2)) in E. cbn [skipn app] in E. subst r3.
    exists c'. split; [|exact Hp].
    rewrite firstn_hex4. exact (hex4_val_hex4 c' ltac:(lia)).
  - apply (f_equal (skipn 2)) in E. cbn [skipn app] in E. rewrite <- app_assoc in E. subst r3.
    destruct (astral_parts c' ltac:(lia)) as [Hhi _].
    exists (Z.lor 55296 (Z.land (Z.shiftr (c' - 65536) 10) 1023)). split.
    + rewrite firstn_hex4.
      exact (hex4_val_hex4 (Z.lor 55296 (Z.land (Z.shiftr (c' - 65536) 10) 1023)) ltac:(lia)).
    + apply is_low_false. exact Hhi.
Qed.

(** [scanstring] reads back the escaped text of a [str] that has no
    high surrogate directly followed by a low one. *)
Lemma scan_string_escaped : forall s r acc f,
  str_ok s = true -> (List.length s < f)%nat ->
  scan_string f (concat (map escape_char s) ++ 34 :: r) acc = Some (acc ++ s, r).
Proof.
  induction s as [|c s IH]; intros r acc f Hs Hf; destruct f as [|f]; try (simpl in Hf; lia).
  - cbn [map concat app]. simpl. rewrite app_nil_r. reflexivity.
  - pose proof Hs as Hs0.
    apply str_ok_cons in Hs as [Hc [Hs' Hp]].
    assert (IH' := IH r (acc ++ [c]) f Hs' ltac:(simpl in Hf; lia)).
    rewrite <- app_assoc in IH'. cbn [app] in IH'.
    cbn [map concat]. rewrite <- app_assoc.
    assert (Hnext := fun r3 => next_not_low c s r r3 Hs0).
    set (T := concat (map escape_char s) ++ 34 :: r) in *.
    assert (HT : (1 <= List.length T)%nat) by (subst T; rewrite length_app; simpl; lia).
    destruct (escape_cases c) as
      [[-> Ee]|[[-> Ee]|[[-> Ee]|[[-> Ee]|[[-> Ee]|[[-> Ee]|[[-> Ee]|[[Hpr [Hn92 [Hn34 Ee]]]|[[Hlt [Hctl [H8 [H9 [H10 [H12 [H13 Ee]]]]]]]|[Hge Ee]]]]]]]]]];
      rewrite Ee; cbn [app].
    + exact IH'.
    + exact IH'.
    + exact IH'.
    + exact IH'.
    + exact IH'.
    + exact IH'.
    + exact IH'.
    + cbn [scan_string].
      destruct (Z.eqb_spec c 34); [lia|]. destruct (Z.eqb_spec c 92); [lia|].
      destruct (Z.leb_spec c 31); [lia|]. exact IH'.
    + cbn [scan_string]. rewrite Z.eqb_refl.
      change (92 =? 34) with false. change (117 =? 117) with true. cbv iota.
      rewrite length_app, length_hex4.
      destruct (Nat.leb_spec (4 + List.length T) 4); [lia|].
      rewrite firstn_hex4, hex4_val_hex4, skipn_hex4 by lia.
      destruct (is_high c && Nat.ltb 6 (List.length T)) eqn:Eh; [|exact IH'].
      apply andb_prop in Eh as [Eh _].
      rewrite scan_after_high; [exact IH'|].
      intros r3 E. exact (Hnext r3 Eh E).
    + destruct (astral_parts c ltac:(lia)) as [Hhi [Hlo Hj]].
      cbn [scan_string]. rewrite Z.eqb_refl.
      change (92 =? 34) with false. change (117 =? 117) with true. cbv iota.
      rewrite <- app_assoc. cbn [app].
      rewrite length_app, length_hex4. cbn [List.length]. rewrite length_app, length_hex4.
      destruct (Nat.leb_spec (4 + S (S (4 + List.length T))) 4); [lia|].
      rewrite firstn_hex4, hex4_val_hex4, skipn_hex4 by lia.
      rewrite (is_high_true _ Hhi).
      replace (Nat.ltb 6 (List.length (92 :: 117 :: hex4 (Z.lor 56320 (Z.land (c - 65536) 1023)) ++ T)))
        with true by (symmetry; apply Nat.ltb_lt; cbn [List.length]; rewrite length_app, length_hex4; lia).
      cbn [andb]. cbv iota.
      rewrite firstn_hex4, hex4_val_hex4 by lia. rewrite (is_low_true _ Hlo).
      rewrite skipn_hex4, Hj. exact IH'.
Qed.

End Roundtrip_strings.

Section Roundtrip_values.
Local Open Scope Z_scope.

Ltac match_var_cases :=
  repeat match goal with
         | |- context [match ?x with _ => _ end] => is_var x; destruct x; try reflexivity
         end.

Lemma decimal_shape : forall n, 0 <= n ->
  (n = 0 /\ decimal n = [48])
  \/ exists d D, decimal n = d :: D /\ 49 <= d <= 57 /\ forallb is_digit D = true
                 /\ digits_value (d :: D) 0 = n.
Proof.
  intros n Hn. destruct (Z.eq_dec n 0) as [->|Hn0]; [left; split; reflexivity|].
  right. apply decimal_pos. lia.
Qed.

Lemma digit_cases : forall d, is_digit d = true ->
  d = 48 \/ d = 49 \/ d = 50 \/ d = 51 \/ d = 52 \/ d = 53 \/ d = 54 \/ d = 55 \/ d = 56 \/ d = 57.
Proof. unfold is_digit; intros d H. apply andb_prop in H as [H1 H2]. apply Z.leb_le in H1, H2. lia. Qed.

Lemma encode_json_head : forall v, exists c t, encode_json v = c :: t
  /\ is_ws c = false /\ c <> 93 /\ c <> 125.
Proof.
  intros [| [] | z | s | l | m]; cbn [encode_json encode_str];
    try (eexists; eexists; split; [reflexivity| split; [reflexivity| split; discriminate]]).
  destruct (Z.ltb_spec z 0).
  - eexists; eexists; split; [reflexivity| split; [reflexivity| split; discriminate]].
  - cbn [app]. destruct (decimal_shape (Z.abs z) ltac:(lia)) as [[_ ->]|[d [D [-> [Hd _]]]]].
    + eexists; eexists; split; [reflexivity| split; [reflexivity| split; discriminate]].
    + exists d, D. split; [reflexivity|]. split; [|lia].
      unfold is_ws. destruct (Z.eqb_spec d 32); [lia|]. destruct (Z.eqb_spec d 9); [lia|].
      destruct (Z.eqb_spec d 10); [lia|]. destruct (Z.eqb_spec d 13); [lia|]. reflexivity.
Qed.

Lemma skip_ws_head : forall c t, is_ws c = false -> skip_ws (c :: t) = c :: t.
Proof. intros c t H. cbn [skip_ws]. rewrite H. reflexivity. Qed.

Lemma skip_ws_space : forall t, skip_ws (32 :: t) = skip_ws t.
Proof. reflexivity. Qed.

Lemma skip_ws_encode : forall v t, skip_ws (encode_json v ++ t) = encode_json v ++ t.
Proof.
  intros v t. destruct (encode_json_head v) as [c [t' [E [Hw _]]]].
  rewrite E. cbn [app]. apply skip_ws_head. exact Hw.
Qed.

Ltac head_cases H := cbv beta iota; match_var_cases; exfalso; apply H; reflexivity.

Lemma array_open_items : forall f d c t, c <> 93 ->
  match c :: t with 93 :: r' => POk (JArr []) false r' | r' => parse_array_items f d r' [] false end
  = parse_array_items f d (c :: t) [] false.
Proof. intros f d c t H. head_cases H. Qed.

Lemma array_next_items : forall f d c t acc fl, c <> 93 ->
  match c :: t with 93 :: _ => PErr | r'' => parse_array_items f d r'' acc fl end
  = parse_array_items f d (c :: t) acc fl.
Proof. intros f d c t acc fl H. head_cases H. Qed.

Lemma object_open_items : forall f d c t, c <> 125 ->
  match c :: t with 125 :: r' => POk (JObj []) false r' | r' => parse_object_items f d r' [] false end
  = parse_object_items f d (c :: t) [] false.
Proof. intros f d c t H. head_cases H. Qed.

Lemma object_next_items : forall f d c t acc fl, c <> 125 ->
  match c :: t with 125 :: _ => PErr | r5 => parse_object_items f d r5 acc fl end
  = parse_object_items f d (c :: t) acc fl.
Proof. intros f d c t acc fl H. head_cases H. Qed.


Lemma follower_cases : forall r, follower r = true ->
  r = [] \/ exists c t, r = c :: t /\ (c = 44 \/ c = 93 \/ c = 125).
Proof.
  intros [|c t] H; [left; reflexivity|right; exists c, t; split; [reflexivity|]].
  cbn [follower] in H. apply orb_true_iff in H as [H|H]; [apply orb_true_iff in H as [H|H]|];
    apply Z.eqb_eq in H; auto.
Qed.

Lemma span_digits_app : forall D r, forallb is_digit D = true -> follower r = true ->
  span_digits (D ++ r) = (D, r).
Proof.
  induction D as [|d D IH]; intros r HD Hr.
  - apply follower_cases in Hr as [->|[c [t [-> [->|[->| ->]]]]]]; reflexivity.
  - cbn [forallb] in HD. apply andb_prop in HD as [Hd HD].
    cbn [app span_digits]. rewrite Hd, (IH r HD Hr). reflexivity.
Qed.

Ltac zred := cbn [Z.leb Z.ltb Z.eqb Z.compare Pos.compare Pos.compare_cont Pos.eqb andb orb negb is_digit].

Lemma match_number_encode : forall z r, ints_ok (JInt z) = true -> follower r = true ->
  match_number (encode_json (JInt z) ++ r) = POk (JInt z) false r.
Proof.
  intros z r Hi Hf. cbn [ints_ok] in Hi. apply Nat.leb_le in Hi.
  pose proof (follower_cases r Hf) as Hr.
  cbn [encode_json].
  destruct (decimal_shape (Z.abs z) ltac:(lia)) as [[Hz0 E]|[d [D [E [Hd [HD Hv]]]]]];
    rewrite E in *.
  - assert (z = 0) as -> by lia.
    destruct Hr as [->|[c [t [-> [->|[->| ->]]]]]]; [reflexivity| | |];
      destruct t as [|c' t']; reflexivity.
  - assert (Hl : Nat.ltb 4300 (List.length (d :: D)) = false) by (apply Nat.ltb_ge; exact Hi).
    assert (Hd' : d = 49 \/ d = 50 \/ d = 51 \/ d = 52 \/ d = 53 \/ d = 54 \/ d = 55 \/ d = 56 \/ d = 57) by lia.
    destruct (Z.ltb_spec z 0) as [Hneg|Hpos]; cbn [app];
      destruct Hd' as [->|[->|[->|[->|[->|[->|[->|[->| ->]]]]]]]];
      unfold match_number; zred; rewrite (span_digits_app D r HD Hf); cbv beta iota zeta;
      (destruct Hr as [->|[c [t [-> [->|[->| ->]]]]]]; [| | |]; [|destruct t as [|c' t']..]);
      zred; rewrite Hl; f_equal; f_equal; lia.
Qed.

Lemma join_comma_cons2 : forall (a b : list Z) r,
  join_comma (a :: b :: r) = a ++ 44 :: 32 :: join_comma (b :: r).
Proof. reflexivity. Qed.

Lemma join_head : forall {A} (f : A -> list Z) x l, exists t, join_comma (map f (x :: l)) = f x ++ t.
Proof.
  intros A f x [|y l]; [exists []; rewrite app_nil_r; reflexivity|].
  eexists. cbn [map]. rewrite join_comma_cons2. reflexivity.
Qed.

Lemma length_escape_concat : forall s, (List.length s <= List.length (concat (map escape_char s)))%nat.
Proof.
  induction s as [|c s IH]; [simpl; lia|]. cbn [map concat]. rewrite length_app.
  assert (1 <= List.length (escape_char c))%nat; [|cbn [List.length]; lia].
  destruct (escape_cases c) as
    [[_ Ee]|[[_ Ee]|[[_ Ee]|[[_ Ee]|[[_ Ee]|[[_ Ee]|[[_ Ee]|[[_ [_ [_ Ee]]]|[[_ [_ [_ [_ [_ [_ [_ Ee]]]]]]]|[_ Ee]]]]]]]]]];
    rewrite Ee; cbn [List.length]; lia.
Qed.

Lemma ustr_eqb_sym : forall a b, ustr_eqb a b = ustr_eqb b a.
Proof.
  intros a b. destruct (ustr_eqb a b) eqn:E.
  - apply ustr_eqb_eq in E. subst. symmetry. apply ustr_eqb_refl.
  - destruct (ustr_eqb b a) eqn:F; [|reflexivity].
    apply ustr_eqb_eq in F. subst. rewrite ustr_eqb_refl in E. discriminate.
Qed.

Lemma obj_set_fresh : forall k v acc,
  existsb (fun kv => ustr_eqb k (fst kv)) acc = false -> obj_set k v acc = acc ++ [(k, v)].
Proof.
  intros k v. induction acc as [|[k' v'] acc IH]; intro H; [reflexivity|].
  cbn [existsb fst] in H. apply orb_false_iff in H as [H1 H2].
  cbn [obj_set app]. rewrite H1, IH by exact H2. reflexivity.
Qed.

Lemma keys_fresh_app : forall acc k v m,
  keys_fresh (acc ++ (k, v) :: m) = true -> existsb (fun kv => ustr_eqb k (fst kv)) acc = false.
Proof.
  induction acc as [|[k' v'] acc IH]; intros k v m H; [reflexivity|].
  cbn [app keys_fresh] in H. apply andb_prop in H as [H1 H2].
  apply negb_true_iff in H1. rewrite existsb_app in H1. apply orb_false_iff in H1 as [_ H1].
  cbn [existsb fst] in H1. apply orb_false_iff in H1 as [H1 _].
  cbn [existsb fst]. rewrite ustr_eqb_sym, H1. exact (IH k v m H2).
Qed.

Lemma parse_array_encode : forall d l, l <> [] ->
  Forall (fun v => forall fuel r, follower r = true -> (List.length (encode_json v) < fuel)%nat ->
                   scan_once fuel d (encode_json v ++ r) = POk v false r) l ->
  forall acc fuel r, (S (List.length (join_comma (map encode_json l) ++ [93%Z])) <= fuel)%nat ->
  parse_array_items fuel d (join_comma (map encode_json l) ++ 93 :: r) acc false = POk (JArr (acc ++ l)) false r.
Proof.
  intro d. induction l as [|x l IH]; intros Hne HF acc fuel r Hfuel; [congruence|].
  inversion HF as [|? ? Hx HF']; subst.
  destruct fuel as [|f]; [lia|].
  destruct l as [|y l].
  - cbn [map join_comma] in *. rewrite length_app in Hfuel. cbn [List.length] in Hfuel.
    cbn [parse_array_items]. rewrite Hx by (reflexivity || lia). reflexivity.
  - cbn [map] in *. rewrite join_comma_cons2 in *.
    set (J := join_comma (encode_json y :: map encode_json l)) in *.
    rewrite !length_app in Hfuel. cbn [List.length] in Hfuel.
    rewrite <- app_assoc. cbn [app].
    cbn [parse_array_items]. rewrite Hx by (reflexivity || lia).
    rewrite skip_ws_head by reflexivity. cbv beta iota.
    rewrite skip_ws_space.
    destruct (join_head encode_json y l) as [t Ej]. cbn [map] in Ej.
    destruct (encode_json_head y) as [c [t' [Ey [Hw [H93 _]]]]].
    assert (EJ : J ++ 93 :: r = c :: t' ++ t ++ 93 :: r)
      by (subst J; rewrite Ej, Ey; cbn [app]; rewrite <- app_assoc; reflexivity).
    rewrite EJ, skip_ws_head by exact Hw.
    rewrite array_next_items by exact H93. rewrite <- EJ. cbn [orb].
    rewrite IH; [rewrite <- app_assoc; reflexivity | discriminate | exact HF' |].
    cbn [map]. fold J. rewrite length_app. cbn [List.length]. lia.
Qed.

Lemma object_entry : forall f d k v X acc, str_ok k = true ->
  (forall fuel r, follower r = true -> (List.length (encode_json v) < fuel)%nat ->
     scan_once fuel d (encode_json v ++ r) = POk v false r) ->
  follower X = true -> (List.length (encode_json v) < f)%nat ->
  existsb (fun kv => ustr_eqb k (fst kv)) acc = false ->
  parse_object_items (S f) d ((encode_str k ++ 58 :: 32 :: encode_json v) ++ X) acc false
  = match skip_ws X with
    | 125 :: r4 => POk (JObj (acc ++ [(k, v)])) (false || false) r4
    | 44 :: r4 =>
        match skip_ws r4 with
        | 125 :: _ => PErr
        | r5 => parse_object_items f d r5 (acc ++ [(k, v)]) (false || false)
        end
    | _ => PErr
    end.
Proof.
  intros f d k v X acc Hk Hv HX Hf Hfresh. unfold encode_str.
  replace ((((34 :: concat (map escape_char k) ++ [34]) ++ 58 :: 32 :: encode_json v) ++ X))
    with (34 :: concat (map escape_char k) ++ 34 :: 58 :: 32 :: encode_json v ++ X)
    by (cbn [app]; rewrite <- !app_assoc; reflexivity).
  cbn [parse_object_items].
  rewrite scan_string_escaped
    by (exact Hk || (rewrite length_app; cbn [List.length]; pose proof (length_escape_concat k); lia)).
  cbn [app]. cbv beta iota zeta.
  rewrite skip_ws_head by reflexivity. cbv beta iota zeta.
  rewrite skip_ws_space, skip_ws_encode, Hv by (exact HX || exact Hf).
  cbv beta iota zeta. rewrite obj_set_fresh by exact Hfresh. reflexivity.
Qed.

Lemma parse_object_encode : forall d m, m <> [] ->
  Forall (fun kv => str_ok (fst kv) = true /\
    forall fuel r, follower r = true -> (List.length (encode_json (snd kv)) < fuel)%nat ->
      scan_once fuel d (encode_json (snd kv) ++ r) = POk (snd kv) false r) m ->
  forall acc fuel r, keys_fresh (acc ++ m) = true ->
  le (S (List.length (join_comma (map (fun kv => encode_str (fst kv) ++ 58 :: 32 :: encode_json (snd kv)) m)
       ++ [125]))) fuel ->
  parse_object_items fuel d
    (join_comma (map (fun kv => encode_str (fst kv) ++ 58 :: 32 :: encode_json (snd kv)) m) ++ 125 :: r)
    acc false = POk (JObj (acc ++ m)) false r.
Proof.
  intro d. induction m as [|[k v] m IH]; intros Hne HF acc fuel r Hfresh Hfuel; [congruence|].
  inversion HF as [|? ? [Hk Hv] HF']; subst. cbn [fst snd] in Hk, Hv.
  destruct fuel as [|f]; [lia|].
  pose proof (keys_fresh_app acc k v m Hfresh) as Hnew.
  assert (Hlk : (2 <= List.length (encode_str k))%nat)
    by (unfold encode_str; cbn [List.length]; rewrite length_app; cbn [List.length]; lia).
  destruct m as [|[k2 v2] m].
  - cbn [map join_comma fst snd] in *. rewrite !length_app in Hfuel. cbn [List.length] in Hfuel.
    rewrite object_entry by (reflexivity || lia || assumption).
    rewrite skip_ws_head by reflexivity. reflexivity.
  - cbn [map fst snd] in *. rewrite join_comma_cons2 in *.
    set (J := join_comma (_ :: map _ m)) in *.
    rewrite !length_app in Hfuel. cbn [List.length] in Hfuel.
    rewrite <- app_assoc. cbn [app].
    rewrite object_entry by (reflexivity || lia || assumption).
    rewrite skip_ws_head by reflexivity. cbv beta iota.
    rewrite skip_ws_space.
    assert (EJ : J ++ 125 :: r = 34 :: (concat (map escape_char k2) ++ [34]) ++
                   (58 :: 32 :: encode_json v2 ++ skipn (List.length (encode_str k2 ++ 58 :: 32 :: encode_json v2)) J) ++ 125 :: r).
    { subst J. destruct m as [|kv3 m]; cbn [map].
      - cbn [join_comma]. rewrite skipn_all2 by lia. unfold encode_str. cbn [app]. rewrite <- !app_assoc. reflexivity.
      - rewrite join_comma_cons2. rewrite skipn_app, skipn_all2, Nat.sub_diag, skipn_O by lia.
        unfold encode_str. cbn [app]. rewrite <- !app_assoc. reflexivity. }
    rewrite EJ, skip_ws_head by reflexivity.
    cbv beta iota. rewrite <- EJ. cbn [orb].
    rewrite IH; [rewrite <- app_assoc; reflexivity | discriminate | exact HF' | |].
    + rewrite <- app_assoc. exact Hfresh.
    + cbn [map]. fold J. rewrite length_app. cbn [List.length]. lia.
Qed.

Lemma scan_once_int : forall f depth z r,
  scan_once (S f) depth (encode_json (JInt z) ++ r) = match_number (encode_json (JInt z) ++ r).
Proof.
  intros f depth z r. cbn [encode_json].
  destruct (decimal_shape (Z.abs z) ltac:(lia)) as [[Hz0 E]|[d [D [E [Hd _]]]]]; rewrite E.
  - replace (z <? 0) with false by (symmetry; apply Z.ltb_ge; lia). reflexivity.
  - assert (Hd' : d = 49 \/ d = 50 \/ d = 51 \/ d = 52 \/ d = 53 \/ d = 54 \/ d = 55 \/ d = 56 \/ d = 57) by lia.
    destruct (z <? 0); cbn [app];
      destruct Hd' as [->|[->|[->|[->|[->|[->|[->|[-> | ->]]]]]]]]; reflexivity.
Qed.

Lemma json_depth_arr : forall l d y, (json_depth (JArr l) <= S d)%nat -> In y l -> (json_depth y <= d)%nat.
Proof.
  intros l d y H Hy. cbn [json_depth] in H. apply le_S_n, list_max_le in H.
  rewrite Forall_forall in H. apply H, in_map, Hy.
Qed.

Lemma json_depth_obj : forall m d kv, (json_depth (JObj m) <= S d)%nat -> In kv m ->
  (json_depth (snd kv) <= d)%nat.
Proof.
  intros m d kv H Hkv. cbn [json_depth] in H. apply le_S_n, list_max_le in H.
  rewrite Forall_forall in H. apply H. exact (in_map (fun kv => json_depth (snd kv)) m kv Hkv).
Qed.

Lemma scan_once_encode : forall v, roundtrip_ok v = true -> ints_ok v = true ->
  forall fuel depth r, follower r = true -> (List.length (encode_json v) < fuel)%nat ->
  (json_depth v <= depth)%nat ->
  scan_once fuel depth (encode_json v ++ r) = POk v false r.
Proof.
  induction v as [| b | z | s | l IHl | m IHm] using json_ind'; intros Hrt Hio fuel depth r Hf Hlen Hdp;
    (destruct fuel as [|f]; [lia|]).
  - reflexivity.
  - destruct b; reflexivity.
  - rewrite scan_once_int. apply match_number_encode; assumption.
  - cbn [roundtrip_ok] in Hrt. cbn [encode_json]. unfold encode_str.
    cbn [app]. rewrite <- app_assoc. cbn [app].
    cbn [scan_once Z.eqb Pos.eqb].
    rewrite scan_string_escaped
      by (exact Hrt || (rewrite length_app; cbn [List.length]; pose proof (length_escape_concat s); lia)).
    reflexivity.
  - destruct depth as [|d]; [cbn [json_depth] in Hdp; lia|].
    destruct l as [|x l0]; [reflexivity|].
    cbn [roundtrip_ok ints_ok] in Hrt, Hio. cbn [encode_json] in Hlen |- *.
    set (J := join_comma (map encode_json (x :: l0))) in *.
    cbn [app]. rewrite <- app_assoc. cbn [app].
    cbn [scan_once Z.eqb Pos.eqb].
    destruct (join_head encode_json x l0) as [t Ej].
    destruct (encode_json_head x) as [c [t' [Ex [Hw [H93 _]]]]].
    assert (EJ : J ++ 93 :: r = c :: t' ++ t ++ 93 :: r)
      by (subst J; rewrite Ej, Ex; cbn [app]; rewrite <- app_assoc; reflexivity).
    rewrite EJ, skip_ws_head by exact Hw.
    rewrite array_open_items by exact H93. rewrite <- EJ.
    cbn [List.length] in Hlen. rewrite length_app in Hlen. cbn [List.length] in Hlen.
    subst J. rewrite parse_array_encode; [reflexivity | discriminate | |].
    + rewrite Forall_forall in IHl |- *. intros y Hy fuel' r' Hf' Hl'.
      apply IHl; [exact Hy | exact (proj1 (forallb_forall _ _) Hrt y Hy)
                 | exact (proj1 (forallb_forall _ _) Hio y Hy) | exact Hf' | exact Hl'
                 | exact (json_depth_arr _ _ _ Hdp Hy)].
    + rewrite length_app. cbn [List.length]. lia.
  - destruct depth as [|d]; [cbn [json_depth] in Hdp; lia|].
    destruct m as [|kv0 m0]; [reflexivity|].
    cbn [roundtrip_ok ints_ok] in Hrt, Hio. apply andb_prop in Hrt as [Hkeys Hrt].
    cbn [encode_json] in Hlen |- *.
    set (J := join_comma (map (fun kv => encode_str (fst kv) ++ 58 :: 32 :: encode_json (snd kv)) (kv0 :: m0))) in *.
    cbn [app]. rewrite <- app_assoc. cbn [app].
    cbn [scan_once Z.eqb Pos.eqb].
    destruct (join_head (fun kv => encode_str (fst kv) ++ 58 :: 32 :: encode_json (snd kv)) kv0 m0) as [t Ej].
    assert (EJ : exists X, J ++ 125 :: r = 34 :: X)
      by (eexists; subst J; rewrite Ej; unfold encode_str; cbn [app]; reflexivity).
    destruct EJ as [X EJ].
    rewrite EJ, skip_ws_head by reflexivity. cbv beta iota. rewrite <- EJ.
    cbn [List.length] in Hlen. rewrite length_app in Hlen. cbn [List.length] in Hlen.
    subst J. rewrite parse_object_encode; [reflexivity | discriminate | | exact Hkeys |].
    + rewrite Forall_forall in IHm |- *. intros kv Hkv.
      pose proof (proj1 (forallb_forall _ _) Hrt kv Hkv) as Hk. apply andb_prop in Hk as [Hk1 Hk2].
      split; [exact Hk1|]. intros fuel' r' Hf' Hl'.
      apply IHm; [exact Hkv | exact Hk2 | exact (proj1 (forallb_forall _ _) Hio kv Hkv) | exact Hf' | exact Hl'
                 | exact (json_depth_obj _ _ _ Hdp Hkv)].
    + rewrite length_app. cbn [List.length]. lia.
Qed.

Lemma json_decode_encode : forall v depth, roundtrip_ok v = true -> ints_ok v = true ->
  (json_depth v <= depth)%nat ->
  json_decode depth (encode_json v) = LOk v.
Proof.
  intros v depth H1 H2 H3. unfold json_decode.
  pose proof (skip_ws_encode v []) as Hs. rewrite app_nil_r in Hs. rewrite Hs.
  pose proof (scan_once_encode v H1 H2 (2 * List.length (encode_json v) + 2)%nat depth [] eq_refl ltac:(lia) H3) as H.
  rewrite app_nil_r in H. rewrite H. reflexivity.
Qed.

Lemma json_loads_encode : forall v depth, roundtrip_ok v = true -> ints_ok v = true ->
  (json_depth v <= depth)%nat ->
  json_loads depth (encode_json v) = LOk v.
Proof.
  intros v depth H1 H2 H3. unfold json_loads.
  rewrite detect_encoding_printable by apply encode_json_printable.
  unfold utf8_decode. rewrite utf8_decode_printable by (lia || apply encode_json_printable).
  apply json_decode_encode; assumption.
Qed.

End Roundtrip_values.

Section Roundtrip_frame.
Local Open Scope Z_scope.

Ltac match_var_cases' :=
  repeat match goal with
         | |- context [match ?x with _ => _ end] => is_var x; destruct x; try reflexivity
         end.

Lemma digits_no_cr : forall D, forallb is_digit D = true -> no_cr D = true.
Proof.
  unfold no_cr. induction D as [|d D IH]; intro H; [reflexivity|].
  cbn [forallb] in *. apply andb_prop in H as [Hd H].
  unfold is_digit in Hd. apply andb_prop in Hd as [H1 H2]. apply Z.leb_le in H1, H2.
  destruct (Z.eqb_spec d 13); [lia|]. rewrite IH by exact H. reflexivity.
Qed.

Lemma find_sep_cons : forall c r, c <> 13 -> find_sep (c :: r) = option_map S (find_sep r).
Proof. intros c r H. simpl. match_var_cases'; exfalso; apply H; reflexivity. Qed.

Lemma find_sep_prefix : forall p s, no_cr p = true ->
  find_sep (p ++ s) = option_map (Nat.add (List.length p)) (find_sep s).
Proof.
  induction p as [|c p IH]; intros s H.
  - cbn [app]. destruct (find_sep s); reflexivity.
  - unfold no_cr in H. cbn [forallb] in H. apply andb_prop in H as [Hc H].
    cbn [app]. rewrite find_sep_cons by (intro E; subst; discriminate).
    rewrite IH by exact H. destruct (find_sep s); reflexivity.
Qed.

Lemma split_crlf_acc_cons : forall c r cur, c <> 13 ->
  split_crlf_acc (c :: r) cur = split_crlf_acc r (cur ++ [c]).
Proof. intros c r cur H. simpl. match_var_cases'; exfalso; apply H; reflexivity. Qed.

Lemma split_crlf_acc_prefix : forall p s cur, no_cr p = true ->
  split_crlf_acc (p ++ s) cur = split_crlf_acc s (cur ++ p).
Proof.
  induction p as [|c p IH]; intros s cur H; [rewrite app_nil_r; reflexivity|].
  unfold no_cr in H. cbn [forallb] in H. apply andb_prop in H as [Hc H].
  cbn [app]. rewrite split_crlf_acc_cons by (intro E; subst; discriminate).
  rewrite IH by exact H. rewrite <- app_assoc. reflexivity.
Qed.

Lemma split_at_colon_digits : forall D, forallb is_digit D = true -> split_at_colon D = None.
Proof.
  induction D as [|d D IH]; intro H; [reflexivity|].
  cbn [forallb] in H. apply andb_prop in H as [Hd H].
  unfold is_digit in Hd. apply andb_prop in Hd as [H1 H2]. apply Z.leb_le in H1, H2.
  cbn [split_at_colon]. destruct (Z.eqb_spec d 58); [lia|]. rewrite IH by exact H. reflexivity.
Qed.

Lemma lstrip_digits : forall D, forallb is_digit D = true -> lstrip D = D.
Proof.
  intros [|d D] H; [reflexivity|].
  cbn [forallb] in H. apply andb_prop in H as [Hd _].
  unfold is_digit in Hd. apply andb_prop in Hd as [H1 H2]. apply Z.leb_le in H1, H2.
  cbn [lstrip]. unfold is_space.
  destruct (Z.eqb_spec d 32); [lia|]. destruct (Z.leb_spec 9 d); destruct (Z.leb_spec d 13); try lia;
    reflexivity.
Qed.

Lemma strip_digits : forall D, forallb is_digit D = true -> strip D = D.
Proof.
  intros D H. unfold strip. rewrite (lstrip_digits D H).
  rewrite (lstrip_digits (rev D)) by (apply forallb_forall; intros x Hx; rewrite <- in_rev in Hx;
                                            exact (proj1 (forallb_forall _ _) H x Hx)). apply rev_involutive.
Qed.

Lemma us_digits_cons : forall d r, d <> 95 ->
  us_digits (d :: r) = if is_digit d then option_map (cons d) (us_digits r) else None.
Proof. intros d r H. simpl. match_var_cases'; exfalso; apply H; reflexivity. Qed.

Lemma us_digits_digits : forall D, forallb is_digit D = true -> us_digits D = Some D.
Proof.
  induction D as [|d D IH]; intro H; [reflexivity|].
  cbn [forallb] in H. apply andb_prop in H as [Hd H].
  rewrite us_digits_cons.
  - rewrite Hd, IH by exact H. reflexivity.
  - intro E. subst. discriminate.
Qed.

Lemma py_int_digits : forall D, D <> [] -> forallb is_digit D = true -> (List.length D <= 4300)%nat ->
  py_int D = Ok (digits_value D 0).
Proof.
  intros [|d D] Hne H Hl; [congruence|].
  assert (Hu := us_digits_digits (d :: D) H).
  assert (Hl' : Nat.ltb 4300 (List.length (d :: D)) = false) by (apply Nat.ltb_ge; exact Hl).
  pose proof H as H'. cbn [forallb] in H'. apply andb_prop in H' as [Hd _].
  unfold py_int. rewrite strip_digits by exact H.
  destruct (digit_cases d Hd) as [->|[->|[->|[->|[->|[->|[->|[->|[-> | ->]]]]]]]]];
    cbv beta iota zeta; rewrite Hd, Hu; cbv beta iota zeta; rewrite Hl'; reflexivity.
Qed.

Lemma firstn_skipn_frame : forall {A} (p q X : list A),
  firstn (List.length p + List.length q) (p ++ q ++ X) = p ++ q
  /\ skipn (List.length p + List.length q) (p ++ q ++ X) = X.
Proof.
  intros A p q X. rewrite app_assoc, <- length_app. split.
  - rewrite firstn_app, Nat.sub_diag, firstn_O, app_nil_r. apply firstn_all.
  - rewrite skipn_app, Nat.sub_diag, skipn_O, skipn_all. reflexivity.
Qed.

Lemma header_length_content : forall D, D <> [] -> forallb is_digit D = true -> (List.length D <= 4300)%nat ->
  header_length [u "Content-Length: " ++ D] 0 = Ok (digits_value D 0).
Proof.
  intros D Hne H Hl.
  cbn [header_length]. unfold split_colon_max2.
  replace (split_at_colon (u "Content-Length: " ++ D)) with (Some (u "Content-Length", 32 :: D)) by reflexivity.
  cbv beta iota.
  replace (split_at_colon (32 :: D)) with (@None (bytes * bytes))
    by (cbn [split_at_colon]; rewrite split_at_colon_digits by exact H; reflexivity).
  cbv beta iota.
  replace (ustr_eqb (lower (u "Content-Length")) (u "content-length")) with true by reflexivity.
  cbv beta iota.
  change (strip (32 :: D)) with (strip D).
  rewrite (strip_digits D H), py_int_digits by assumption. reflexivity.
Qed.

Lemma read_message_frame : forall depth E rest, E <> [] -> Z.of_nat (List.length E) < 10 ^ 4300 ->
  read_message depth ((u "Content-Length: " ++ decimal (Z.of_nat (List.length E)) ++ crlf2 ++ E) ++ rest)
  = (of_loads (json_loads depth E), rest).
Proof.
  intros depth E rest Hne Hlt.
  assert (Hpos : 0 < Z.of_nat (List.length E)) by (destruct E; [congruence | cbn [List.length]; lia]).
  destruct (decimal_pos _ Hpos) as [d [D [Edec [Hd [HD Hv]]]]].
  pose proof (decimal_length_bound _ 4300 Hpos ltac:(lia) Hlt d D Edec Hd HD Hv) as Hlen.
  rewrite Edec.
  assert (HDd : forallb is_digit (d :: D) = true)
    by (cbn [forallb]; rewrite HD; unfold is_digit;
        rewrite (proj2 (Z.leb_le 48 d)), (proj2 (Z.leb_le d 57)) by lia; reflexivity).
  set (p := u "Content-Length: " ++ d :: D).
  assert (Hp : no_cr p = true)
    by (unfold p, no_cr; rewrite forallb_app; apply andb_true_intro;
        split; [reflexivity | exact (digits_no_cr _ HDd)]).
  replace ((u "Content-Length: " ++ (d :: D) ++ crlf2 ++ E) ++ rest) with (p ++ crlf2 ++ E ++ rest)
    by (unfold p; rewrite <- !app_assoc; reflexivity).
  unfold read_message.
  rewrite find_sep_prefix by exact Hp.
  replace (find_sep (crlf2 ++ E ++ rest)) with (Some 0%nat) by reflexivity.
  cbn [option_map]. rewrite Nat.add_0_r.
  assert (Hpl : List.length p = (16 + List.length (d :: D))%nat) by (unfold p; rewrite length_app; reflexivity).
  assert (Hsl : (4316 <= stream_limit)%nat) by (apply Nat.leb_le; vm_compute; reflexivity).
  replace (Nat.ltb stream_limit (List.length p)) with false by (symmetry; apply Nat.ltb_ge; lia).
  destruct (firstn_skipn_frame p crlf2 (E ++ rest)) as [Hf Hs].
  change (List.length crlf2) with 4%nat in Hf, Hs. rewrite Hf, Hs.
  unfold split_crlf. rewrite split_crlf_acc_prefix by exact Hp. cbn [app].
  replace (split_crlf_acc crlf2 p) with [p; []; []] by reflexivity.
  change (drop_last2 [p; []; []]) with [p].
  unfold p. rewrite header_length_content by (discriminate || exact HDd || lia).
  cbv beta iota. rewrite Hv.
  replace (0 <? Z.of_nat (List.length E)) with true by (symmetry; apply Z.ltb_lt; exact Hpos).
  replace (Z.of_nat (List.length (E ++ rest)) <? Z.of_nat (List.length E)) with false
    by (symmetry; apply Z.ltb_ge; rewrite length_app; lia).
  rewrite Nat2Z.id.
  rewrite firstn_app, Nat.sub_diag, firstn_O, app_nil_r, firstn_all.
  rewrite skipn_app, Nat.sub_diag, skipn_O, skipn_all. reflexivity.
Qed.

Lemma dumps_check_ok : forall v d, ints_ok v = true -> (json_depth v <= d)%nat -> dumps_check d v = Ok tt.
Proof.
  induction v as [| b | z | s | l IHl | m IHm] using json_ind'; intros d Hio Hd; try reflexivity.
  - cbn [ints_ok] in Hio. cbn [dumps_check]. unfold int_repr.
    replace (Nat.ltb 4300 (List.length (decimal (Z.abs z)))) with false
      by (symmetry; apply Nat.ltb_ge, Nat.leb_le, Hio).
    reflexivity.
  - destruct d as [|d]; [cbn [json_depth] in Hd; lia|].
    cbn [json_depth] in Hd. apply le_S_n, list_max_le in Hd. cbn [ints_ok] in Hio. cbn [dumps_check].
    revert IHl Hio Hd. induction l as [|x l IH]; intros IHl Hio Hd; [reflexivity|].
    inversion IHl as [|? ? Hx HF]; subst. cbn [forallb] in Hio. apply andb_prop in Hio as [H1 H2].
    cbn [map] in Hd. inversion Hd as [|? ? Hx' Hd']; subst.
    cbv beta iota fix. rewrite (Hx d H1 Hx'). exact (IH HF H2 Hd').
  - destruct d as [|d]; [cbn [json_depth] in Hd; lia|].
    cbn [json_depth] in Hd. apply le_S_n, list_max_le in Hd. cbn [ints_ok] in Hio. cbn [dumps_check].
    revert IHm Hio Hd. induction m as [|kv m IH]; intros IHm Hio Hd; [reflexivity|].
    inversion IHm as [|? ? Hx HF]; subst. cbn [forallb] in Hio. apply andb_prop in Hio as [H1 H2].
    cbn [map] in Hd. inversion Hd as [|? ? Hx' Hd']; subst.
    cbv beta iota fix. rewrite (Hx d H1 Hx'). exact (IH HF H2 Hd').
Qed.

End Roundtrip_frame.

(** C8 (amended): for a message built from [null], booleans, ints,
    strings, lists and dicts (no float), whose strings hold code points of
    [0, 0x10FFFF] with no high surrogate directly followed by a low one,
    whose dicts have distinct keys, whose ints have at most 4300 digits,
    whose JSON text is shorter than [10 ^ 4300] characters, and whose
    nesting is within what is left of the recursion limit at the
    [json.dumps] call and at the [json.loads] call,
    [construct_message] succeeds and [read_message] on the framed bytes,
    followed by anything, returns a message equal to the original and
    leaves exactly what followed in the stream. *)
Theorem construct_read_roundtrip : forall dumps_depth loads_depth v rest,
  roundtrip_ok v = true -> ints_ok v = true ->
  (json_depth v <= dumps_depth)%nat -> (json_depth v <= loads_depth)%nat ->
  (Z.of_nat (List.length (encode_json v)) < 10 ^ 4300)%Z ->
  exists bs, construct_message dumps_depth v = Ok bs
             /\ read_message loads_depth (bs ++ rest) = (RMsg v, rest).
Proof.
  intros dd ld v rest Hrt Hio Hdd Hld Hlt.
  exists (u "Content-Length: " ++ decimal (Z.of_nat (List.length (encode_json v))) ++ crlf2 ++ encode_json v).
  split.
  - unfold construct_message, json_dumps. rewrite (dumps_check_ok v dd Hio Hdd), bind_Ok.
    rewrite utf8_encode_printable by apply encode_json_printable. reflexivity.
  - rewrite read_message_frame; [| destruct (encode_json_head v) as [c [t [E _]]]; rewrite E; discriminate | exact Hlt].
    rewrite json_loads_encode by assumption. reflexivity.
Qed.

Lemma construct_read_roundtrip_witness :
  exists bs, construct_message 900 log_message_astral = Ok bs
    /\ read_message 900 (bs ++ u "Content-Length: 2") = (RMsg log_message_astral, u "Content-Length: 2").
Proof.
  apply construct_read_roundtrip;
    first [vm_compute; reflexivity | apply Nat.leb_le; vm_compute; reflexivity].
Defined.
Lemma cfg_get_obj : forall m k d, cfg_get (JObj m) k d = Ok (obj_get_or m k d).
Proof.
  intros m k d. unfold cfg_get, obj_get_or, py_in, py_getitem; cbn [bind].
  destruct (obj_lookup (u k) m); reflexivity.
Qed.

Lemma load_server_obj : forall m b,
  load_server (JObj m) b =
  (tr <- match obj_lookup (u "cmd") m with
         | Some cmd =>
             match obj_lookup (u "args") m with
             | Some args => if is_list args then Ok (StdioServer cmd args) else Raise ValueError
             | None => Ok (StdioServer cmd (JArr []))
             end
         | None =>
             match obj_lookup (u "port") m with
             | Some port =>
                 if is_int port
                 then Ok (SocketServer (obj_get_or m "host" (JStr (u "127.0.0.1"))) port)
                 else Raise ValueError
             | None => Raise ValueError
             end
         end ;;
   Ok (tr, new_server b (obj_get_or m "initializationOptions" JNull)
             (py_truthy (obj_get_or m "useDiagnostics" (JBool true)))
             (py_truthy (obj_get_or m "useFormatting" (JBool false)))
             (py_truthy (obj_get_or m "useCompletion" (JBool false)))
             (py_truthy (obj_get_or m "useSignatureHelp" (JBool false)))
             (py_truthy (obj_get_or m "useExecuteCommand" (JBool false))))).
Proof.
  intros m b. unfold load_server. rewrite !cfg_get_obj.
  unfold py_in, py_getitem; cbn [bind].
  destruct (obj_lookup (u "cmd") m) as [c|]; cbn [bind].
  - destruct (obj_lookup (u "args") m) as [a|]; cbn [bind]; [destruct (is_list a)|]; reflexivity.
  - destruct (obj_lookup (u "port") m) as [p|]; cbn [bind]; [|reflexivity].
    destruct (is_int p); reflexivity.
Qed.

Lemma load_server_primary : forall c b t s, load_server c b = Ok (t, s) -> is_primary s = b.
Proof.
  intros c b t s H. unfold load_server in H.
  repeat (apply bind_Ok_inv in H; destruct H as [? [_ H]]).
  injection H as _ <-. reflexivity.
Qed.

Lemma load_server_transport : forall c b t s, load_server c b = Ok (t, s) ->
  match t with
  | StdioServer _ args => is_list args = true
  | SocketServer _ port => is_int port = true
  end.
Proof.
  intros c b t s H. unfold load_server in H.
  apply bind_Ok_inv in H as [has_cmd [_ H]].
  apply bind_Ok_inv in H as [tr [Htr H]].
  repeat (apply bind_Ok_inv in H; destruct H as [? [_ H]]).
  injection H as <- _.
  destruct has_cmd.
  - apply bind_Ok_inv in Htr as [has_args [_ Htr]].
    apply bind_Ok_inv in Htr as [args [Ha Htr]].
    apply bind_Ok_inv in Htr as [cmd [_ Htr]]. injection Htr as <-.
    destruct has_args.
    + apply bind_Ok_inv in Ha as [a [_ Ha]].
      destruct (is_list a) eqn:E; [injection Ha as <-; exact E | discriminate].
    + injection Ha as <-. reflexivity.
  - apply bind_Ok_inv in Htr as [has_port [_ Htr]].
    destruct has_port; [|discriminate].
    apply bind_Ok_inv in Htr as [port [_ Htr]].
    destruct (is_int port) eqn:E; [|discriminate].
    apply bind_Ok_inv in Htr as [host [_ Htr]]. injection Htr as <-. exact E.
Qed.

Lemma load_config_loop_ok : forall cfgs b srvs, load_config_loop cfgs b = Ok srvs ->
  List.length srvs = List.length cfgs
  /\ (forall i t s, nth_error srvs i = Some (t, s) -> is_primary s = if Nat.eqb i 0 then b else false)
  /\ (forall t s, In (t, s) srvs -> exists c b', load_server c b' = Ok (t, s)).
Proof.
  induction cfgs as [|c cfgs IH]; intros b srvs H; cbn [load_config_loop] in H.
  - injection H as <-. split; [reflexivity|]. split; [intros [|i]; discriminate | intros t s []].
  - apply bind_Ok_inv in H as [[t0 s0] [H0 H]].
    apply bind_Ok_inv in H as [srvs' [H1 H]]. injection H as <-.
    destruct (IH _ _ H1) as [Hl [Hp Hin]].
    split; [cbn [List.length]; rewrite Hl; reflexivity|]. split.
    + intros [|i] t s Hn; cbn in Hn.
      * injection Hn as <- <-. exact (load_server_primary _ _ _ _ H0).
      * rewrite (Hp _ _ _ Hn). destruct i; reflexivity.
    + intros t s [E|Hi]; [injection E as <- <-; eauto | eauto].
Qed.

(** [load_config] returns one server per entry of the configuration, and
    only the first one is primary. *)
Theorem load_config_primary_first : forall cfg srvs, load_config cfg = Ok srvs ->
  (exists cfgs, py_iter cfg = Ok cfgs /\ List.length srvs = List.length cfgs)
  /\ forall i t s, nth_error srvs i = Some (t, s) -> is_primary s = Nat.eqb i 0.
Proof.
  intros cfg srvs H. unfold load_config in H.
  apply bind_Ok_inv in H as [cfgs [Hi H]].
  destruct (load_config_loop_ok _ _ _ H) as [Hl [Hp _]].
  split; [eauto|]. intros i t s Hn. rewrite (Hp _ _ _ Hn). destruct i; reflexivity.
Qed.

Lemma load_config_primary_first_witness :
  load_config cfg_two = Ok servers_two
  /\ (exists cfgs, py_iter cfg_two = Ok cfgs /\ List.length servers_two = List.length cfgs)
  /\ (forall i t s, nth_error servers_two i = Some (t, s) -> is_primary s = Nat.eqb i 0).
Proof.
  split; [vm_compute; reflexivity|].
  apply load_config_primary_first. vm_compute. reflexivity.
Defined.

(** After [load_config], [Proxy.get_primary] returns the first configured
    server, and raises [IndexError] for an empty configuration. *)
Theorem load_config_get_primary : forall cfg srvs, load_config cfg = Ok srvs ->
  get_primary (new_proxy (map snd srvs))
  = match srvs with [] => Raise IndexError | (_, s) :: _ => Ok s end.
Proof.
  intros cfg srvs H. unfold load_config in H.
  apply bind_Ok_inv in H as [cfgs [_ H]].
  destruct (load_config_loop_ok _ _ _ H) as [_ [Hp _]].
  destruct srvs as [|[t s] srvs]; [reflexivity|].
  unfold get_primary; cbn. rewrite (Hp 0%nat t s eq_refl). reflexivity.
Qed.

Lemma load_config_get_primary_witness :
  load_config cfg_two = Ok servers_two
  /\ get_primary (new_proxy (map snd servers_two))
     = match servers_two with [] => Raise IndexError | (_, s) :: _ => Ok s end.
Proof.
  split; [vm_compute; reflexivity|].
  apply (load_config_get_primary cfg_two). vm_compute. reflexivity.
Defined.

(** For a configuration array whose entries are all objects, [load_config]
    fails only with [ValueError], the exception the top level catches. *)
Theorem load_config_objects_value_error : forall l e,
  Forall (fun c => exists m, c = JObj m) l ->
  load_config (JArr l) = Raise e -> e = ValueError.
Proof.
  intros l e Hl. unfold load_config; cbn [py_iter bind].
  generalize true. induction Hl as [|c l [m ->] Hl IH]; intros b H; cbn [load_config_loop] in H.
  - discriminate.
  - rewrite load_server_obj in H.
    destruct (obj_lookup (u "cmd") m) as [cmd|];
      [destruct (obj_lookup (u "args") m) as [a|]; [destruct (is_list a)|]
      | destruct (obj_lookup (u "port") m) as [p|]; [destruct (is_int p)|]];
      cbn [bind] in H; try (injection H as <-; reflexivity);
      destruct (load_config_loop l false) eqn:E; cbn [bind] in H; try discriminate;
      injection H as <-; exact (IH _ E).
Qed.

Lemma load_config_objects_value_error_witness :
  Forall (fun c => exists m, c = JObj m) cfg_no_transport
  /\ load_config (JArr cfg_no_transport) = Raise ValueError /\ ValueError = ValueError.
Proof.
  assert (Hf : Forall (fun c => exists m, c = JObj m) cfg_no_transport)
    by (repeat constructor; eexists; reflexivity).
  split; [exact Hf|]. split; [vm_compute; reflexivity|].
  apply (load_config_objects_value_error cfg_no_transport); [exact Hf | vm_compute; reflexivity].
Defined.

(** A configuration that is [null], a boolean or a number, or an array
    whose first entry is one, makes [load_config] raise [TypeError], which
    the top level does not catch. *)
Theorem load_config_scalar_type_error : forall x rest,
  match x with JNull | JBool _ | JInt _ => True | _ => False end ->
  load_config x = Raise TypeError /\ load_config (JArr (x :: rest)) = Raise TypeError.
Proof. intros [| | | | |] rest H; try contradiction; split; reflexivity. Qed.

(** Every stdio server [load_config] builds has a list of arguments, and
    every socket server an [int] port (a [bool] counts as one). *)
Theorem load_config_transport_types : forall cfg srvs, load_config cfg = Ok srvs ->
  forall t s, In (t, s) srvs ->
  match t with
  | StdioServer _ args => is_list args = true
  | SocketServer _ port => is_int port = true
  end.
Proof.
  intros cfg srvs H t s Hin. unfold load_config in H.
  apply bind_Ok_inv in H as [cfgs [_ H]].
  destruct (load_config_loop_ok _ _ _ H) as [_ [_ Hc]].
  destruct (Hc _ _ Hin) as [c [b' Hl]]. exact (load_server_transport _ _ _ _ Hl).
Qed.

Lemma load_config_transport_types_witness :
  load_config cfg_two = Ok servers_two
  /\ forall t s, In (t, s) servers_two ->
     match t with
     | StdioServer _ args => is_list args = true
     | SocketServer _ port => is_int port = true
     end.
Proof.
  split; [vm_compute; reflexivity|].
  apply (load_config_transport_types cfg_two). vm_compute. reflexivity.
Defined.

Lemma load_config_scalar_type_error_witness :
  load_config (JInt 8080) = Raise TypeError
  /\ load_config (JArr [JInt 8080; JObj []]) = Raise TypeError.
Proof. apply (load_config_scalar_type_error (JInt 8080) [JObj []]). exact I. Defined.

(** A server entry with [cmd] and none of the optional keys gives a stdio
    server without arguments and with the defaults of [Server.__init__]:
    diagnostics used, no other feature, no initialization options. *)
Theorem load_server_defaults : forall m b cmd,
  obj_lookup (u "cmd") m = Some cmd ->
  Forall (fun k => obj_lookup (u k) m = None)
    ["args"; "initializationOptions"; "useDiagnostics"; "useFormatting";
     "useCompletion"; "useSignatureHelp"; "useExecuteCommand"]%string ->
  load_server (JObj m) b
  = Ok (StdioServer cmd (JArr []), new_server b JNull true false false false false).
Proof.
  intros m b cmd Hc Hk.
  repeat (match goal with H : Forall _ (_ :: _) |- _ => inversion H; subst; clear H end).
  rewrite load_server_obj, Hc. unfold obj_get_or.
  repeat match goal with H : obj_lookup _ m = None |- _ => rewrite H; clear H end.
  reflexivity.
Qed.

Lemma load_server_defaults_witness :
  load_server (jo [("cmd", js "pylsp"); ("host", js "localhost")]%string) true
  = Ok (StdioServer (js "pylsp") (JArr []), new_server true JNull true false false false false).
Proof.
  apply load_server_defaults; [reflexivity|]. repeat constructor.
Defined.

(** A server entry with [port] and no [cmd]: an [int] or [bool] port gives
    a socket server on [host], [127.0.0.1] by default; any other port
    raises [ValueError]. *)
Theorem load_server_port : forall m b port,
  obj_lookup (u "cmd") m = None -> obj_lookup (u "port") m = Some port ->
  (is_int port = true ->
   exists s, load_server (JObj m) b
             = Ok (SocketServer (obj_get_or m "host" (JStr (u "127.0.0.1"))) port, s))
  /\ (is_int port = false -> load_server (JObj m) b = Raise ValueError).
Proof.
  intros m b port Hc Hp. rewrite load_server_obj, Hc, Hp.
  split; intro E; rewrite E; cbn [bind]; eauto.
Qed.

Lemma load_server_port_witness :
  obj_lookup (u "cmd") [(u "port", JBool true)] = None
  /\ obj_lookup (u "port") [(u "port", JBool true)] = Some (JBool true)
  /\ is_int (JBool true) = true
  /\ exists s, load_server (JObj [(u "port", JBool true)]) false
       = Ok (SocketServer (obj_get_or [(u "port", JBool true)] "host" (JStr (u "127.0.0.1"))) (JBool true), s).
Proof.
  split; [reflexivity|]. split; [reflexivity|]. split; [reflexivity|].
  apply (load_server_port [(u "port", JBool true)] false (JBool true)); reflexivity.
Defined.

(** [lst.remove(x)] drops the first element equal to [x] and keeps the
    others in order; it raises [ValueError], and only that, when no element
    equals [x]. *)
Theorem list_remove_first : forall x l,
  (list_remove x l = Raise ValueError <-> existsb (py_eq x) l = false)
  /\ (forall e, list_remove x l = Raise e -> e = ValueError)
  /\ (forall l', list_remove x l = Ok l' <->
       exists l1 y l2, l = l1 ++ y :: l2 /\ l' = l1 ++ l2
         /\ py_eq x y = true /\ existsb (py_eq x) l1 = false).
Proof.
  intros x l. induction l as [|y l [IH1 [IH2 IH3]]].
  - cbn. split; [tauto|]. split; [intros e E; injection E as <-; reflexivity|].
    intro l'; split; [discriminate|]. intros [[|? ?] [? [? [E _]]]]; discriminate.
  - cbn [list_remove existsb]. destruct (py_eq x y) eqn:Exy; cbn [orb].
    + split; [split; discriminate|]. split; [discriminate|].
      intro l'; split.
      * intro E; injection E as <-. exists [], y, l. auto.
      * intros [l1 [z [l2 [E [-> [Hz Hl1]]]]]].
        destruct l1 as [|w l1]; cbn in E |- *.
        -- injection E as <- <-. reflexivity.
        -- injection E as <- _. cbn in Hl1. rewrite Exy in Hl1. discriminate.
    + destruct (list_remove x l) as [r|e] eqn:El; cbn [bind].
      * split; [split; [discriminate|] |]; [intro H; apply IH1 in H; discriminate|].
        split; [discriminate|].
        intro l'; split.
        -- intro E; injection E as <-.
           destruct (proj1 (IH3 r) eq_refl) as [l1 [z [l2 [-> [-> [Hz Hl1]]]]]].
           exists (y :: l1), z, l2. cbn. rewrite Exy. auto.
        -- intros [l1 [z [l2 [E [-> [Hz Hl1]]]]]].
           destruct l1 as [|w l1]; cbn in E, Hl1.
           ++ injection E as <- _. congruence.
           ++ injection E as <- E. rewrite Exy in Hl1. cbn in Hl1.
              assert (Hr : Ok r = Ok (l1 ++ l2)) by (apply (proj2 (IH3 _)); eauto 7).
              injection Hr as ->. reflexivity.
      * specialize (IH2 e eq_refl). subst e.
        split; [split; [intros _; apply IH1; reflexivity | reflexivity]|].
        split; [intros e E; injection E as <-; reflexivity|].
        intro l'; split; [discriminate|].
        intros [l1 [z [l2 [E [-> [Hz Hl1]]]]]].
        destruct l1 as [|w l1]; cbn in E, Hl1.
        -- injection E as <- _. congruence.
        -- injection E as <- E. rewrite Exy in Hl1. cbn in Hl1.
           assert (Hr : Raise ValueError = Ok (l1 ++ l2)) by (apply (proj2 (IH3 _)); eauto 7).
           discriminate.
Qed.

Lemma d_set_raw_absent : forall k v d, d_find k d = None -> d_set_raw k v d = d ++ [(k, v)].
Proof.
  intros k v d; induction d as [|[k' v'] d IH]; intro H; [reflexivity|].
  cbn in H |- *. destruct (py_eq k k'); [discriminate|]. rewrite IH by exact H. reflexivity.
Qed.

Lemma d_find_app_absent : forall k k' v d, d_find k d = None ->
  d_find k (d ++ [(k', v)]) = if py_eq k k' then Some v else None.
Proof.
  intros k k' v d; induction d as [|[k'' v''] d IH]; intro H; [reflexivity|].
  cbn in H |- *. destruct (py_eq k k''); [discriminate|]. exact (IH H).
Qed.

Lemma d_find_app_other : forall k k' v d, py_eq k k' = false ->
  d_find k (d ++ [(k', v)]) = d_find k d.
Proof.
  intros k k' v d Hk; induction d as [|[k'' v''] d IH]; cbn; [rewrite Hk; reflexivity|].
  destruct (py_eq k k''); [reflexivity | exact IH].
Qed.

Lemma d_del_raw_app : forall k v d, d_find k d = None -> d_del_raw k (d ++ [(k, v)]) = d.
Proof.
  intros k v d; induction d as [|[k' v'] d IH]; intro H; cbn.
  - rewrite py_eq_refl. reflexivity.
  - cbn in H. destruct (py_eq k k'); [discriminate|]. rewrite IH by exact H. reflexivity.
Qed.

(** Storing a fresh hashable id in a pending table, then reading and
    deleting it, gives the stored value back and restores the table; the
    other ids keep their entries meanwhile. *)
Theorem pending_insert_delete : forall k v d,
  hashable k = true -> d_find k d = None ->
  exists d', d_set k v d = Ok d'
    /\ d_get k d' = Ok v
    /\ (forall k', py_eq k' k = false -> d_find k' d' = d_find k' d)
    /\ d_del k d' = Ok d.
Proof.
  intros k v d Hh Hd. exists (d ++ [(k, v)]).
  unfold d_set, d_get, d_del. rewrite Hh, d_set_raw_absent by exact Hd.
  rewrite d_find_app_absent, py_eq_refl by exact Hd.
  split; [reflexivity|]. split; [reflexivity|]. split.
  - intros k' Hk'. apply d_find_app_other. exact Hk'.
  - rewrite d_del_raw_app by exact Hd. reflexivity.
Qed.

Lemma pending_insert_delete_witness :
  hashable (JInt 1) = true /\ d_find (JInt 1) [(JInt 0, js "initialize")] = None
  /\ exists d', d_set (JInt 1) (js "textDocument/hover") [(JInt 0, js "initialize")] = Ok d'
      /\ d_get (JInt 1) d' = Ok (js "textDocument/hover")
      /\ (forall k', py_eq k' (JInt 1) = false -> d_find k' d' = d_find k' [(JInt 0, js "initialize")])
      /\ d_del (JInt 1) d' = Ok [(JInt 0, js "initialize")].
Proof.
  split; [reflexivity|]. split; [reflexivity|].
  apply pending_insert_delete; reflexivity.
Defined.

(** For a non-empty key, [safe_get] returns [None] on a falsy [dct]; on
    a dict, the value of the key when present (whatever it is, [None]
    included) and [None] when absent; on a truthy non-dict, [None] when
    [key in dct] is [False], and otherwise [TypeError] ([key in dct]
    raises it, or holds and [dct[key]] raises it). *)
Theorem safe_get_outcomes : forall d k, k <> [] ->
  (py_truthy d = false -> safe_get d k = Ok JNull)
  /\ (forall m v, obj_lookup k m = Some v -> safe_get (JObj m) k = Ok v)
  /\ (forall m, obj_lookup k m = None -> safe_get (JObj m) k = Ok JNull)
  /\ (py_truthy d = true -> (forall m, d <> JObj m) -> py_in (JStr k) d = Ok false ->
        safe_get d k = Ok JNull)
  /\ (py_truthy d = true -> (forall m, d <> JObj m) -> py_in (JStr k) d <> Ok false ->
        safe_get d k = Raise TypeError).
Proof.
  intros d k _. split; [|split; [|split; [|split]]].
  - intro Ht. unfold safe_get. rewrite Ht. reflexivity.
  - intros m v E. rewrite safe_get_obj, E. reflexivity.
  - intros m E. rewrite safe_get_obj, E. reflexivity.
  - intros Ht _ Hin. unfold safe_get. rewrite Ht, Hin, bind_Ok. reflexivity.
  - intros Ht Hd Hin. unfold safe_get. rewrite Ht.
    destruct d as [|b|z|s|l|m]; try discriminate Ht; [| | | |exfalso; exact (Hd m eq_refl)];
      cbn [py_in] in Hin |- *; cbn [bind]; try reflexivity.
    + destruct (ustr_substrb k s); [reflexivity | exfalso; exact (Hin eq_refl)].
    + destruct (existsb (py_eq (JStr k)) l); [reflexivity | exfalso; exact (Hin eq_refl)].
Qed.

Lemma safe_get_outcomes_witness :
  safe_get (JObj [(u "a", JInt 0)]) (u "a") = Ok (JInt 0)
  /\ safe_get (JObj [(u "a", JInt 0)]) (u "b") = Ok JNull
  /\ safe_get (JStr (u "plain text")) (u "capabilities") = Ok JNull
  /\ safe_get (JBool true) (u "capabilities") = Raise TypeError
  /\ safe_get (JStr (u "no capabilities")) (u "capabilities") = Raise TypeError.
Proof.
  split; [|split; [|split; [|split]]].
  - exact (proj1 (proj2 (safe_get_outcomes (JNull) (u "a") ltac:(discriminate)))
             [(u "a", JInt 0)] (JInt 0) ltac:(reflexivity)).
  - exact (proj1 (proj2 (proj2 (safe_get_outcomes JNull (u "b") ltac:(discriminate))))
             [(u "a", JInt 0)] ltac:(reflexivity)).
  - apply (proj1 (proj2 (proj2 (proj2 (safe_get_outcomes (JStr (u "plain text")) (u "capabilities")
                                        ltac:(discriminate))))));
      [reflexivity | discriminate | vm_compute; reflexivity].
  - apply (proj2 (proj2 (proj2 (proj2 (safe_get_outcomes (JBool true) (u "capabilities")
                                        ltac:(discriminate))))));
      [reflexivity | discriminate | discriminate].
  - apply (proj2 (proj2 (proj2 (proj2 (safe_get_outcomes (JStr (u "no capabilities")) (u "capabilities")
                                        ltac:(discriminate))))));
      [reflexivity | discriminate | vm_compute; discriminate].
Defined.

Section Framing_extras.
Local Open Scope Z_scope.

Ltac match_var_cases2 :=
  repeat match goal with
         | |- context [match ?x with _ => _ end] => is_var x; destruct x; try reflexivity
         end.

Lemma header_length_app : forall l1 l2 n,
  header_length (l1 ++ l2) n = (m <- header_length l1 n ;; header_length l2 m).
Proof.
  induction l1 as [|line l1 IH]; intros l2 n; [reflexivity|].
  cbn [app header_length].
  destruct (split_colon_max2 line) as [|a [|b [|c t]]]; try reflexivity.
  destruct (ustr_eqb (lower a) (u "content-length")); [|apply IH].
  destruct (py_int (strip b)); [apply IH | reflexivity].
Qed.

Lemma split_at_colon_key : forall key r, forallb (fun c => negb (c =? 58)) key = true ->
  split_at_colon (key ++ 58 :: r) = Some (key, r).
Proof.
  induction key as [|c key IH]; intros r H; [reflexivity|].
  cbn [forallb] in H. apply andb_prop in H as [Hc H].
  cbn [app split_at_colon]. apply negb_true_iff in Hc. rewrite Hc, IH by exact H. reflexivity.
Qed.

Lemma find_sep_crlf : forall c t, c <> 13 ->
  find_sep (13 :: 10 :: c :: t) = option_map S (find_sep (10 :: c :: t)).
Proof. intros c t H. cbn [find_sep]. match_var_cases2; exfalso; apply H; reflexivity. Qed.

Lemma split_crlf_acc_crlf : forall c t cur, c <> 13 ->
  split_crlf_acc (13 :: 10 :: c :: t) cur = cur :: split_crlf_acc (c :: t) [].
Proof. intros c t cur H. reflexivity. Qed.

Lemma header_lines_cons_app : forall l L X,
  header_lines (l :: L) ++ X = l ++ 13 :: 10 :: (header_lines L ++ X).
Proof. intros l L X. cbn [header_lines]. rewrite <- app_assoc. reflexivity. Qed.

Lemma header_lines_length : forall L, L <> [] -> Forall (fun l => l <> [] /\ no_cr l = true) L ->
  (3 <= List.length (header_lines L))%nat.
Proof.
  intros [|l L] Hne HF; [congruence|]. inversion HF as [|? ? [Hl _] _]; subst.
  cbn [header_lines]. rewrite length_app. destruct l; [congruence|]. cbn [List.length]. lia.
Qed.

Lemma find_sep_header : forall L rest, L <> [] -> Forall (fun l => l <> [] /\ no_cr l = true) L ->
  find_sep (header_bytes L ++ rest) = Some (List.length (header_lines L) - 2)%nat.
Proof.
  induction L as [|l L IH]; intros rest Hne HF; [congruence|].
  inversion HF as [|? ? [Hl Hc] HF']; subst.
  unfold header_bytes. rewrite <- app_assoc, header_lines_cons_app.
  rewrite find_sep_prefix by exact Hc.
  destruct L as [|l' L].
  - cbn [header_lines app]. replace (find_sep (13 :: 10 :: 13 :: 10 :: rest)) with (Some 0%nat) by reflexivity.
    cbn [option_map]. rewrite length_app. cbn [List.length]. f_equal. lia.
  - inversion HF' as [|? ? [Hl' Hc'] _]; subst.
    pose proof (header_lines_length (l' :: L) ltac:(discriminate) HF') as H3.
    destruct l' as [|c t]; [congruence|].
    assert (Hc13 : c <> 13) by (unfold no_cr in Hc'; cbn [forallb] in Hc';
                                 apply andb_prop in Hc' as [Hc13 _]; intro E; subst; discriminate).
    cbn [header_lines app]. rewrite find_sep_crlf by exact Hc13.
    rewrite find_sep_cons by discriminate.
    specialize (IH rest ltac:(discriminate) HF'). unfold header_bytes in IH.
    rewrite <- app_assoc in IH. cbn [header_lines app] in IH, H3. rewrite IH.
    cbn [option_map]. rewrite length_app. cbn [List.length] in *. f_equal. lia.
Qed.

Lemma split_crlf_header : forall L, Forall (fun l => no_cr l = true) L ->
  split_crlf_acc (header_bytes L) [] = L ++ [[]; []].
Proof.
  induction L as [|l L IH]; intros HF; [reflexivity|].
  inversion HF as [|? ? Hc HF']; subst.
  unfold header_bytes. rewrite header_lines_cons_app.
  rewrite split_crlf_acc_prefix by exact Hc. cbn [app].
  fold (header_bytes L). cbn [split_crlf_acc]. rewrite IH by exact HF'. reflexivity.
Qed.

(** [read_message] on a header block of lines [L]. *)
Lemma read_message_block : forall depth L rest, L <> [] ->
  Forall (fun l => l <> [] /\ no_cr l = true) L ->
  (List.length (header_lines L) - 2 <= stream_limit)%nat ->
  read_message depth (header_bytes L ++ rest) =
  match header_length L 0 with
  | Raise e => (RRaise e, rest)
  | Ok length =>
      if 0 <? length then
        if Z.of_nat (List.length rest) <? length then (RNone, [])
        else (of_loads (json_loads depth (firstn (Z.to_nat length) rest)), skipn (Z.to_nat length) rest)
      else (of_loads (json_loads depth []), rest)
  end.
Proof.
  intros depth L rest Hne HF Hl. unfold read_message.
  rewrite find_sep_header by assumption.
  replace (Nat.ltb stream_limit (List.length (header_lines L) - 2)) with false
    by (symmetry; apply Nat.ltb_ge; exact Hl).
  pose proof (header_lines_length L Hne HF) as H3.
  assert (Hlen : (List.length (header_lines L) - 2 + 4 = List.length (header_bytes L))%nat)
    by (unfold header_bytes; rewrite length_app; cbn [List.length]; lia).
  rewrite Hlen.
  rewrite firstn_app, Nat.sub_diag, firstn_O, app_nil_r, firstn_all.
  rewrite skipn_app, Nat.sub_diag, skipn_O, skipn_all. cbn [app].
  unfold split_crlf. rewrite split_crlf_header
    by (rewrite Forall_forall in HF |- *; intros x Hx; exact (proj2 (HF x Hx))).
  unfold drop_last2. rewrite length_app. cbn [List.length].
  replace (List.length L + 2 - 2)%nat with (List.length L) by lia.
  rewrite firstn_app, Nat.sub_diag, firstn_O, app_nil_r, firstn_all.
  reflexivity.
Qed.

Lemma split_at_colon_none : forall s, forallb (fun c => negb (c =? 58)) s = true -> split_at_colon s = None.
Proof.
  induction s as [|c s IH]; intro H; [reflexivity|].
  cbn [forallb] in H. apply andb_prop in H as [Hc H]. apply negb_true_iff in Hc.
  cbn [split_at_colon]. rewrite Hc, IH by exact H. reflexivity.
Qed.

Lemma header_length_other_lines : forall lines z,
  Forall (fun l => exists a b, split_colon_max2 l = [a; b]
                               /\ ustr_eqb (lower a) (u "content-length") = false) lines ->
  header_length lines z = Ok z.
Proof.
  induction lines as [|l lines IH]; intros z HF; [reflexivity|].
  inversion HF as [|? ? [a [b [Hs Hk]]] HF']; subst.
  cbn [header_length]. rewrite Hs, Hk. exact (IH z HF').
Qed.

(** The header loop of [read_message] takes the length from the last
    [Content-Length] line, whatever the case of its name: after it, lines
    of the form [key: value] with another key leave the length alone. *)
Theorem header_length_last_content_length : forall lines1 key val lines2 n m z,
  header_length lines1 n = Ok m ->
  forallb (fun c => negb (c =? 58)) key = true ->
  forallb (fun c => negb (c =? 58)) val = true ->
  ustr_eqb (lower key) (u "content-length") = true ->
  py_int (strip val) = Ok z ->
  Forall (fun l => exists a b, split_colon_max2 l = [a; b]
                               /\ ustr_eqb (lower a) (u "content-length") = false) lines2 ->
  header_length (lines1 ++ (key ++ 58 :: val) :: lines2) n = Ok z.
Proof.
  intros lines1 key val lines2 n m z Hh Hk Hv Hl Hz HF.
  rewrite header_length_app, Hh, bind_Ok. cbn [header_length].
  unfold split_colon_max2. rewrite split_at_colon_key by exact Hk.
  rewrite split_at_colon_none by exact Hv. rewrite Hl, Hz, bind_Ok.
  exact (header_length_other_lines lines2 z HF).
Qed.

Lemma header_length_last_content_length_witness :
  header_length ([u "Content-Length: 5"] ++ (u "content-length" ++ 58 :: u " 12")
                   :: [u "Content-Type: application/vscode-jsonrpc; charset=utf-8"]) 0 = Ok 12.
Proof.
  apply (header_length_last_content_length _ _ _ _ 0 5 12);
    [vm_compute; reflexivity | vm_compute; reflexivity | vm_compute; reflexivity
    | vm_compute; reflexivity | vm_compute; reflexivity |].
  constructor; [|constructor].
  exists (u "Content-Type"), (u " application/vscode-jsonrpc; charset=utf-8").
  split; vm_compute; reflexivity.
Defined.

(** When the stream ends before the [Content-Length] bytes of the body,
    [read_message] returns [None] and the stream is used up. *)
Theorem read_message_short_body : forall depth L rest length,
  L <> [] -> Forall (fun l => l <> [] /\ no_cr l = true) L ->
  (List.length (header_lines L) - 2 <= stream_limit)%nat ->
  header_length L 0 = Ok length -> 0 < length ->
  Z.of_nat (List.length rest) < length ->
  read_message depth (header_bytes L ++ rest) = (RNone, []).
Proof.
  intros depth L rest length Hne HF Hl Hh Hpos Hlt.
  rewrite read_message_block, Hh by assumption.
  replace (0 <? length) with true by (symmetry; apply Z.ltb_lt; exact Hpos).
  replace (Z.of_nat (List.length rest) <? length) with true by (symmetry; apply Z.ltb_lt; exact Hlt).
  reflexivity.
Qed.

Lemma read_message_short_body_witness :
  read_message 900 (header_bytes (framed_headers "9"%string) ++ u "{}") = (RNone, []).
Proof.
  apply (read_message_short_body 900 (framed_headers "9"%string) (u "{}") 9);
    first [discriminate | apply Nat.leb_le; vm_compute; reflexivity | vm_compute; reflexivity
          | repeat constructor; discriminate | lia].
Defined.

(** A [Content-Length] of zero or less reads no body: [read_message]
    returns [None] and leaves everything after the header in the stream. *)
Theorem read_message_nonpositive_length : forall depth L rest length,
  L <> [] -> Forall (fun l => l <> [] /\ no_cr l = true) L ->
  (List.length (header_lines L) - 2 <= stream_limit)%nat ->
  header_length L 0 = Ok length -> length <= 0 ->
  read_message depth (header_bytes L ++ rest) = (RNone, rest).
Proof.
  intros depth L rest length Hne HF Hl Hh Hle.
  rewrite read_message_block, Hh by assumption.
  replace (0 <? length) with false by (symmetry; apply Z.ltb_ge; exact Hle).
  reflexivity.
Qed.

Lemma read_message_nonpositive_length_witness :
  read_message 900 (header_bytes (framed_headers "-5"%string) ++ u "{}") = (RNone, u "{}")
  /\ read_message 900 (header_bytes (framed_headers "0"%string) ++ u "{}") = (RNone, u "{}").
Proof.
  split.
  - apply (read_message_nonpositive_length 900 (framed_headers "-5"%string) (u "{}") (-5));
      first [discriminate | apply Nat.leb_le; vm_compute; reflexivity | vm_compute; reflexivity
            | repeat constructor; discriminate | lia].
  - apply (read_message_nonpositive_length 900 (framed_headers "0"%string) (u "{}") 0);
      first [discriminate | apply Nat.leb_le; vm_compute; reflexivity | vm_compute; reflexivity
            | repeat constructor; discriminate | lia].
Defined.






End Framing_extras.

Lemma merge_code_actions_config : forall iden srvs r r' srvs',
  merge_code_actions iden srvs r = Ok (r', srvs') -> map server_config srvs' = map server_config srvs.
Proof.
  intros iden srvs; induction srvs as [|s srvs IH]; intros r r' srvs' H; simpl in H.
  - injection H as <- <-; reflexivity.
  - crush_ok; simpl; f_equal; eauto.
Qed.

Lemma collect_config : forall srvs k c sup srvs' k' c' sup',
  collect_code_actions_commands srvs k c sup = Ok (srvs', k', c', sup') ->
  map server_config srvs' = map server_config srvs.
Proof.
  intros srvs; induction srvs as [|s srvs IH]; intros k c sup srvs' k' c' sup' H; simpl in H.
  - injection H as <- <- <- <-; reflexivity.
  - crush_ok; simpl; f_equal; eauto.
Qed.

Lemma get_initialization_options_config : forall sl p msg p',
  get_initialization_options sl p = Ok (msg, p') ->
  map server_config (servers p') = map server_config (servers p).
Proof.
  intros sl p msg p' H. unfold get_initialization_options in H.
  crush_ok; simpl; eauto using collect_config.
Qed.

Lemma send_phase_config : forall p i msg fs method p' msg',
  send_phase p i msg fs method = Ok (p', msg') ->
  map server_config (servers p') = map server_config (servers p).
Proof.
  intros p i msg fs method p' msg' H. unfold send_phase in H.
  crush_ok; try reflexivity. frame_replace.
Qed.

Lemma from_server_cases_config : forall sl p i msg iden ss p' msg' ss',
  from_server_cases sl p i msg iden ss = Ok (p', msg', ss') ->
  map server_config (servers p') = map server_config (servers p).
Proof.
  intros sl p i msg iden ss p' msg' ss' H. unfold from_server_cases in H.
  apply bind_Ok_inv in H as [hr [Hr H]].
  destruct hr; [|injection H as <- <- <-; reflexivity].
  destruct (py_eq iden (initialize_id p)) eqn:Ei;
    [|destruct (py_eq iden (shutdown_id p)) eqn:Es;
      [|destruct (existsb (py_eq iden) (code_action_ids p)) eqn:Ec]];
    crush_ok;
    try (match goal with
         | Hg : get_initialization_options _ _ = Ok _ |- _ =>
             rewrite (get_initialization_options_config _ _ _ _ Hg)
         | Hm : merge_code_actions _ _ _ = Ok _ |- _ =>
             simpl; rewrite (merge_code_actions_config _ _ _ _ _ Hm)
         end);
    first [reflexivity | frame_replace].
Qed.

Lemma process_config : forall sl p i msg fs pm p' msg' out,
  process sl p i msg fs pm = Ok (p', msg', out) ->
  map server_config (servers p') = map server_config (servers p).
Proof.
  intros sl p i msg fs pm p' msg' out H. unfold process in H.
  apply bind_Ok_inv in H as [srv [Hs H]].
  apply bind_Ok_inv in H as [method [_ H]].
  apply bind_Ok_inv in H as [iden [_ H]].
  apply bind_Ok_inv in H as [found [_ H]].
  apply bind_Ok_inv in H as [[[ss meth] srv'] [Hst H]].
  assert (Hc : server_config srv' = server_config srv).
  { destruct found.
    - crush_ok; try destruct fs; reflexivity.
    - destruct (negb (filter_msg method (is_primary srv) pm));
        [destruct (py_truthy method && py_truthy iden)|]; crush_ok; try destruct fs; reflexivity. }
  assert (H1 : map server_config (servers (replace_server p i srv')) = map server_config (servers p))
    by (apply (replace_server_map _ p i srv srv' (get_server_nth _ _ _ Hs) Hc)).
  apply bind_Ok_inv in H as [[[p2 msg2] ss2] [Hst2 H]].
  assert (H2 : map server_config (servers p2) = map server_config (servers p)).
  { rewrite <- H1. destruct fs.
    - exact (from_server_cases_config _ _ _ _ _ _ _ _ _ Hst2).
    - rewrite (proj1 (from_client_cases_frame _ _ _ _ _ _ _ _ _ Hst2)). reflexivity. }
  destruct ss2.
  - apply bind_Ok_inv in H as [[p3 msg3] [Hs3 H]]. injection H as <- _ _.
    rewrite (send_phase_config _ _ _ _ _ _ _ Hs3). exact H2.
  - injection H as <- _ _. exact H2.
Qed.

Lemma map_nth_error_same : forall {A B} (f : A -> B) l1 l2 i x,
  map f l1 = map f l2 -> nth_error l1 i = Some x ->
  exists y, nth_error l2 i = Some y /\ f y = f x.
Proof.
  intros A B f l1 l2 i x E H.
  apply (f_equal (fun l => nth_error l i)) in E. rewrite !nth_error_map, H in E.
  destruct (nth_error l2 i) as [y|]; [|discriminate]. injection E as E. eauto.
Qed.

Lemma seq_sorted : forall n start, StronglySorted lt (seq start n).
Proof.
  induction n as [|n IH]; intro start; cbn [seq]; constructor; [apply IH|].
  apply Forall_forall. intros x Hx. apply in_seq in Hx. lia.
Qed.

Lemma client_fold_raise : forall sl L e,
  fold_left
    (fun acc i =>
       st <- acc ;;
       let '(p, msg, outs) := st in
       match nth_error (servers p) i with
       | Some srv =>
           if connected srv then
             r <- process sl p i msg false
                    (preserved_requests ++ preserved_client_server_notifications) ;;
             let '(p, msg, out) := r in
             Ok (p, msg, outs ++ match out with Some m => [(ToServer i, m)] | None => [] end)
           else Ok (p, msg, outs)
       | None => Ok (p, msg, outs)
       end)
    L (Raise e) = Raise e.
Proof. intros sl L e; induction L as [|i L IH]; [reflexivity | exact IH]. Qed.

Lemma client_fold_spec : forall sl L p msg outs p' msg' outs',
  StronglySorted lt L ->
  fold_left
    (fun acc i =>
       st <- acc ;;
       let '(p, msg, outs) := st in
       match nth_error (servers p) i with
       | Some srv =>
           if connected srv then
             r <- process sl p i msg false
                    (preserved_requests ++ preserved_client_server_notifications) ;;
             let '(p, msg, out) := r in
             Ok (p, msg, outs ++ match out with Some m => [(ToServer i, m)] | None => [] end)
           else Ok (p, msg, outs)
       | None => Ok (p, msg, outs)
       end)
    L (Ok (p, msg, outs)) = Ok (p', msg', outs') ->
  map server_config (servers p') = map server_config (servers p)
  /\ exists idx, map fst outs' = map fst outs ++ map ToServer idx
       /\ StronglySorted lt idx
       /\ forall i, In i idx -> In i L /\ exists s, nth_error (servers p) i = Some s /\ connected s = true.
Proof.
  intros sl L; induction L as [|a L IH]; intros p msg outs p' msg' outs' HL H.
  - cbn in H. injection H as <- <- <-. split; [reflexivity|].
    exists []. rewrite app_nil_r. split; [reflexivity|]. split; [constructor | intros i []].
  - apply StronglySorted_inv in HL as [HL Ha].
    cbn [fold_left] in H. cbn [bind] in H.
    destruct (nth_error (servers p) a) as [srv|] eqn:En.
    + destruct (connected srv) eqn:Ec.
      * destruct (process sl p a msg false (preserved_requests ++ preserved_client_server_notifications))
          as [[[p1 msg1] out]|e] eqn:Ep;
          [|cbn [bind] in H; rewrite client_fold_raise in H; discriminate].
        cbn [bind] in H.
        pose proof (process_config _ _ _ _ _ _ _ _ _ Ep) as Hc1.
        destruct (IH _ _ _ _ _ _ HL H) as [Hc2 [idx [Hf [Hs Hi]]]].
        split; [congruence|].
        assert (Hconn : forall i, In i idx -> exists s, nth_error (servers p) i = Some s /\ connected s = true).
        { intros i Hin. destruct (Hi i Hin) as [_ [s [Hn Hcs]]].
          destruct (map_nth_error_same server_config _ _ i s Hc1 Hn) as [s' [Hn' Hf']].
          exists s'. split; [exact Hn'|]. apply (f_equal snd) in Hf'. cbn in Hf'. congruence. }
        destruct out as [m|].
        -- exists (a :: idx). rewrite Hf, map_app, <- app_assoc. split; [reflexivity|].
           split.
           ++ constructor; [exact Hs|]. apply Forall_forall. intros x Hx.
              exact (proj1 (Forall_forall _ _) Ha x (proj1 (Hi x Hx))).
           ++ intros i [<-|Hin]; [split; [left; reflexivity | eauto]|].
              split; [right; exact (proj1 (Hi i Hin)) | exact (Hconn i Hin)].
        -- exists idx. rewrite Hf, app_nil_r. split; [reflexivity|]. split; [exact Hs|].
           intros i Hin. split; [right; exact (proj1 (Hi i Hin)) | exact (Hconn i Hin)].
      * destruct (IH _ _ _ _ _ _ HL H) as [Hc2 [idx [Hf [Hs Hi]]]].
        split; [exact Hc2|]. exists idx. split; [exact Hf|]. split; [exact Hs|].
        intros i Hin. destruct (Hi i Hin) as [Hl Hx]. split; [right; exact Hl | exact Hx].
    + destruct (IH _ _ _ _ _ _ HL H) as [Hc2 [idx [Hf [Hs Hi]]]].
      split; [exact Hc2|]. exists idx. split; [exact Hf|]. split; [exact Hs|].
      intros i Hin. destruct (Hi i Hin) as [Hl Hx]. split; [right; exact Hl | exact Hx].
Qed.

Lemma dispatch_config : forall sl p msg origin p' outs,
  dispatch sl p msg origin = Ok (p', outs) ->
  map server_config (servers p') = map server_config (servers p).
Proof.
  intros sl p msg [i|] p' outs H; unfold dispatch in H.
  - apply bind_Ok_inv in H as [[[p1 m1] out] [Hp H]]. injection H as <- _.
    exact (process_config _ _ _ _ _ _ _ _ _ Hp).
  - apply bind_Ok_inv in H as [[[p1 m1] outs1] [Hf H]]. injection H as <- _.
    exact (proj1 (client_fold_spec _ _ _ _ _ _ _ _ (seq_sorted _ _) Hf)).
Qed.

(** A message from the client is written only to connected servers, each
    at most once, in configuration order. *)
Theorem dispatch_client_routing : forall sl p msg p' outs,
  dispatch sl p msg None = Ok (p', outs) ->
  exists idx, map fst outs = map ToServer idx
    /\ StronglySorted lt idx
    /\ forall i, In i idx -> exists s, nth_error (servers p) i = Some s /\ connected s = true.
Proof.
  intros sl p msg p' outs H. unfold dispatch in H.
  apply bind_Ok_inv in H as [[[p1 m1] outs1] [Hf H]]. injection H as _ <-.
  destruct (client_fold_spec _ _ _ _ _ _ _ _ (seq_sorted _ _) Hf) as [_ [idx [Hm [Hs Hi]]]].
  exists idx. split; [exact Hm|]. split; [exact Hs|]. intros i Hin. exact (proj2 (Hi i Hin)).
Qed.

Lemma dispatch_client_routing_witness :
  match dispatch dedup_first proxy_AB_ready (request (JInt 2) "textDocument/codeAction"%string) None with
  | Ok (_, outs) =>
      exists idx, map fst outs = map ToServer idx
        /\ StronglySorted lt idx
        /\ forall i, In i idx -> exists s, nth_error (servers proxy_AB_ready) i = Some s /\ connected s = true
  | Raise _ => False
  end.
Proof.
  destruct (dispatch dedup_first proxy_AB_ready (request (JInt 2) "textDocument/codeAction"%string) None)
    as [[p' outs]|e] eqn:E.
  - exact (dispatch_client_routing _ _ _ _ _ E).
  - vm_compute in E. discriminate E.
Defined.

Lemma settings_of_config : forall l l',
  map server_config l' = map server_config l -> map server_settings l' = map server_settings l.
Proof.
  intros l l' E. apply (f_equal (map fst)) in E. rewrite !map_map in E. exact E.
Qed.

Lemma run_config : forall sl evs p p' outs,
  run sl p evs = Ok (p', outs) ->
  map server_config (servers p') = map server_config (servers p).
Proof.
  intros sl evs; induction evs as [|[origin m] evs IH]; intros p p' outs H; cbn [run] in H.
  - injection H as <- _. reflexivity.
  - apply bind_Ok_inv in H as [[p1 out1] [Hd H]].
    apply bind_Ok_inv in H as [[p2 out2] [Hr H]]. injection H as <- _.
    rewrite (IH _ _ _ Hr). exact (dispatch_config _ _ _ _ _ _ Hd).
Qed.

(** Processing messages never changes the part of a server that
    [load_config] fixed: its primary flag, its [initializationOptions]
    and its [use_*] flags. *)
Theorem run_preserves_config : forall sl p evs p' outs,
  run sl p evs = Ok (p', outs) ->
  map server_settings (servers p') = map server_settings (servers p).
Proof.
  intros sl p evs p' outs H. exact (settings_of_config _ _ (run_config _ _ _ _ _ H)).
Qed.

Lemma run_preserves_config_witness :
  match run dedup_first proxy_AB
          (initialize_AB caps_A caps_B ++ [(None, request (JInt 2) "textDocument/formatting"%string)]) with
  | Ok (p', _) => map server_settings (servers p') = map server_settings (servers proxy_AB)
  | Raise _ => False
  end.
Proof.
  destruct (run dedup_first proxy_AB
              (initialize_AB caps_A caps_B ++ [(None, request (JInt 2) "textDocument/formatting"%string)]))
    as [[p' outs]|e] eqn:E.
  - exact (run_preserves_config _ _ _ _ _ E).
  - vm_compute in E. discriminate E.
Defined.

(** For a message whose [params] is a dict, the options substitution sets
    [params[key]] to the server's options when they are truthy, else to
    [None] for a non-primary server, and leaves it alone for the primary;
    the rest of [params] and of the message is unchanged. *)
Theorem substitute_options_params : forall srv m key pm,
  obj_lookup (u "params") m = Some (JObj pm) ->
  exists pm', substitute_options srv (JObj m) key = Ok (JObj (obj_set (u "params") (JObj pm') m))
    /\ obj_lookup key pm'
       = (if py_truthy (initialization_options srv) then Some (initialization_options srv)
          else if is_primary srv then obj_lookup key pm else Some JNull)
    /\ forall k, k <> key -> obj_lookup k pm' = obj_lookup k pm.
Proof.
  intros srv m key pm Hp. unfold substitute_options. unfold py_getitem at 1. rewrite Hp. cbn [bind].
  destruct (py_truthy (initialization_options srv)).
  - exists (obj_set key (initialization_options srv) pm). cbn. split; [reflexivity|].
    split; [apply obj_lookup_set_same|]. intros k Hk. apply obj_lookup_set_other. congruence.
  - destruct (is_primary srv); cbn [negb].
    + exists pm. split; [|split; reflexivity].
      f_equal. f_equal. clear -Hp. induction m as [|[k v] m IH]; [discriminate|].
      cbn [obj_lookup obj_set] in Hp |- *. destruct (ustr_eqb (u "params") k) eqn:E.
      * injection Hp as ->. apply ustr_eqb_eq in E. subst k. reflexivity.
      * f_equal. exact (IH Hp).
    + exists (obj_set key JNull pm). cbn. split; [reflexivity|].
      split; [apply obj_lookup_set_same|]. intros k Hk. apply obj_lookup_set_other. congruence.
Qed.

Lemma substitute_options_params_witness :
  obj_lookup (u "params") [(u "params", JObj [(u "processId", JNull)])] = Some (JObj [(u "processId", JNull)])
  /\ exists pm', substitute_options srv_B (JObj [(u "params", JObj [(u "processId", JNull)])]) (u "initializationOptions")
                = Ok (JObj (obj_set (u "params") (JObj pm') [(u "params", JObj [(u "processId", JNull)])]))
       /\ obj_lookup (u "initializationOptions") pm'
          = (if py_truthy (initialization_options srv_B) then Some (initialization_options srv_B)
             else if is_primary srv_B then obj_lookup (u "initializationOptions") [(u "processId", JNull)]
             else Some JNull)
       /\ forall k, k <> u "initializationOptions" -> obj_lookup k pm' = obj_lookup k [(u "processId", JNull)].
Proof.
  split; [reflexivity|]. apply substitute_options_params. reflexivity.
Defined.

